(** * fastapi-term: the browser terminal client (static/script.js)

    A shallow embedding of the [Terminal] class: JavaScript strings as lists
    of UTF-16 code units, the regular expressions of the script as terms of a
    small backtracking matcher, the DOM and the object's fields as a record
    threaded through the handlers, and an uncaught exception as an outcome
    that ends the running handler but keeps the writes made before it. *)

From Stdlib Require Import Ascii String Bool NArith ZArith QArith Qround List Lia.
Import ListNotations.

Local Open Scope N_scope.

(** ** Strings *)

Module JS.

(** A code unit of a JavaScript string. *)
Definition char := N.
Definition jsstring := list char.

Definition c_ (a : ascii) : char := N_of_ascii a.
Arguments c_ a%_char.

(** A literal of the script, written as a Rocq string. *)
Definition js (s : string) : jsstring := map N_of_ascii (list_ascii_of_string s).
Arguments js s%_string.

Definition in_range (lo hi c : char) : bool := (lo <=? c) && (c <=? hi).

Fixpoint str_eqb (a b : jsstring) : bool :=
  match a, b with
  | [], [] => true
  | x :: a', y :: b' => (x =? y) && str_eqb a' b'
  | _, _ => false
  end.

(** [s.startsWith(p)] *)
Fixpoint startsWith (s p : jsstring) : bool :=
  match p, s with
  | [], _ => true
  | x :: p', y :: s' => (x =? y) && startsWith s' p'
  | _ :: _, [] => false
  end.

(** [s.includes(p)] *)
Fixpoint includes (s p : jsstring) : bool :=
  startsWith s p ||
  match s with
  | [] => false
  | _ :: s' => includes s' p
  end.

(** [s.endsWith(p)] *)
Definition endsWith (s p : jsstring) : bool := startsWith (rev s) (rev p).

(** [s.substring(n)] for [0 <= n]. *)
Definition substring (s : jsstring) (n : nat) : jsstring := skipn n s.

(** [s.split(sep)] for a separator of one code unit. *)
Fixpoint split (sep : char) (s : jsstring) : list jsstring :=
  match s with
  | [] => [[]]
  | c :: s' =>
      if c =? sep then [] :: split sep s'
      else match split sep s' with
           | l :: ls => (c :: l) :: ls
           | [] => [[c]]
           end
  end.

(** [parts.join(sep)] *)
Fixpoint join (sep : jsstring) (parts : list jsstring) : jsstring :=
  match parts with
  | [] => []
  | [p] => p
  | p :: ps => p ++ sep ++ join sep ps
  end.

(** [parts.slice(-n)] *)
Definition slice_last {A : Type} (n : nat) (parts : list A) : list A :=
  skipn (length parts - n) parts.

(** WhiteSpace and LineTerminator of ECMAScript: what [\s] matches and what
    [trim] removes. *)
Definition is_line_terminator (c : char) : bool :=
  (c =? 0x0A) || (c =? 0x0D) || (c =? 0x2028) || (c =? 0x2029).

Definition is_space (c : char) : bool :=
  in_range 0x09 0x0D c || (c =? 0x20) || (c =? 0xA0) || (c =? 0x1680)
  || in_range 0x2000 0x200A c || (c =? 0x2028) || (c =? 0x2029)
  || (c =? 0x202F) || (c =? 0x205F) || (c =? 0x3000) || (c =? 0xFEFF).

Fixpoint trimStart (s : jsstring) : jsstring :=
  match s with
  | c :: s' => if is_space c then trimStart s' else s
  | [] => []
  end.

Definition trimEnd (s : jsstring) : jsstring := rev (trimStart (rev s)).

(** [s.trim()] *)
Definition trim (s : jsstring) : jsstring := trimEnd (trimStart s).

(** [s.toLowerCase()].  Only the units A-Z are mapped.  The script applies it
    once, before [includes('password')]; no unit outside A-Z lower-cases to
    one of the letters of that word, so the test is the same. *)
Definition lower_unit (c : char) : char :=
  if in_range (c_ "A") (c_ "Z") c then c + 32 else c.

Definition toLowerCase (s : jsstring) : jsstring := map lower_unit s.

(** [s] between double quotes. *)
Definition quoted (s : jsstring) : jsstring := [0x22] ++ s ++ [0x22].

(** A string in a condition: the empty string is falsy. *)
Definition truthy (s : jsstring) : bool :=
  match s with [] => false | _ :: _ => true end.

End JS.
Export JS.

(** ** Regular expressions *)

Module Regex.

(** The constructs the script's patterns use.  A quantifier is only ever
    applied to one character class, and there is at most one group. *)
Inductive regex : Type :=
| RChar (p : char -> bool)          (* one unit of a class, literal or escape *)
| RStar (p : char -> bool)          (* class*, greedy *)
| RPlus (p : char -> bool)          (* class+, greedy *)
| RSeq (r1 r2 : regex)
| RAlt (r1 r2 : regex)              (* r1|r2, r1 first *)
| RBol                              (* ^ *)
| REol                              (* $ *)
| RGroup (r : regex).               (* ( r ), group 1 *)

(** The matcher's position: the unit before it, the input after it, and what
    group 1 holds. *)
Record mstate : Type := MState {
  ms_prev : option char;
  ms_rest : jsstring;
  ms_cap : option jsstring
}.

(** Greedy repetition of a class: take the unit and go on; if what follows
    fails, give it back and let the continuation try from here. *)
Fixpoint star_loop (p : char -> bool) (cap : option jsstring)
    (pv : option char) (s : jsstring)
    (k : mstate -> option mstate) : option mstate :=
  match s with
  | c :: s' =>
      if p c then
        match star_loop p cap (Some c) s' k with
        | Some r => Some r
        | None => k (MState pv s cap)
        end
      else k (MState pv s cap)
  | [] => k (MState pv [] cap)
  end.

(** The backtracking matcher, in continuation-passing style as in the
    language definition; [ml] is the [m] flag. *)
Fixpoint rmatch (ml : bool) (r : regex) (st : mstate)
    (k : mstate -> option mstate) : option mstate :=
  match r with
  | RChar p =>
      match ms_rest st with
      | c :: s' => if p c then k (MState (Some c) s' (ms_cap st)) else None
      | [] => None
      end
  | RStar p => star_loop p (ms_cap st) (ms_prev st) (ms_rest st) k
  | RPlus p =>
      match ms_rest st with
      | c :: s' => if p c then star_loop p (ms_cap st) (Some c) s' k else None
      | [] => None
      end
  | RSeq r1 r2 => rmatch ml r1 st (fun st' => rmatch ml r2 st' k)
  | RAlt r1 r2 =>
      match rmatch ml r1 st k with
      | Some res => Some res
      | None => rmatch ml r2 st k
      end
  | RBol =>
      match ms_prev st with
      | None => k st
      | Some c => if ml && is_line_terminator c then k st else None
      end
  | REol =>
      match ms_rest st with
      | [] => k st
      | c :: _ => if ml && is_line_terminator c then k st else None
      end
  | RGroup r1 =>
      rmatch ml r1 st (fun st' =>
        k (MState (ms_prev st') (ms_rest st')
             (Some (firstn (length (ms_rest st) - length (ms_rest st'))
                      (ms_rest st)))))
  end.

(** A match attempt at one position: the length matched and group 1. *)
Definition exec_at (ml : bool) (r : regex) (pv : option char) (s : jsstring)
    : option (nat * option jsstring) :=
  match rmatch ml r (MState pv s None) Some with
  | Some st' => Some ((length s - length (ms_rest st'))%nat, ms_cap st')
  | None => None
  end.

(** The leftmost match from a position on: the units skipped, the length of
    the match, group 1. *)
Fixpoint search_from (ml : bool) (r : regex) (pv : option char) (s : jsstring)
    : option (nat * nat * option jsstring) :=
  match exec_at ml r pv s with
  | Some (len, cap) => Some (0%nat, len, cap)
  | None =>
      match s with
      | [] => None
      | c :: s' =>
          match search_from ml r (Some c) s' with
          | Some (i, len, cap) => Some (S i, len, cap)
          | None => None
          end
      end
  end.

(** [re.test(s)] for a pattern without the [g] flag. *)
Definition test (ml : bool) (r : regex) (s : jsstring) : bool :=
  match search_from ml r None s with Some _ => true | None => false end.

(** [s.match(re)] for a pattern without the [g] flag: the text matched and
    group 1, or nothing ([null]). *)
Definition match_ (ml : bool) (r : regex) (s : jsstring)
    : option (jsstring * option jsstring) :=
  match search_from ml r None s with
  | Some (i, len, cap) => Some (firstn len (skipn i s), cap)
  | None => None
  end.

(** [s.replace(re, rep)] for a pattern with the [g] flag and a replacement
    without [$]: every match, left to right, is replaced; the units of a
    match are passed over ([skip] counts those still to pass); after an empty
    match the search resumes one unit further. *)
Fixpoint replace_go (ml : bool) (r : regex) (rep : jsstring)
    (pv : option char) (skip : nat) (s : jsstring) : jsstring :=
  match s with
  | [] =>
      match skip with
      | O => match exec_at ml r pv [] with Some _ => rep | None => [] end
      | S _ => []
      end
  | c :: s' =>
      match skip with
      | S n => replace_go ml r rep (Some c) n s'
      | O =>
          match exec_at ml r pv s with
          | Some (O, _) => rep ++ c :: replace_go ml r rep (Some c) 0 s'
          | Some (S n, _) => rep ++ replace_go ml r rep (Some c) n s'
          | None => c :: replace_go ml r rep (Some c) 0 s'
          end
      end
  end.

Definition replace (ml : bool) (r : regex) (rep : jsstring) (s : jsstring)
    : jsstring :=
  replace_go ml r rep None 0 s.

(** Character classes. *)
Definition lit (a : char) : char -> bool := fun c => c =? a.
Definition any_of (l : list char) : char -> bool :=
  fun c => existsb (N.eqb c) l.
Definition none_of (l : list char) : char -> bool :=
  fun c => negb (existsb (N.eqb c) l).
Definition digit : char -> bool := in_range (c_ "0") (c_ "9").
Definition letter : char -> bool :=
  fun c => in_range (c_ "a") (c_ "z") c || in_range (c_ "A") (c_ "Z") c.
(** [\w] *)
Definition word : char -> bool :=
  fun c => letter c || digit c || (c =? c_ "_").
(** [.] *)
Definition dot : char -> bool := fun c => negb (is_line_terminator c).

Fixpoint seq_of (rs : list regex) (last : regex) : regex :=
  match rs with
  | [] => last
  | r :: rs' => RSeq r (seq_of rs' last)
  end.

End Regex.
Export Regex.

(** ** Output sanitizer and line classifier: the pure methods *)

Module Lines.

Definition ESC : char := 0x1B.
Definition BEL : char := 0x07.
Definition BS : char := 0x08.
Definition DEL : char := 0x7F.
Definition TAB : char := 0x09.
Definition LF : char := 0x0A.
Definition CR : char := 0x0D.
Definition SP : char := 0x20.

(** [/\x1b\[[0-9;]*[a-zA-Z]/g] *)
Definition re_csi : regex :=
  seq_of [RChar (lit ESC); RChar (lit (c_ "["));
          RStar (fun c => digit c || (c =? c_ ";"))]
         (RChar letter).

(** [/\x1b\][0-9]*;[^\x07]*\x07/g] *)
Definition re_osc : regex :=
  seq_of [RChar (lit ESC); RChar (lit (c_ "]")); RStar digit;
          RChar (lit (c_ ";")); RStar (none_of [BEL])]
         (RChar (lit BEL)).

(** [/\x1b[=>]/g] *)
Definition re_keypad : regex :=
  RSeq (RChar (lit ESC)) (RChar (any_of [c_ "="; c_ ">"])).

(** [/[\x08\x7f]/g] *)
Definition re_erase : regex := RChar (any_of [BS; DEL]).

(** [/\r\n/g] *)
Definition re_crlf : regex := RSeq (RChar (lit CR)) (RChar (lit LF)).

(** [/\r/g] *)
Definition re_cr : regex := RChar (lit CR).

(** [/\x07/g] *)
Definition re_bel : regex := RChar (lit BEL).

(** [[\x00-\x08\x0B-\x0C\x0E-\x1F\x7F]] *)
Definition cls_control (c : char) : bool :=
  in_range 0x00 0x08 c || in_range 0x0B 0x0C c || in_range 0x0E 0x1F c
  || (c =? 0x7F).

Definition re_control : regex := RChar cls_control.

(** [/[ \t]+/g] *)
Definition cls_blank : char -> bool := any_of [SP; TAB].

Definition re_blanks : regex := RPlus cls_blank.

(** [/ +$/gm] *)
Definition re_trailing : regex := RSeq (RPlus (lit SP)) REol.

(** [stripAnsiCodes(text)]: the ten replacements, in the script's order. *)
Definition stripAnsiCodes (text : jsstring) : jsstring :=
  let t1 := replace false re_csi [] text in
  let t2 := replace false re_osc [] t1 in
  let t3 := replace false re_keypad [] t2 in
  let t4 := replace false re_erase [] t3 in
  let t5 := replace false re_crlf [LF] t4 in
  let t6 := replace false re_cr [] t5 in
  let t7 := replace false re_bel [] t6 in
  let t8 := replace false re_control [] t7 in
  let t9 := replace false re_blanks [SP] t8 in
  replace true re_trailing [] t9.

(** The host name the prompt heuristics are tuned for. *)
Definition host_tag : jsstring := js "web-h-063@web-h-063".

Definition cls_sigil : char -> bool := any_of [c_ "$"; c_ "#"].

(** [/[@$#]\s*$/] *)
Definition re_prompt_end : regex :=
  seq_of [RChar (any_of [c_ "@"; c_ "$"; c_ "#"]); RStar is_space] REol.

(** [/^\w+@\w+.*[$#]\s*$/] *)
Definition re_prompt_user : regex :=
  seq_of [RBol; RPlus word; RChar (lit (c_ "@")); RPlus word; RStar dot;
          RChar cls_sigil; RStar is_space]
         REol.

(** [isPromptLine(line)] *)
Definition isPromptLine (line : jsstring) : bool :=
  test false re_prompt_end line
  || test false re_prompt_user line
  || includes line host_tag.

(** [isPasswordPrompt(line)] *)
Definition isPasswordPrompt (line : jsstring) : bool :=
  includes (toLowerCase line) (js "password")
  || includes line (js "[sudo]")
  || includes line (js "Password:").

(** [/:([^$#]+)[$#]/] *)
Definition re_dir : regex :=
  seq_of [RChar (lit (c_ ":"));
          RGroup (RPlus (none_of [c_ "$"; c_ "#"]))]
         (RChar cls_sigil).

(** [/~/g] *)
Definition re_tilde : regex := RChar (lit (c_ "~")).

(** [formatPrompt(line)] *)
Definition formatPrompt (line : jsstring) : jsstring :=
  if includes line host_tag then
    match match_ false re_dir line with
    | Some (_, Some g1) =>
        let dir := replace false re_tilde (js "~") g1 in
        let symbol := if includes line (js "#") then js "#" else js "$" in
        dir ++ symbol
    | _ => line
    end
  else line.

End Lines.
Export Lines.

(** ** The page and the Terminal object *)

Module Client.

(** What an output line holds: [textContent] or [innerHTML]. *)
Inductive body : Type :=
| TextContent (s : jsstring)
| InnerHTML (s : jsstring).

(** A [div] appended to the output element. *)
Record element : Type := Element {
  className : jsstring;
  content : body;
  style_height : option jsstring;
  style_fontWeight : option jsstring
}.

Inductive readyState : Type := CONNECTING | OPEN | CLOSING | CLOSED.

(** The objects given to [socket.send], before [JSON.stringify]. *)
Inductive frame : Type :=
| CommandFrame (command : jsstring)
| InputFrame (data : jsstring)
| ResizeFrame (cols rows : Z).

(** Modelled from the spec: the types of the fields of a server message.
    The script reads them untyped from the parsed JSON and the server that
    writes them is not among the sources; they are typed here as in the
    protocol table (strings, booleans).  These are the fields an [output]
    message may carry; [None] is an absent field. *)
Record output_message : Type := OutputMessage {
  m_output : option jsstring;
  m_success : option bool;
  m_cwd : option jsstring;
  m_interactive : option bool;
  m_suggest_interactive : option bool;
  m_clear_screen : option bool;
  m_command : option jsstring
}.

(** Modelled from the spec: a parsed server message, by its [type], with the
    fields of the protocol table ([Unknown] is any other type). *)
Inductive message : Type :=
| Prompt (cwd : jsstring) (message : jsstring)
| Output (o : output_message)
| ShellOutput (output : option jsstring)
| Unknown (type : jsstring).

(** The elements of the page the object holds on to. *)
Record Page : Type := MkPage {
  output : list element;                        (* children of #output *)
  input_value : jsstring;                       (* #command-input *)
  input_placeholder : jsstring;
  prompt_text : jsstring;                       (* #prompt *)
  status_text : jsstring;                       (* #connection-status *)
  status_class : jsstring;                      (* its parent's class *)
  directory_text : jsstring;                    (* #current-directory *)
  mode_indicator : option (jsstring * jsstring) (* text and colour, if any *)
}.

(** The fields of [Terminal], the page, and the frames sent so far. *)
Record Terminal : Type := MkTerminal {
  socket : option readyState;
  page : Page;
  commandHistory : list jsstring;
  historyIndex : Z;
  currentDirectory : jsstring;
  interactiveMode : bool;
  currentLine : jsstring;
  sent : list frame
}.

Definition set_output (v : list element) (t : Terminal) : Terminal :=
  let p := page t in
  MkTerminal (socket t)
    (MkPage v (input_value p) (input_placeholder p) (prompt_text p)
       (status_text p) (status_class p) (directory_text p) (mode_indicator p))
    (commandHistory t) (historyIndex t) (currentDirectory t)
    (interactiveMode t) (currentLine t) (sent t).

Definition set_input_value (v : jsstring) (t : Terminal) : Terminal :=
  let p := page t in
  MkTerminal (socket t)
    (MkPage (output p) v (input_placeholder p) (prompt_text p)
       (status_text p) (status_class p) (directory_text p) (mode_indicator p))
    (commandHistory t) (historyIndex t) (currentDirectory t)
    (interactiveMode t) (currentLine t) (sent t).

Definition set_input_placeholder (v : jsstring) (t : Terminal) : Terminal :=
  let p := page t in
  MkTerminal (socket t)
    (MkPage (output p) (input_value p) v (prompt_text p)
       (status_text p) (status_class p) (directory_text p) (mode_indicator p))
    (commandHistory t) (historyIndex t) (currentDirectory t)
    (interactiveMode t) (currentLine t) (sent t).

Definition set_prompt_text (v : jsstring) (t : Terminal) : Terminal :=
  let p := page t in
  MkTerminal (socket t)
    (MkPage (output p) (input_value p) (input_placeholder p) v
       (status_text p) (status_class p) (directory_text p) (mode_indicator p))
    (commandHistory t) (historyIndex t) (currentDirectory t)
    (interactiveMode t) (currentLine t) (sent t).

Definition set_status (text cls : jsstring) (t : Terminal) : Terminal :=
  let p := page t in
  MkTerminal (socket t)
    (MkPage (output p) (input_value p) (input_placeholder p) (prompt_text p)
       text cls (directory_text p) (mode_indicator p))
    (commandHistory t) (historyIndex t) (currentDirectory t)
    (interactiveMode t) (currentLine t) (sent t).

Definition set_directory_text (v : jsstring) (t : Terminal) : Terminal :=
  let p := page t in
  MkTerminal (socket t)
    (MkPage (output p) (input_value p) (input_placeholder p) (prompt_text p)
       (status_text p) (status_class p) v (mode_indicator p))
    (commandHistory t) (historyIndex t) (currentDirectory t)
    (interactiveMode t) (currentLine t) (sent t).

Definition set_mode_indicator (v : option (jsstring * jsstring))
    (t : Terminal) : Terminal :=
  let p := page t in
  MkTerminal (socket t)
    (MkPage (output p) (input_value p) (input_placeholder p) (prompt_text p)
       (status_text p) (status_class p) (directory_text p) v)
    (commandHistory t) (historyIndex t) (currentDirectory t)
    (interactiveMode t) (currentLine t) (sent t).

Definition set_socket (v : option readyState) (t : Terminal) : Terminal :=
  MkTerminal v (page t) (commandHistory t) (historyIndex t)
    (currentDirectory t) (interactiveMode t) (currentLine t) (sent t).

Definition set_commandHistory (v : list jsstring) (t : Terminal) : Terminal :=
  MkTerminal (socket t) (page t) v (historyIndex t)
    (currentDirectory t) (interactiveMode t) (currentLine t) (sent t).

Definition set_historyIndex (v : Z) (t : Terminal) : Terminal :=
  MkTerminal (socket t) (page t) (commandHistory t) v
    (currentDirectory t) (interactiveMode t) (currentLine t) (sent t).

Definition set_currentDirectory (v : jsstring) (t : Terminal) : Terminal :=
  MkTerminal (socket t) (page t) (commandHistory t) (historyIndex t)
    v (interactiveMode t) (currentLine t) (sent t).

Definition set_interactiveMode (v : bool) (t : Terminal) : Terminal :=
  MkTerminal (socket t) (page t) (commandHistory t) (historyIndex t)
    (currentDirectory t) v (currentLine t) (sent t).

(** [socket.send(JSON.stringify(f))] *)
Definition send (f : frame) (t : Terminal) : Terminal :=
  MkTerminal (socket t) (page t) (commandHistory t) (historyIndex t)
    (currentDirectory t) (interactiveMode t) (currentLine t) (sent t ++ [f]).

(** [this.socket && this.socket.readyState === WebSocket.OPEN] *)
Definition socket_open (t : Terminal) : bool :=
  match socket t with
  | Some OPEN => true
  | _ => false
  end.

(** *** Uncaught exceptions

    [getShortPath] reads the global [process].  Where the host defines none,
    the read throws; nothing in the script catches it, so the handler that
    was running ends there, with the writes it had made. *)

Inductive jserror : Type :=
| ReferenceError (name : jsstring).

Inductive completion (A : Type) : Type :=
| Normal (a : A)
| Throw (e : jserror).
Arguments Normal {A} a.
Arguments Throw {A} e.

Definition M (A : Type) : Type := Terminal -> completion A * Terminal.

Definition ret {A : Type} (a : A) : M A := fun t => (Normal a, t).

Definition bind {A B : Type} (c : M A) (f : A -> M B) : M B :=
  fun t =>
    match c t with
    | (Normal a, t') => f a t'
    | (Throw e, t') => (Throw e, t')
    end.

(** A method that cannot throw. *)
Definition run (f : Terminal -> Terminal) : M unit := fun t => (Normal tt, f t).

Definition when (b : bool) (c : M unit) : M unit := if b then c else ret tt.

Notation "c1 ;; c2" := (bind c1 (fun _ => c2))
  (at level 61, right associativity).

(** The global scope of the host: [None] where [process] is not defined (a
    browser page), [Some u] where [process.env.USER] evaluates to [u]
    ([None] for [undefined]). *)
Record Host : Type := MkHost {
  process_env_USER : option (option jsstring)
}.

Definition browser : Host := MkHost None.

(** *** Methods *)

(** [updateStatus(status, type)] *)
Definition updateStatus (status type : jsstring) (t : Terminal) : Terminal :=
  set_status status (js "status-bar status-" ++ type) t.

(** [/^\s+|\s+$/g] *)
Definition re_trim : regex :=
  RAlt (RSeq RBol (RPlus is_space)) (RSeq (RPlus is_space) REol).

(** [addFormattedOutput(text, className)] *)
Definition addFormattedOutput (text className : jsstring) (t : Terminal)
    : Terminal :=
  let cls := js "output-line " ++ className in
  let line :=
    if str_eqb className (js "raw-output") then
      let cleanText := replace false re_trim [] text in
      if truthy cleanText then Element cls (TextContent cleanText) None None
      else Element cls (InnerHTML (js "&nbsp;")) (Some (js "0.5em")) None
    else if str_eqb className (js "shell-prompt") then
      Element cls (TextContent text) None (Some (js "bold"))
    else if str_eqb className (js "password-prompt") then
      Element cls (TextContent text) None None
    else
      Element cls (TextContent text) None None in
  set_output (output (page t) ++ [line]) t.

(** [addOutput(text, className)] *)
Definition addOutput (text className : jsstring) (t : Terminal) : Terminal :=
  addFormattedOutput text className t.

(** [getPromptText()] *)
Definition getPromptText (t : Terminal) : jsstring :=
  prompt_text (page t) ++ js " ".

(** [clear()] *)
Definition clear (t : Terminal) : Terminal := set_output [] t.

(** [getShortPath(path)]; [None] is a missing argument. *)
Definition getShortPath (h : Host) (path : option jsstring)
    : completion jsstring :=
  match path with
  | None => Normal (js "~")
  | Some path =>
      if negb (truthy path) then Normal (js "~")
      else
        match process_env_USER h with
        | None => Throw (ReferenceError (js "process"))
        | Some user =>
            let name :=
              match user with
              | Some u => if truthy u then u else js "user"
              | None => js "user"
              end in
            let home := js "/home/" ++ name in
            if startsWith path home then
              Normal (js "~" ++ substring path (length home))
            else
              let parts := split (c_ "/") path in
              if (3 <? length parts)%nat then
                Normal (js ".../" ++ join (js "/") (slice_last 2 parts))
              else Normal path
        end
  end.

(** [updatePrompt()] *)
Definition updatePrompt (h : Host) : M unit :=
  fun t =>
    if negb (interactiveMode t) then
      match getShortPath h (Some (currentDirectory t)) with
      | Normal shortPath =>
          (Normal tt,
           set_directory_text (currentDirectory t)
             (set_prompt_text (shortPath ++ js "$") t))
      | Throw e => (Throw e, t)
      end
    else (Normal tt, t).

(** The [.mode-indicator] element is written only if the page has one. *)
Definition write_mode_indicator (text color : jsstring) (t : Terminal)
    : Terminal :=
  match mode_indicator (page t) with
  | Some _ => set_mode_indicator (Some (text, color)) t
  | None => t
  end.

(** [updatePromptForMode()] *)
Definition updatePromptForMode (h : Host) : M unit :=
  fun t =>
    if interactiveMode t then
      (run (set_input_placeholder
              (js "Interactive shell mode - type commands or input...")) ;;
       run (set_prompt_text (js ">")) ;;
       run (write_mode_indicator
              (js "Interactive Mode | Type " ++ quoted (js "exit")
               ++ js " to return to normal mode")
              (js "#4ec9b0"))) t
    else
      (run (set_input_placeholder (js "Type commands here...")) ;;
       updatePrompt h ;;
       run (write_mode_indicator
              (js "Normal Mode | Type " ++ quoted (js "interactive")
               ++ js " for interactive shell")
              (js "rgba(255,255,255,0.8)"))) t.

(** [executeCommand()] *)
Definition executeCommand (t : Terminal) : Terminal :=
  let command := trim (input_value (page t)) in
  if negb (truthy command) then t
  else
    let t1 :=
      if negb (interactiveMode t) then
        let ta := set_commandHistory (commandHistory t ++ [command]) t in
        let tb := set_historyIndex (Z.of_nat (length (commandHistory ta))) ta in
        addOutput (getPromptText tb ++ command) (js "command-line") tb
      else t in
    let t2 :=
      if socket_open t1 then send (CommandFrame command) t1
      else addOutput (js "Not connected to server") (js "error-text") t1 in
    set_input_value [] t2.

(** [sendInputToShell()] *)
Definition sendInputToShell (t : Terminal) : Terminal :=
  let input := input_value (page t) in
  let t1 :=
    if truthy (trim input) then addFormattedOutput input (js "user-input") t
    else t in
  let t2 :=
    if socket_open t1 then send (InputFrame (input ++ [LF])) t1 else t1 in
  set_input_value [] t2.

(** [sendTerminalResize()], for the size of the output element's box. *)
Definition sendTerminalResize (width height : Q) (t : Terminal) : Terminal :=
  let charWidth := 8%Q in
  let charHeight := 16%Q in
  let cols := Qfloor (width / charWidth) in
  let rows := Qfloor (height / charHeight) in
  if socket_open t then send (ResizeFrame cols rows) t else t.

(** [processTerminalLine(line, isLastLine)] *)
Definition processTerminalLine (line : jsstring) (isLastLine : bool)
    (t : Terminal) : Terminal :=
  let cleanLine := trim line in
  if negb (truthy cleanLine) && negb isLastLine then t
  else if isPromptLine cleanLine then
    addFormattedOutput (formatPrompt cleanLine) (js "shell-prompt") t
  else if isPasswordPrompt cleanLine then
    addFormattedOutput cleanLine (js "password-prompt") t
  else if truthy cleanLine then
    addFormattedOutput cleanLine (js "raw-output") t
  else t.

(** The body of the loop of [addRawOutput], at index [i] of [n] lines. *)
Definition addRawOutput_body (text : jsstring) (n i : nat) (line : jsstring)
    (t : Terminal) : Terminal :=
  if str_eqb (trim line) [] && negb (i =? n - 1)%nat then
    addFormattedOutput [] (js "raw-output") t
  else
    processTerminalLine line
      ((i =? n - 1)%nat && negb (endsWith text [LF])) t.

Fixpoint addRawOutput_loop (text : jsstring) (n i : nat)
    (lines : list jsstring) (t : Terminal) : Terminal :=
  match lines with
  | [] => t
  | line :: rest =>
      addRawOutput_loop text n (S i) rest (addRawOutput_body text n i line t)
  end.

(** [addRawOutput(text)] *)
Definition addRawOutput (text : jsstring) (t : Terminal) : Terminal :=
  let cleanText := stripAnsiCodes text in
  let lines := split LF cleanText in
  addRawOutput_loop text (length lines) 0 lines t.

(** A field in a condition. *)
Definition flag (b : option bool) : bool :=
  match b with Some true => true | _ => false end.

Definition present (s : option jsstring) : bool :=
  match s with Some s => truthy s | None => false end.

(** A field in a template literal. *)
Definition template (s : option jsstring) : jsstring :=
  match s with Some s => s | None => js "undefined" end.

(** [message.command !== 'clear'] *)
Definition is_not_clear (c : option jsstring) : bool :=
  match c with Some c => negb (str_eqb c (js "clear")) | None => true end.

(** [handleMessage(message)] *)
Definition handleMessage (h : Host) (msg : message) : M unit :=
  match msg with
  | Prompt cwd text =>
      run (set_currentDirectory cwd) ;;
      updatePrompt h ;;
      run (addOutput text (js "success-text"))
  | Output o =>
      match m_interactive o with
      | Some b => run (set_interactiveMode b) ;; updatePromptForMode h
      | None => ret tt
      end ;;
      (if flag (m_clear_screen o) then
         run clear ;;
         when (is_not_clear (m_command o))
           (fun t =>
              run (addOutput (getPromptText t ++ template (m_command o))
                     (js "command-line")) t)
       else
         when (present (m_output o))
           (let className :=
              if flag (m_success o) then js "output-text"
              else js "error-text" in
            let className :=
              if flag (m_suggest_interactive o) then js "warning-text"
              else className in
            run (addOutput (template (m_output o)) className))) ;;
      when (present (m_cwd o))
        (run (set_currentDirectory (template (m_cwd o))) ;;
         updatePrompt h)
  | ShellOutput out =>
      when (present out) (run (addRawOutput (template out)))
  | Unknown _ => ret tt
  end.

(** [this.commandHistory[i] || ''] *)
Definition history_at (t : Terminal) (i : Z) : jsstring :=
  if (i <? 0)%Z then [] else nth (Z.to_nat i) (commandHistory t) [].

(** [navigateHistory(direction)] *)
Definition navigateHistory (direction : Z) (t : Terminal) : Terminal :=
  if (length (commandHistory t) =? 0)%nat then t
  else
    let t1 := set_historyIndex (historyIndex t + direction) t in
    let len := Z.of_nat (length (commandHistory t1)) in
    if (historyIndex t1 <? 0)%Z then
      let t2 := set_historyIndex 0 t1 in
      set_input_value (history_at t2 (historyIndex t2)) t2
    else if (historyIndex t1 >=? len)%Z then
      set_input_value [] (set_historyIndex len t1)
    else
      set_input_value (history_at t1 (historyIndex t1)) t1.

(** [connect()]: the new socket is still connecting. *)
Definition connect (t : Terminal) : Terminal :=
  set_socket (Some CONNECTING)
    (updateStatus (js "Connecting...") (js "connecting") t).

(** [disconnect()]: closing a socket that is closed already does nothing. *)
Definition disconnect (t : Terminal) : Terminal :=
  match socket t with
  | Some CLOSED => t
  | Some _ => set_socket (Some CLOSING) t
  | None => t
  end.

(** [new Terminal()], on a page as loaded. *)
Definition constructor (p : Page) : Terminal :=
  connect (MkTerminal None p [] (-1) [] false [] []).

(** *** Events *)

Inductive event : Type :=
| KeyDown (key : jsstring) (ctrlKey : bool)
| Edit (value : jsstring)              (* the user changes the input's text *)
| Resize (width height : Q)
| SocketOpen
| SocketMessage (msg : message)
| SocketClose
| SocketError
| ClearButton                          (* clearTerminal() *)
| ToggleButton.                        (* toggleConnection() *)

(** The [keydown] listener. *)
Definition onKeyDown (key : jsstring) (ctrlKey : bool) (t : Terminal)
    : Terminal :=
  if str_eqb key (js "Enter") then
    if interactiveMode t then sendInputToShell t else executeCommand t
  else if str_eqb key (js "ArrowUp") && negb (interactiveMode t) then
    navigateHistory (-1) t
  else if str_eqb key (js "ArrowDown") && negb (interactiveMode t) then
    navigateHistory 1 t
  else if str_eqb key (js "Tab") then t
  else t.

(** The listener of an event, as a computation that may throw.  The socket's
    [readyState] is the browser's: open when [onopen] runs, closed when
    [onclose] runs.  A message event starts from the parsed message:
    [JSON.parse] of the frame, which throws on a text that is not JSON, comes
    before it and is not part of it.  There is one socket at a time: the
    events of a socket that a later [connect] has replaced are not told
    apart from those of the current one. *)
Definition handle (h : Host) (ev : event) : M unit :=
  match ev with
  | KeyDown key ctrlKey => run (onKeyDown key ctrlKey)
  | Edit value => run (set_input_value value)
  | Resize width height =>
      fun t =>
        if interactiveMode t then run (sendTerminalResize width height) t
        else ret tt t
  | SocketOpen =>
      run (set_socket (Some OPEN)) ;;
      run (updateStatus (js "Connected") (js "connected")) ;;
      run (addOutput (js "Connected to FastAPI Terminal") (js "success-text"))
  | SocketMessage msg => handleMessage h msg
  | SocketClose =>
      run (set_socket (Some CLOSED)) ;;
      run (updateStatus (js "Disconnected") (js "disconnected")) ;;
      run (addOutput (js "Connection closed") (js "error-text"))
  | SocketError =>
      run (updateStatus (js "Error") (js "disconnected")) ;;
      run (addOutput (js "Connection error occurred") (js "error-text"))
  | ClearButton => run clear
  | ToggleButton =>
      fun t => if socket_open t then run disconnect t else run connect t
  end.

(** The object after an event: an exception ends the listener, the writes
    made before it stay. *)
Definition step (h : Host) (t : Terminal) (ev : event) : Terminal :=
  snd (handle h ev t).

Definition steps (h : Host) (t : Terminal) (evs : list event) : Terminal :=
  fold_left (step h) evs t.

(** The states the object can be in: after any events, on any page. *)
Inductive reachable (h : Host) : Terminal -> Prop :=
| reach_new (p : Page) : reachable h (constructor p)
| reach_step (t : Terminal) (ev : event) :
    reachable h t -> reachable h (step h t ev).

End Client.
Export Client.

(** * Vocabulary of the properties *)

Module Notions.

(** The history, its cursor and the mode. *)
Definition core (t : Terminal) : list jsstring * Z * bool :=
  (commandHistory t, historyIndex t, interactiveMode t).

(** A computation that leaves them as they are, whether it throws or not. *)
Definition keeps {A : Type} (c : M A) : Prop :=
  forall t, core (snd (c t)) = core t.

(** The mode after a message: an [output] message with the flag sets it. *)
Definition mode_after (msg : message) (t : Terminal) : bool :=
  match msg with
  | Output o =>
      match m_interactive o with
      | Some b => b
      | None => interactiveMode t
      end
  | _ => interactiveMode t
  end.

Definition Enter : event := KeyDown (js "Enter") false.
Definition ArrowUp : event := KeyDown (js "ArrowUp") false.
Definition ArrowDown : event := KeyDown (js "ArrowDown") false.

Definition cursor_len (t : Terminal) : Z :=
  Z.of_nat (length (commandHistory t)).

(** The cursor is the initial [-1] of an empty history or lies within the
    history. *)
Definition cursor_ok (t : Terminal) : Prop :=
  (commandHistory t = [] /\ historyIndex t = (-1)%Z)
  \/ (commandHistory t <> [] /\ (0 <= historyIndex t <= cursor_len t)%Z).

(** A page with nothing on it but the prompt sign. *)
Definition bare_page : Page := MkPage [] [] [] (js "$") [] [] [] None.

Definition history3 : list jsstring := [js "ls"; js "pwd"; js "cd /tmp"].

(** The object after the three commands were typed and entered. *)
Definition typed3 : Terminal :=
  steps browser (constructor bare_page)
    [Edit (js "ls"); Enter; Edit (js "pwd"); Enter; Edit (js "cd /tmp"); Enter].

(** The cursor and the input's text after a run of keys. *)
Definition walk (h : Host) (t : Terminal) (evs : list event) : Z * jsstring :=
  let t' := steps h t evs in (historyIndex t', input_value (page t')).

(** The server reply that turns the interactive shell on. *)
Definition interactive_on : message :=
  Output (OutputMessage (Some (js "Interactive shell started")) (Some true)
            None (Some true) None None None).

(** The line that shows a command after the prompt. *)
Definition command_line (prompt command : jsstring) : element :=
  Element (js "output-line command-line")
    (TextContent (prompt ++ js " " ++ command)) None None.

(** The length of the longest prefix within a class. *)
Fixpoint span_len (p : char -> bool) (s : jsstring) : nat :=
  match s with
  | c :: s' => if p c then S (span_len p s') else O
  | [] => O
  end.

(** Where the end-of-line assertion holds under the [m] flag. *)
Definition at_eol (s : jsstring) : bool :=
  match s with
  | [] => true
  | c :: _ => is_line_terminator c
  end.

Definition eol_k (st : mstate) : option mstate :=
  rmatch true REol st Some.

(** A pattern that needs a first unit of class [p]. *)
Definition starts_in (ml : bool) (r : regex) (p : char -> bool) : Prop :=
  forall pv s,
    exec_at ml r pv s <> None ->
    exists c s', s = c :: s' /\ p c = true.

(** What the ninth replacement computes: a run of spaces and tabs becomes
    one space ([inrun]: the unit before was part of a run). *)
Fixpoint collapse (inrun : bool) (s : jsstring) : jsstring :=
  match s with
  | [] => []
  | c :: s' =>
      if cls_blank c then
        if inrun then collapse true s' else SP :: collapse true s'
      else c :: collapse false s'
  end.

(** What the tenth computes: spaces that reach the end of a line go. *)
Fixpoint strip_trailing (s : jsstring) : jsstring :=
  match s with
  | [] => []
  | c :: s' =>
      if lit SP c && at_eol (skipn (span_len (lit SP) s') s')
      then strip_trailing s'
      else c :: strip_trailing s'
  end.

(** A unit the sanitizer lets through: not in the class of the eighth
    replacement, not a carriage return, not a tab. *)
Definition unit_ok (c : char) : bool :=
  negb (cls_control c) && negb (c =? CR) && negb (c =? TAB).

(** Every space stands alone. *)
Fixpoint single (s : jsstring) : bool :=
  match s with
  | [] => true
  | c :: s' =>
      (if c =? SP
       then match s' with d :: _ => negb (d =? SP) | [] => true end
       else true)
      && single s'
  end.

(** Every space stands alone and inside a line. *)
Fixpoint spaced (s : jsstring) : bool :=
  match s with
  | [] => true
  | c :: s' =>
      (if c =? SP
       then match s' with
            | d :: _ => negb (d =? SP) && negb (is_line_terminator d)
            | [] => false
            end
       else true)
      && spaced s'
  end.

(** The unit before the position once [u] has been passed. *)
Definition prev_after (pv : option char) (u : jsstring) : option char :=
  fold_left (fun _ c => Some c) u pv.

Definition prompt_line : jsstring := js "user@host:~/project$ ".

(** A prompt line as it is shown: in bold, under the class of prompts. *)
Definition prompt_element (text : jsstring) : element :=
  Element (js "output-line shell-prompt") (TextContent text) None
    (Some (js "bold")).

(** The spacer shown for a blank line. *)
Definition spacer : element :=
  Element (js "output-line raw-output") (InnerHTML (js "&nbsp;"))
    (Some (js "0.5em")) None.



(** Every ':' of [s] has a '$' or a '#' right after it, in [s]. *)
Fixpoint colons_blocked (s : jsstring) : bool :=
  match s with
  | [] => true
  | c :: s' =>
      (if lit (c_ ":") c
       then match s' with d :: _ => cls_sigil d | [] => false end
       else true)
      && colons_blocked s'
  end.

(** [line] is [pre], a ':', the directory [dir], the sign [sg] and [post]:
    the directory is not empty and holds no sign. *)
Definition prompt_parts (line pre dir : jsstring) (sg : char)
    (post : jsstring) : Prop :=
  line = pre ++ c_ ":" :: dir ++ sg :: post
  /\ dir <> []
  /\ Forall (fun c => c <> c_ "$" /\ c <> c_ "#") dir
  /\ (sg = c_ "$" \/ sg = c_ "#").

(** [prompt] is what the prompt element shows once the mode flag of an
    [output] message has been handled to the end: what it showed before if
    the message has no flag, ">" in Interactive mode, the short path and "$"
    in Normal mode. *)
Definition prompt_shown (h : Host) (o : output_message) (t : Terminal)
    (prompt : jsstring) : Prop :=
  match m_interactive o with
  | None => prompt = prompt_text (page t)
  | Some true => prompt = js ">"
  | Some false =>
      exists shortPath,
        getShortPath h (Some (currentDirectory t)) = Normal shortPath
        /\ prompt = shortPath ++ js "$"
  end.

(** A state with a line on the screen and a directory known. *)
Definition in_srv : Terminal :=
  steps browser (constructor bare_page)
    [SocketOpen; SocketMessage (Prompt (js "/srv") (js "Welcome"))].

(** The reply to [clear]: as the session sends it, and with the flag of
    Normal mode. *)
Definition clear_plain : output_message :=
  OutputMessage None None None None None (Some true) (Some (js "clear")).

Definition clear_normal : output_message :=
  OutputMessage None (Some true) None (Some false) None (Some true)
    (Some (js "clear")).

End Notions.
Export Notions.

(** * Vocabulary of the further properties *)

Module Further.

(** The object with another page. *)
Definition with_page (p : Page) (t : Terminal) : Terminal :=
  MkTerminal (socket t) p (commandHistory t) (historyIndex t)
    (currentDirectory t) (interactiveMode t) (currentLine t) (sent t).

(** The object with more lines in the output element. *)
Definition appends (l : list element) (t : Terminal) : Terminal :=
  set_output (output (page t) ++ l) t.

(** A function of the object that does not look at the page. *)
Definition page_blind {B : Type} (f : Terminal -> B) : Prop :=
  forall p t, f (with_page p t) = f t.

(** A method that writes to the page only. *)
Definition paints (g : Terminal -> Terminal) : Prop :=
  forall t, exists p, g t = with_page p t.

(** A computation that leaves [f] as it is, whether it throws or not. *)
Definition stable {A B : Type} (f : Terminal -> B) (c : M A) : Prop :=
  forall t, f (snd (c t)) = f t.

(** The socket and the frames sent. *)
Definition wire (t : Terminal) : option readyState * list frame :=
  (socket t, sent t).

(** A line of the given class with the given text. *)
Definition text_line (cls text : jsstring) : element :=
  Element (js "output-line " ++ cls) (TextContent text) None None.

(** When the script sends a frame of each kind. *)
Definition frame_allowed (t : Terminal) (f : frame) : Prop :=
  socket_open t = true
  /\ match f with
     | CommandFrame _ => interactiveMode t = false
     | InputFrame _ => interactiveMode t = true
     | ResizeFrame _ _ => interactiveMode t = true
     end.

Definition is_SocketOpen (ev : event) : bool :=
  match ev with SocketOpen => true | _ => false end.

(** The mode and the directory: what [updatePrompt] looks at. *)
Definition md (t : Terminal) : bool * jsstring :=
  (interactiveMode t, currentDirectory t).

(** The exception [updatePrompt] ends with, if any, in a mode and a
    directory. *)
Definition prompt_faults (h : Host) (mode : bool) (cwd : jsstring)
    : option jserror :=
  if mode then None
  else match getShortPath h (Some cwd) with
       | Normal _ => None
       | Throw e => Some e
       end.

Definition outcome_of (e : option jserror) : completion unit :=
  match e with None => Normal tt | Some e => Throw e end.

(** The three parts of [handleMessage] for an [output] message: the mode
    flag, the screen, the directory. *)
Definition mode_part (h : Host) (o : output_message) : M unit :=
  match m_interactive o with
  | Some b => run (set_interactiveMode b) ;; updatePromptForMode h
  | None => ret tt
  end.

Definition screen_part (o : output_message) : M unit :=
  if flag (m_clear_screen o) then
    run clear ;;
    when (is_not_clear (m_command o))
      (fun t =>
         run (addOutput (getPromptText t ++ template (m_command o))
                (js "command-line")) t)
  else
    when (present (m_output o))
      (let className :=
         if flag (m_success o) then js "output-text"
         else js "error-text" in
       let className :=
         if flag (m_suggest_interactive o) then js "warning-text"
         else className in
       run (addOutput (template (m_output o)) className)).

Definition cwd_part (h : Host) (o : output_message) : M unit :=
  when (present (m_cwd o))
    (run (set_currentDirectory (template (m_cwd o))) ;; updatePrompt h).

(** The exception [handleMessage] ends with, if any. *)
Definition message_faults (h : Host) (msg : message) (t : Terminal)
    : option jserror :=
  match msg with
  | Prompt cwd _ => prompt_faults h (interactiveMode t) cwd
  | Output o =>
      let mode' := mode_after (Output o) t in
      match
        match m_interactive o with
        | Some _ => prompt_faults h mode' (currentDirectory t)
        | None => None
        end
      with
      | Some e => Some e
      | None =>
          if present (m_cwd o)
          then prompt_faults h mode' (template (m_cwd o))
          else None
      end
  | _ => None
  end.

(** The messages for which [handleMessage] throws on a page whose host has
    no [process]. *)
Definition throws_in_browser (msg : message) (t : Terminal) : bool :=
  match msg with
  | Prompt cwd _ => negb (interactiveMode t) && truthy cwd
  | Output o =>
      match m_interactive o with
      | Some true => false
      | Some false => truthy (currentDirectory t) || present (m_cwd o)
      | None => negb (interactiveMode t) && present (m_cwd o)
      end
  | _ => false
  end.

(** The lines of the output element. *)
Definition shown (t : Terminal) : list element := output (page t).

(** [l'] is [l] with more lines after it. *)
Definition extends {A : Type} (l l' : list A) : Prop :=
  exists k, l' = l ++ k.

(** The events that empty the output element. *)
Definition clears (ev : event) : bool :=
  match ev with
  | ClearButton => true
  | SocketMessage (Output o) => flag (m_clear_screen o)
  | _ => false
  end.

(** Without the whitespace at its end. *)
Fixpoint rstrip (s : jsstring) : jsstring :=
  match s with
  | [] => []
  | c :: s' =>
      if is_space c && forallb is_space s' then [] else c :: rstrip s'
  end.

Definition end_k (st : mstate) : option mstate := rmatch false REol st Some.

(** A parameter unit of a control sequence: a digit or a semicolon. *)
Definition cls_param (c : char) : bool := digit c || (c =? c_ ";").

(** What follows [k] when [k] is a unit of a given class. *)
Definition char_k (q : char -> bool) (st : mstate) : option mstate :=
  rmatch false (RChar q) st Some.

(** [process.env.USER || 'user'] *)
Definition user_name (user : option jsstring) : jsstring :=
  match user with
  | Some u => if truthy u then u else js "user"
  | None => js "user"
  end.

End Further.
Export Further.

(** * Properties *)

(** ** What a listener leaves untouched *)

Section Frame.

Lemma keeps_ret {A : Type} (a : A) : keeps (ret a).
Proof. intro t. reflexivity. Qed.

Lemma keeps_run (f : Terminal -> Terminal) :
  (forall t, core (f t) = core t) -> keeps (run f).
Proof. intros Hf t. apply Hf. Qed.

Lemma core_bind {A B : Type} (c : M A) (f : A -> M B) (t : Terminal) :
  (forall a, keeps (f a)) -> core (snd (bind c f t)) = core (snd (c t)).
Proof.
  intros Hf. unfold bind. destruct (c t) as [[a | e] t']; simpl.
  - apply Hf.
  - reflexivity.
Qed.

Lemma keeps_bind {A B : Type} (c : M A) (f : A -> M B) :
  keeps c -> (forall a, keeps (f a)) -> keeps (bind c f).
Proof. intros Hc Hf t. rewrite core_bind by assumption. apply Hc. Qed.

Lemma keeps_when (b : bool) (c : M unit) : keeps c -> keeps (when b c).
Proof. intros Hc. destruct b; simpl; [assumption | apply keeps_ret]. Qed.

Lemma core_addOutput text cls t : core (addOutput text cls t) = core t.
Proof. reflexivity. Qed.

Lemma core_processTerminalLine line b t :
  core (processTerminalLine line b t) = core t.
Proof.
  unfold processTerminalLine.
  repeat match goal with
         | |- context [if ?c then _ else _] => destruct c
         end; reflexivity.
Qed.

Lemma core_addRawOutput_body text n i line t :
  core (addRawOutput_body text n i line t) = core t.
Proof.
  unfold addRawOutput_body.
  destruct (_ && _); [reflexivity | apply core_processTerminalLine].
Qed.

Lemma core_addRawOutput_loop text n lines :
  forall i t, core (addRawOutput_loop text n i lines t) = core t.
Proof.
  induction lines as [| line rest IH]; intros i t; simpl.
  - reflexivity.
  - rewrite IH. apply core_addRawOutput_body.
Qed.

Lemma core_addRawOutput text t : core (addRawOutput text t) = core t.
Proof. apply core_addRawOutput_loop. Qed.

Lemma keeps_updatePrompt h : keeps (updatePrompt h).
Proof.
  intro t. unfold updatePrompt.
  destruct (negb (interactiveMode t)); [| reflexivity].
  destruct (getShortPath h _); reflexivity.
Qed.

Lemma core_write_mode_indicator a b t :
  core (write_mode_indicator a b t) = core t.
Proof.
  unfold write_mode_indicator. destruct (mode_indicator _); reflexivity.
Qed.

Lemma keeps_updatePromptForMode h : keeps (updatePromptForMode h).
Proof.
  intro t. unfold updatePromptForMode.
  destruct (interactiveMode t) eqn:E.
  - repeat (apply keeps_bind; [| intros _]);
      apply keeps_run; intro; try reflexivity; apply core_write_mode_indicator.
  - apply keeps_bind; [apply keeps_run; reflexivity | intros _].
    apply keeps_bind; [apply keeps_updatePrompt | intros _].
    apply keeps_run. intro. apply core_write_mode_indicator.
Qed.

(** The part of [handleMessage] for an [output] message that comes after
    the mode flag. *)
Lemma keeps_output_tail h o :
  keeps
    ((if flag (m_clear_screen o) then
        run clear ;;
        when (is_not_clear (m_command o))
          (fun t =>
             run (addOutput (getPromptText t ++ template (m_command o))
                    (js "command-line")) t)
      else
        when (present (m_output o))
          (let className :=
             if flag (m_success o) then js "output-text"
             else js "error-text" in
           let className :=
             if flag (m_suggest_interactive o) then js "warning-text"
             else className in
           run (addOutput (template (m_output o)) className))) ;;
     when (present (m_cwd o))
       (run (set_currentDirectory (template (m_cwd o))) ;;
        updatePrompt h)).
Proof.
  apply keeps_bind.
  - destruct (flag (m_clear_screen o)).
    + apply keeps_bind; [apply keeps_run; reflexivity | intros _].
      apply keeps_when. intro t. reflexivity.
    + apply keeps_when. apply keeps_run. intro. apply core_addOutput.
  - intros _. apply keeps_when.
    apply keeps_bind; [apply keeps_run; reflexivity | intros _].
    apply keeps_updatePrompt.
Qed.

Lemma core_handleMessage h msg t :
  core (snd (handleMessage h msg t))
  = (commandHistory t, historyIndex t, mode_after msg t).
Proof.
  destruct msg as [cwd text | o | out | ty]; simpl.
  - change (core (snd (handleMessage h (Prompt cwd text) t)) = core t).
    revert t. unfold handleMessage.
    apply keeps_bind; [apply keeps_run; reflexivity | intros _].
    apply keeps_bind; [apply keeps_updatePrompt | intros _].
    apply keeps_run. intro. apply core_addOutput.
  - rewrite core_bind by (intros _; apply keeps_output_tail).
    destruct (m_interactive o) as [b |]; [| reflexivity].
    rewrite core_bind by (intros _; apply keeps_updatePromptForMode).
    reflexivity.
  - apply keeps_when. apply keeps_run. intro. apply core_addRawOutput.
  - reflexivity.
Qed.

End Frame.

(** ** History and mode *)

Section HistoryAndMode.

Lemma str_eqb_eq (a b : jsstring) : str_eqb a b = true <-> a = b.
Proof.
  revert b. induction a as [| x a IH]; intros [| y b]; simpl;
    try (split; [discriminate | discriminate]); try tauto.
  rewrite andb_true_iff, N.eqb_eq, IH. split.
  - intros [-> ->]. reflexivity.
  - intros E. injection E as -> ->. split; reflexivity.
Qed.

Lemma core_step h t ev :
  core (step h t ev)
  = match ev with
    | KeyDown key c => core (onKeyDown key c t)
    | SocketMessage msg => (commandHistory t, historyIndex t, mode_after msg t)
    | _ => core t
    end.
Proof.
  destruct ev; unfold step; simpl; try reflexivity.
  - destruct (interactiveMode t) eqn:E; simpl; [| reflexivity].
    unfold sendTerminalResize. cbv zeta.
    destruct (socket_open t); unfold core; simpl; rewrite ?E; reflexivity.
  - apply core_handleMessage.
  - destruct (socket_open t); simpl; [| reflexivity].
    unfold disconnect. destruct (socket t) as [[] |]; reflexivity.
Qed.

Lemma core_sendInputToShell t : core (sendInputToShell t) = core t.
Proof.
  unfold sendInputToShell.
  destruct (truthy (trim (input_value (page t))));
    cbv zeta; match goal with |- context [socket_open ?x] =>
      destruct (socket_open x) end; reflexivity.
Qed.

Lemma core_executeCommand t :
  core (executeCommand t)
  = if truthy (trim (input_value (page t))) && negb (interactiveMode t) then
      (commandHistory t ++ [trim (input_value (page t))],
       Z.of_nat (length (commandHistory t ++ [trim (input_value (page t))])),
       interactiveMode t)
    else core t.
Proof.
  unfold executeCommand.
  destruct (truthy (trim (input_value (page t)))); simpl; [| reflexivity].
  destruct (interactiveMode t) eqn:E; simpl;
    match goal with |- context [socket_open ?x] =>
      destruct (socket_open x) end; unfold core; simpl; rewrite ?E;
    reflexivity.
Qed.

Lemma mode_navigateHistory d t :
  commandHistory (navigateHistory d t) = commandHistory t
  /\ interactiveMode (navigateHistory d t) = interactiveMode t.
Proof.
  unfold navigateHistory.
  destruct (length (commandHistory t) =? 0)%nat; [split; reflexivity |].
  cbv zeta. simpl.
  destruct (historyIndex t + d <? 0)%Z; [split; reflexivity |].
  destruct (historyIndex t + d >=? _)%Z; split; reflexivity.
Qed.

(** What [navigateHistory] does when there is a history. *)
Lemma navigateHistory_spec d t :
  commandHistory t <> [] ->
  let i := (historyIndex t + d)%Z in
  let t' := navigateHistory d t in
  ((i < 0)%Z ->
     historyIndex t' = 0%Z
     /\ input_value (page t') = nth 0 (commandHistory t) [])
  /\ ((i >= cursor_len t)%Z ->
     historyIndex t' = cursor_len t /\ input_value (page t') = [])
  /\ ((0 <= i < cursor_len t)%Z ->
     historyIndex t' = i
     /\ input_value (page t') = nth (Z.to_nat i) (commandHistory t) []).
Proof.
  intros Hne i t'. subst i t'. unfold navigateHistory, cursor_len.
  destruct (commandHistory t) as [| c0 cs] eqn:Eh; [contradiction |].
  change (length (c0 :: cs) =? 0)%nat with false. cbv iota zeta.
  unfold history_at.
  cbn [historyIndex commandHistory set_historyIndex set_input_value page
       input_value].
  rewrite Eh.
  destruct (historyIndex t + d <? 0)%Z eqn:E1;
    [apply Z.ltb_lt in E1 | apply Z.ltb_ge in E1].
  - cbn [historyIndex commandHistory set_historyIndex set_input_value page
         input_value].
    rewrite ?Eh. repeat split; intros; try lia; reflexivity.
  - destruct (historyIndex t + d >=? Z.of_nat (length (c0 :: cs)))%Z eqn:E2;
      rewrite Z.geb_leb in E2;
      [apply Z.leb_le in E2 | apply Z.leb_gt in E2];
      cbn [historyIndex commandHistory set_historyIndex set_input_value page
           input_value];
      repeat split; intros; try lia; reflexivity.
Qed.

Lemma navigateHistory_empty d t :
  commandHistory t = [] -> navigateHistory d t = t.
Proof. intros E. unfold navigateHistory. rewrite E. reflexivity. Qed.

Lemma cursor_ok_core t t' : core t' = core t -> cursor_ok t -> cursor_ok t'.
Proof.
  unfold core, cursor_ok, cursor_len. intros E. injection E as E1 E2 _.
  rewrite E1, E2. tauto.
Qed.

Lemma cursor_ok_navigateHistory d t :
  cursor_ok t -> cursor_ok (navigateHistory d t).
Proof.
  intros H. destruct (commandHistory t) as [| c0 cs] eqn:Eh.
  - rewrite navigateHistory_empty by assumption. assumption.
  - assert (Hne : commandHistory t <> []) by (rewrite Eh; discriminate).
    pose proof (navigateHistory_spec d t Hne) as (Hlo & Hhi & Hmid).
    pose proof (mode_navigateHistory d t) as [Hh _].
    right. unfold cursor_len in *. rewrite Hh. split; [assumption |].
    destruct (Z_lt_dec (historyIndex t + d) 0) as [L | L].
    + destruct (Hlo L) as [-> _]. lia.
    + destruct (Z_ge_dec (historyIndex t + d)
                  (Z.of_nat (length (commandHistory t)))) as [G | G].
      * destruct (Hhi G) as [-> _]. lia.
      * destruct Hmid as [-> _]; lia.
Qed.

Lemma cursor_ok_executeCommand t : cursor_ok t -> cursor_ok (executeCommand t).
Proof.
  intros H. pose proof (core_executeCommand t) as E.
  destruct (_ && _).
  - right. unfold core, cursor_len in *. injection E as -> -> _.
    split; [| lia]. destruct (commandHistory t); discriminate.
  - exact (cursor_ok_core _ _ E H).
Qed.

Lemma cursor_ok_onKeyDown key c t : cursor_ok t -> cursor_ok (onKeyDown key c t).
Proof.
  intros H. unfold onKeyDown.
  destruct (str_eqb key (js "Enter")).
  - destruct (interactiveMode t).
    + exact (cursor_ok_core _ _ (core_sendInputToShell t) H).
    + apply cursor_ok_executeCommand, H.
  - destruct (_ && _); [apply cursor_ok_navigateHistory, H |].
    destruct (_ && _); [apply cursor_ok_navigateHistory, H |].
    destruct (str_eqb key (js "Tab")); assumption.
Qed.

Lemma cursor_ok_step h t ev : cursor_ok t -> cursor_ok (step h t ev).
Proof.
  intros H. pose proof (core_step h t ev) as E. destruct ev;
    try exact (cursor_ok_core _ _ E H).
  - assert (Ek : step h t (KeyDown key ctrlKey) = onKeyDown key ctrlKey t)
      by reflexivity.
    rewrite Ek. apply cursor_ok_onKeyDown, H.
  - unfold core, cursor_ok, cursor_len in *. injection E as -> -> _.
    exact H.
Qed.

Lemma cursor_ok_reachable h t : reachable h t -> cursor_ok t.
Proof.
  induction 1 as [p | t ev _ IH].
  - left. split; reflexivity.
  - apply cursor_ok_step, IH.
Qed.

End HistoryAndMode.

(** ** History navigation (C3, C4, C6) and mode (C5) *)

Section Claims_History.

Lemma reachable_steps h evs :
  forall t, reachable h t -> reachable h (steps h t evs).
Proof.
  induction evs as [| ev evs IH]; intros t H; simpl.
  - exact H.
  - apply IH. apply reach_step. exact H.
Qed.

Lemma typed3_reachable : reachable browser typed3.
Proof. apply reachable_steps. apply reach_new. Qed.

(** C3, as stated, fails: from the history ["ls", "pwd", "cd /tmp"] with the
    cursor at 3, Up three times then Down once does not leave the cursor at 2
    with "cd /tmp" in the input. *)
Lemma C3_history_walk_refuted :
  commandHistory typed3 = history3
  /\ historyIndex typed3 = 3%Z
  /\ walk browser typed3 [ArrowUp; ArrowUp; ArrowUp; ArrowDown]
     <> (2%Z, js "cd /tmp").
Proof. vm_compute. repeat split. discriminate. Qed.

(** C3, amended: with the history ["ls", "pwd", "cd /tmp"], the cursor at 3
    and the mode Normal, Up three times then Down once leaves the cursor at 1
    with "pwd" in the input; a second Down leaves it at 2 with "cd /tmp"; a
    third Down clears the input and sets the cursor to 3.  It is Up twice
    then Down once that yields the cursor at 2 with "cd /tmp", after which
    one more Down clears the input and sets the cursor to 3. *)
Theorem C3_history_walk (h : Host) (t : Terminal) :
  commandHistory t = history3 ->
  historyIndex t = 3%Z ->
  interactiveMode t = false ->
  walk h t [ArrowUp; ArrowUp; ArrowUp; ArrowDown] = (1%Z, js "pwd")
  /\ walk h t [ArrowUp; ArrowUp; ArrowUp; ArrowDown; ArrowDown]
     = (2%Z, js "cd /tmp")
  /\ walk h t [ArrowUp; ArrowUp; ArrowUp; ArrowDown; ArrowDown; ArrowDown]
     = (3%Z, [])
  /\ walk h t [ArrowUp; ArrowUp; ArrowDown] = (2%Z, js "cd /tmp")
  /\ walk h t [ArrowUp; ArrowUp; ArrowDown; ArrowDown] = (3%Z, []).
Proof.
  destruct t as [sk pg hist idx cwd mode cl snt]. simpl.
  intros -> -> ->. vm_compute. repeat split.
Qed.

Lemma C3_history_walk_witness :
  walk browser typed3 [ArrowUp; ArrowUp; ArrowUp; ArrowDown] = (1%Z, js "pwd")
  /\ walk browser typed3 [ArrowUp; ArrowUp; ArrowDown; ArrowDown] = (3%Z, []).
Proof.
  pose proof (C3_history_walk browser typed3) as H.
  destruct H as (H1 & _ & _ & _ & H5);
    [vm_compute; reflexivity | vm_compute; reflexivity | reflexivity |].
  split; assumption.
Defined.

(** C4, as stated, fails: the object as constructed is a reachable state,
    its history is empty and its cursor is -1, outside [0, 0]. *)
Lemma C4_cursor_bounds_refuted :
  reachable browser (constructor bare_page)
  /\ commandHistory (constructor bare_page) = []
  /\ ~ (0 <= historyIndex (constructor bare_page)
          <= cursor_len (constructor bare_page))%Z.
Proof.
  split; [apply reach_new |]. split; [reflexivity |].
  vm_compute. intros [H _]. apply H. reflexivity.
Qed.

(** C4, amended: in every reachable client state the history cursor is
    within [0, history.length], except that it is -1 as long as the history
    is empty (its initial value; navigation on an empty history does
    nothing).  Once the history is not empty, a navigation request that would
    move the cursor below 0 clamps it to 0, and a request at or above
    history.length clears the input and sets the cursor to history.length. *)
Theorem C4_cursor_bounds (h : Host) (t : Terminal) :
  reachable h t ->
  ((commandHistory t = [] /\ historyIndex t = (-1)%Z)
   \/ (commandHistory t <> []
       /\ (0 <= historyIndex t <= Z.of_nat (length (commandHistory t)))%Z))
  /\ forall d : Z,
       (commandHistory t = [] -> navigateHistory d t = t)
       /\ (commandHistory t <> [] ->
           ((historyIndex t + d < 0)%Z ->
              historyIndex (navigateHistory d t) = 0%Z)
           /\ ((historyIndex t + d >= Z.of_nat (length (commandHistory t)))%Z ->
              historyIndex (navigateHistory d t)
              = Z.of_nat (length (commandHistory t))
              /\ input_value (page (navigateHistory d t)) = [])).
Proof.
  intros Hr. split; [exact (cursor_ok_reachable h t Hr) |].
  intros d. split; [apply navigateHistory_empty |].
  intros Hne. destruct (navigateHistory_spec d t Hne) as (Hlo & Hhi & _).
  split; [intros L; exact (proj1 (Hlo L)) | exact Hhi].
Qed.

Lemma C4_cursor_bounds_witness :
  (0 <= historyIndex typed3 <= 3)%Z
  /\ historyIndex (navigateHistory 1 typed3) = 3%Z
  /\ historyIndex (navigateHistory (-7) typed3) = 0%Z.
Proof.
  destruct (C4_cursor_bounds browser typed3 typed3_reachable) as [Hc Hn].
  destruct Hc as [[E _] | [_ Hc]]; [discriminate E |].
  destruct (Hn 1%Z) as [_ H1]. destruct (Hn (-7)%Z) as [_ H7].
  assert (Hne : commandHistory typed3 <> []) by discriminate.
  split; [exact Hc |]. split.
  - apply (proj2 (H1 Hne)). vm_compute. discriminate.
  - apply (proj1 (H7 Hne)). reflexivity.
Defined.

End Claims_History.

Section Claims_Mode.

Lemma core_mode t t' :
  core t' = core t -> interactiveMode t' = interactiveMode t.
Proof. intros E. exact (f_equal snd E). Qed.

Lemma core_history t t' :
  core t' = core t ->
  commandHistory t' = commandHistory t /\ historyIndex t' = historyIndex t.
Proof.
  intros E. split.
  - exact (f_equal (fun x => fst (fst x)) E).
  - exact (f_equal (fun x => snd (fst x)) E).
Qed.

Lemma mode_executeCommand t :
  interactiveMode (executeCommand t) = interactiveMode t.
Proof.
  pose proof (f_equal snd (core_executeCommand t)) as E.
  destruct (_ && _); exact E.
Qed.

Lemma mode_onKeyDown key c t :
  interactiveMode (onKeyDown key c t) = interactiveMode t.
Proof.
  unfold onKeyDown.
  destruct (str_eqb key (js "Enter")).
  - destruct (interactiveMode t) eqn:Em.
    + rewrite (core_mode _ _ (core_sendInputToShell t)). exact Em.
    + rewrite mode_executeCommand. exact Em.
  - destruct (_ && _); [apply mode_navigateHistory |].
    destruct (_ && _); [apply mode_navigateHistory |].
    destruct (str_eqb key (js "Tab")); reflexivity.
Qed.

Lemma onKeyDown_Enter c t :
  onKeyDown (js "Enter") c t
  = if interactiveMode t then sendInputToShell t else executeCommand t.
Proof.
  unfold onKeyDown.
  assert (Es : str_eqb (js "Enter") (js "Enter") = true)
    by (vm_compute; reflexivity).
  rewrite Es. reflexivity.
Qed.

Lemma history_onKeyDown_other key c t :
  str_eqb key (js "Enter") = false ->
  commandHistory (onKeyDown key c t) = commandHistory t.
Proof.
  intros Ek. unfold onKeyDown. rewrite Ek.
  destruct (str_eqb key (js "ArrowUp") && negb (interactiveMode t));
    [apply mode_navigateHistory |].
  destruct (str_eqb key (js "ArrowDown") && negb (interactiveMode t));
    [apply mode_navigateHistory |].
  destruct (str_eqb key (js "Tab")); reflexivity.
Qed.

Lemma sent_sendInputToShell t :
  sent (sendInputToShell t)
  = sent t
    ++ (if socket_open t then [InputFrame (input_value (page t) ++ [LF])]
        else []).
Proof.
  unfold sendInputToShell. cbv zeta.
  set (t1 := if truthy (trim (input_value (page t)))
             then addFormattedOutput (input_value (page t)) (js "user-input") t
             else t).
  assert (E1 : socket_open t1 = socket_open t)
    by (subst t1; destruct (truthy _); reflexivity).
  assert (E2 : sent t1 = sent t)
    by (subst t1; destruct (truthy _); reflexivity).
  rewrite E1. destruct (socket_open t); simpl; rewrite E2, ?app_nil_r;
    reflexivity.
Qed.

(** C5: the mode changes only on a server [output] message that carries the
    [interactive] flag, and then becomes the flag (true: Interactive, false:
    Normal); no other event changes it.  While the mode is Interactive, Enter
    goes to the shell as an [input] message holding the raw line and a
    newline, never as a [command] message (a frame leaves only through an
    open socket). *)
Theorem C5_mode_transitions (h : Host) (t : Terminal) :
  (forall ev,
     interactiveMode (step h t ev) <> interactiveMode t ->
     exists o, ev = SocketMessage (Output o)
               /\ m_interactive o = Some (interactiveMode (step h t ev)))
  /\ (forall o b,
        m_interactive o = Some b ->
        interactiveMode (step h t (SocketMessage (Output o))) = b)
  /\ (interactiveMode t = true ->
      forall ctrlKey,
        sent (step h t (KeyDown (js "Enter") ctrlKey))
        = sent t
          ++ (if socket_open t
              then [InputFrame (input_value (page t) ++ [LF])]
              else [])).
Proof.
  split; [| split].
  - intros ev Hd. pose proof (f_equal snd (core_step h t ev)) as E.
    simpl in E.
    destruct ev as [key c | | | | msg | | | |];
      try (simpl in E; contradiction).
    + simpl in E. rewrite mode_onKeyDown in E. contradiction.
    + destruct msg as [cwd text | o | out | ty]; simpl in E;
        try contradiction.
      exists o. split; [reflexivity |].
      destruct (m_interactive o) as [b |]; [congruence | contradiction].
  - intros o b Hb.
    pose proof (f_equal snd (core_step h t (SocketMessage (Output o)))) as E.
    simpl in E. rewrite Hb in E. exact E.
  - intros Hm c.
    assert (Ek : step h t (KeyDown (js "Enter") c) = sendInputToShell t).
    { unfold step. simpl. rewrite onKeyDown_Enter, Hm. reflexivity. }
    rewrite Ek. apply sent_sendInputToShell.
Qed.

Lemma C5_mode_transitions_witness :
  let t1 := steps browser (constructor bare_page) [SocketOpen] in
  let t2 := step browser t1 (SocketMessage interactive_on) in
  interactiveMode t1 = false
  /\ interactiveMode t2 = true
  /\ sent (steps browser t2 [Edit (js "y"); Enter])
     = [InputFrame (js "y" ++ [LF])].
Proof.
  intros t1 t2.
  destruct (C5_mode_transitions browser t1) as (_ & Hon & _).
  destruct (C5_mode_transitions browser (step browser t2 (Edit (js "y"))))
    as (_ & _ & Hin).
  split; [reflexivity |]. split.
  - apply Hon. reflexivity.
  - exact (Hin eq_refl false).
Defined.

(** C6: an event appends to the history only if it is Enter in Normal mode
    with a command that is not empty after trimming, and what it appends is
    the trimmed command; while the mode is Interactive no event, the Up and
    Down arrows included, changes the history or moves the cursor. *)
Theorem C6_history_frozen (h : Host) (t : Terminal) (ev : event) :
  (commandHistory (step h t ev) <> commandHistory t ->
     interactiveMode t = false
     /\ trim (input_value (page t)) <> []
     /\ (exists ctrlKey, ev = KeyDown (js "Enter") ctrlKey)
     /\ commandHistory (step h t ev)
        = commandHistory t ++ [trim (input_value (page t))])
  /\ (interactiveMode t = true ->
      commandHistory (step h t ev) = commandHistory t
      /\ historyIndex (step h t ev) = historyIndex t).
Proof.
  pose proof (core_step h t ev) as E. split.
  - intros Hd.
    destruct ev as [key c | | | | msg | | | |];
      try (apply core_history in E; destruct E as [E _]; contradiction);
      try (apply (f_equal (fun x => fst (fst x))) in E; contradiction).
    assert (Ex : step h t (KeyDown key c) = onKeyDown key c t) by reflexivity.
    rewrite Ex in *. clear E Ex.
    destruct (str_eqb key (js "Enter")) eqn:Ek.
    + apply str_eqb_eq in Ek. subst key.
      rewrite onKeyDown_Enter in *.
      destruct (interactiveMode t) eqn:Em.
      * exfalso. apply Hd.
        apply (core_history _ _ (core_sendInputToShell t)).
      * pose proof (core_executeCommand t) as E. rewrite Em in E.
        destruct (truthy (trim (input_value (page t)))) eqn:Et; simpl in E.
        -- apply (f_equal (fun x => fst (fst x))) in E. simpl in E.
           repeat split.
           ++ intros E0. rewrite E0 in Et. discriminate.
           ++ exists c. reflexivity.
           ++ exact E.
        -- exfalso. apply Hd. apply (core_history _ _ E).
    + exfalso. apply Hd. apply history_onKeyDown_other. exact Ek.
  - intros Hm.
    destruct ev as [key c | | | | msg | | | |];
      try (apply core_history in E; exact E);
      try (split; [exact (f_equal (fun x => fst (fst x)) E)
                  | exact (f_equal (fun x => snd (fst x)) E)]).
    assert (Ex : step h t (KeyDown key c) = onKeyDown key c t) by reflexivity.
    rewrite Ex. clear E Ex. unfold onKeyDown. rewrite Hm. simpl.
    rewrite !andb_false_r.
    destruct (str_eqb key (js "Enter")).
    + apply (core_history _ _ (core_sendInputToShell t)).
    + destruct (str_eqb key (js "Tab")); split; reflexivity.
Qed.

Lemma C6_history_frozen_witness :
  let t1 := steps browser (constructor bare_page) [Edit (js "  ls ")] in
  let t2 :=
    steps browser typed3 [SocketMessage interactive_on; Edit (js "top")] in
  commandHistory (step browser t1 Enter) = [js "ls"]
  /\ commandHistory (step browser t2 Enter) = history3
  /\ historyIndex (step browser t2 ArrowUp) = 3%Z.
Proof.
  intros t1 t2.
  destruct (C6_history_frozen browser t1 Enter) as [Happ _].
  destruct (C6_history_frozen browser t2 Enter) as [_ Hfr].
  destruct (C6_history_frozen browser t2 ArrowUp) as [_ Hup].
  split; [| split].
  - apply Happ. vm_compute. discriminate.
  - apply Hfr. reflexivity.
  - apply Hup. reflexivity.
Defined.

End Claims_Mode.

(** ** The output element and the prompt's path (C10) *)

Section Claims_Screen.

Lemma output_updatePrompt h t :
  output (page (snd (updatePrompt h t))) = output (page t).
Proof.
  unfold updatePrompt. destruct (negb (interactiveMode t)); [| reflexivity].
  destruct (getShortPath h _); reflexivity.
Qed.

Lemma output_after_cwd h cwd t :
  output (page (snd (when (present cwd)
                       (run (set_currentDirectory (template cwd)) ;;
                        updatePrompt h) t)))
  = output (page t).
Proof.
  destruct (present cwd); simpl; [| reflexivity].
  unfold bind, run. rewrite output_updatePrompt. reflexivity.
Qed.

Lemma output_addOutput_text text cls t :
  str_eqb cls (js "raw-output") = false ->
  str_eqb cls (js "shell-prompt") = false ->
  output (page (addOutput text cls t))
  = output (page t)
    ++ [Element (js "output-line " ++ cls) (TextContent text) None None].
Proof.
  intros E1 E2. unfold addOutput, addFormattedOutput. rewrite E1, E2.
  destruct (str_eqb cls (js "password-prompt")); reflexivity.
Qed.

(** C10: [getShortPath] returns "~" for an empty or a missing path, whatever
    the host; for every path that is not empty it reads the global [process],
    so on a host that defines none (a browser page) it throws instead of
    returning a shortened path, and so does [updatePrompt] in Normal mode
    whenever the current directory is not empty, leaving the prompt as it
    was. *)
Theorem C10_short_path_faults (h : Host) :
  getShortPath h None = Normal (js "~")
  /\ getShortPath h (Some []) = Normal (js "~")
  /\ (process_env_USER h = None ->
      (forall path : jsstring,
         path <> [] ->
         getShortPath h (Some path) = Throw (ReferenceError (js "process")))
      /\ (forall t,
            interactiveMode t = false ->
            currentDirectory t <> [] ->
            updatePrompt h t = (Throw (ReferenceError (js "process")), t))).
Proof.
  split; [reflexivity |]. split; [reflexivity |].
  intros Hp.
  assert (Hg : forall path : jsstring,
             path <> [] ->
             getShortPath h (Some path)
             = Throw (ReferenceError (js "process"))).
  { intros [| c path] Hne; [contradiction |].
    unfold getShortPath. rewrite Hp. reflexivity. }
  split; [exact Hg |].
  intros t Hm Hc. unfold updatePrompt. rewrite Hm, (Hg _ Hc). reflexivity.
Qed.

Lemma C10_short_path_faults_witness :
  getShortPath browser (Some (js "/home/user/project"))
  = Throw (ReferenceError (js "process"))
  /\ fst (handle browser (SocketMessage (Prompt (js "/srv") (js "Welcome")))
            (constructor bare_page))
     = Throw (ReferenceError (js "process")).
Proof.
  destruct (C10_short_path_faults browser) as (_ & _ & H).
  destruct (H eq_refl) as [Hg Hu]. split.
  - apply Hg. discriminate.
  - unfold handle, handleMessage. unfold bind at 1. cbn [run].
    unfold bind. rewrite Hu; [reflexivity | reflexivity | discriminate].
Defined.

(** Where [process] is defined the path is shortened. *)
Example getShortPath_home :
  getShortPath (MkHost (Some (Some (js "ann")))) (Some (js "/home/ann/src"))
  = Normal (js "~/src").
Proof. reflexivity. Qed.

Example getShortPath_deep :
  getShortPath (MkHost (Some None)) (Some (js "/var/lib/app/data"))
  = Normal (js ".../app/data").
Proof. reflexivity. Qed.

End Claims_Screen.

(** ** The matcher on the shapes the sanitizer uses *)

Section RegexFacts.

Lemma span_len_le p s : (span_len p s <= length s)%nat.
Proof.
  induction s as [| c s IH]; simpl; [lia |]. destruct (p c); simpl; lia.
Qed.

Lemma length_skipn_span p s :
  (length s - length (skipn (span_len p s) s) = span_len p s)%nat.
Proof.
  rewrite length_skipn. pose proof (span_len_le p s). lia.
Qed.

(** A repetition followed by nothing else takes the whole span. *)
Lemma star_loop_total p cap s :
  forall pv, exists pv',
    star_loop p cap pv s Some
    = Some (MState pv' (skipn (span_len p s) s) cap).
Proof.
  induction s as [| c s IH]; intros pv; simpl.
  - exists pv. reflexivity.
  - destruct (p c).
    + destruct (IH (Some c)) as [pv' ->]. exists pv'. reflexivity.
    + exists pv. reflexivity.
Qed.

Lemma exec_at_char ml p pv s :
  exec_at ml (RChar p) pv s
  = match s with
    | c :: _ => if p c then Some (1%nat, None) else None
    | [] => None
    end.
Proof.
  unfold exec_at. simpl. destruct s as [| c s]; [reflexivity |].
  destruct (p c); [| reflexivity]. cbn [ms_rest ms_cap]. f_equal. f_equal.
  simpl length. lia.
Qed.

Lemma exec_at_plus ml p pv s :
  exec_at ml (RPlus p) pv s
  = match s with
    | c :: s' => if p c then Some (S (span_len p s'), None) else None
    | [] => None
    end.
Proof.
  unfold exec_at. simpl. destruct s as [| c s]; [reflexivity |].
  destruct (p c); [| reflexivity].
  destruct (star_loop_total p None s (Some c)) as [pv' ->].
  cbn [ms_rest ms_cap]. f_equal. f_equal.
  pose proof (length_skipn_span p s). pose proof (span_len_le p s).
  rewrite length_skipn in *. simpl length. lia.
Qed.

(** A repetition of a class without line terminators, then [$]: it matches
    only with the whole span, when the line ends there. *)
Lemma star_loop_eol p cap s :
  (forall c, p c = true -> is_line_terminator c = false) ->
  forall pv,
    (at_eol (skipn (span_len p s) s) = true ->
     exists pv',
       star_loop p cap pv s eol_k
       = Some (MState pv' (skipn (span_len p s) s) cap))
    /\ (at_eol (skipn (span_len p s) s) = false ->
        star_loop p cap pv s eol_k = None).
Proof.
  intros Hp. induction s as [| c s IH]; intros pv; simpl.
  - split; [| discriminate]. intros _. exists pv. reflexivity.
  - destruct (p c) eqn:Ec; simpl.
    + destruct (IH (Some c)) as [Hy Hn]. split.
      * intros He. destruct (Hy He) as [pv' ->]. exists pv'. reflexivity.
      * intros He. rewrite (Hn He). unfold eol_k. simpl.
        rewrite (Hp c Ec). reflexivity.
    + unfold eol_k. simpl. split.
      * intros ->. exists pv. reflexivity.
      * intros ->. reflexivity.
Qed.

Lemma exec_at_plus_eol p pv s :
  (forall c, p c = true -> is_line_terminator c = false) ->
  exec_at true (RSeq (RPlus p) REol) pv s
  = match s with
    | c :: s' =>
        if p c && at_eol (skipn (span_len p s') s')
        then Some (S (span_len p s'), None)
        else None
    | [] => None
    end.
Proof.
  intros Hp. unfold exec_at. destruct s as [| c s]; [reflexivity |].
  change (rmatch true (RSeq (RPlus p) REol) (MState pv (c :: s) None) Some)
    with (if p c then star_loop p None (Some c) s eol_k else None).
  destruct (p c); [| reflexivity]. simpl andb.
  destruct (star_loop_eol p None s Hp (Some c)) as [Hy Hn].
  destruct (at_eol (skipn (span_len p s) s)).
  - destruct (Hy eq_refl) as [pv' ->]. cbn [ms_rest ms_cap]. f_equal. f_equal.
    pose proof (span_len_le p s). rewrite length_skipn. simpl length. lia.
  - rewrite (Hn eq_refl). reflexivity.
Qed.

(** *** Replacement *)

Lemma replace_go_none ml r rep p s :
  starts_in ml r p ->
  Forall (fun c => p c = false) s ->
  forall pv, replace_go ml r rep pv 0 s = s.
Proof.
  intros Hr. induction 1 as [| c s Hc Hs IH]; intros pv; simpl.
  - destruct (exec_at ml r pv []) eqn:E; [| reflexivity].
    destruct (Hr pv []) as (c & s' & Hcs & _); [congruence | discriminate].
  - destruct (exec_at ml r pv (c :: s)) eqn:E.
    + destruct (Hr pv (c :: s)) as (c' & s' & Hcs & Hp); [congruence |].
      injection Hcs as <- <-. congruence.
    + rewrite IH. reflexivity.
Qed.

Lemma replace_none ml r rep p s :
  starts_in ml r p ->
  Forall (fun c => p c = false) s ->
  replace ml r rep s = s.
Proof. intros Hr Hs. apply (replace_go_none ml r rep p s Hr Hs). Qed.

Lemma starts_in_char ml p : starts_in ml (RChar p) p.
Proof.
  intros pv s. rewrite exec_at_char. destruct s as [| c s]; [congruence |].
  destruct (p c) eqn:E; [| congruence]. intros _. exists c, s. auto.
Qed.

Lemma starts_in_seq_char ml p r : starts_in ml (RSeq (RChar p) r) p.
Proof.
  intros pv s. unfold exec_at. simpl. destruct s as [| c s]; [congruence |].
  destruct (p c) eqn:E; [| congruence]. intros _. exists c, s. auto.
Qed.

Lemma starts_in_plus ml p : starts_in ml (RPlus p) p.
Proof.
  intros pv s. rewrite exec_at_plus. destruct s as [| c s]; [congruence |].
  destruct (p c) eqn:E; [| congruence]. intros _. exists c, s. auto.
Qed.

(** Deleting the units of a class is a filter. *)
Lemma replace_go_char_filter ml p s :
  forall pv, replace_go ml (RChar p) [] pv 0 s = filter (fun c => negb (p c)) s.
Proof.
  induction s as [| c s IH]; intros pv; cbn [replace_go filter].
  - rewrite exec_at_char. reflexivity.
  - rewrite exec_at_char. destruct (p c); simpl; rewrite IH; reflexivity.
Qed.

Lemma replace_char_filter ml p s :
  replace ml (RChar p) [] s = filter (fun c => negb (p c)) s.
Proof. apply replace_go_char_filter. Qed.

End RegexFacts.

(** ** The sanitizer (C2, C9) *)

Section Sanitizer.

Lemma replace_go_blanks s :
  forall pv,
    replace_go false re_blanks [SP] pv 0 s = collapse false s
    /\ replace_go false re_blanks [SP] pv (span_len cls_blank s) s
       = collapse true s.
Proof.
  induction s as [| c s IH]; intros pv.
  - split; reflexivity.
  - assert (H0 : replace_go false re_blanks [SP] pv 0 (c :: s)
                 = collapse false (c :: s)).
    { cbn [replace_go collapse]. unfold re_blanks. rewrite exec_at_plus.
      destruct (cls_blank c).
      - cbn [app]. f_equal. apply IH.
      - f_equal. apply IH. }
    split; [exact H0 |].
    cbn [span_len collapse]. destruct (cls_blank c) eqn:Ec.
    + cbn [replace_go]. apply IH.
    + rewrite H0. cbn [collapse]. rewrite Ec. reflexivity.
Qed.

Lemma replace_blanks s : replace false re_blanks [SP] s = collapse false s.
Proof. apply replace_go_blanks. Qed.

Lemma lit_SP_not_terminator c :
  lit SP c = true -> is_line_terminator c = false.
Proof. unfold lit. intros E. apply N.eqb_eq in E. subst c. reflexivity. Qed.

Lemma replace_go_trailing s :
  forall pv,
    replace_go true re_trailing [] pv 0 s = strip_trailing s
    /\ (at_eol (skipn (span_len (lit SP) s) s) = true ->
        replace_go true re_trailing [] pv (span_len (lit SP) s) s
        = strip_trailing s).
Proof.
  induction s as [| c s IH]; intros pv.
  - split; reflexivity.
  - assert (H0 : replace_go true re_trailing [] pv 0 (c :: s)
                 = strip_trailing (c :: s)).
    { cbn [replace_go strip_trailing]. unfold re_trailing.
      rewrite (exec_at_plus_eol _ _ _ lit_SP_not_terminator).
      destruct (lit SP c && at_eol (skipn (span_len (lit SP) s) s)) eqn:E.
      - cbn [app]. apply andb_true_iff in E. apply IH, E.
      - f_equal. apply IH. }
    split; [exact H0 |].
    cbn [span_len strip_trailing]. destruct (lit SP c) eqn:Ec.
    + cbn [skipn]. intros He. rewrite He. cbn [andb replace_go].
      apply IH, He.
    + intros _. rewrite H0. cbn [strip_trailing]. rewrite Ec. reflexivity.
Qed.

Lemma replace_trailing s : replace true re_trailing [] s = strip_trailing s.
Proof. apply replace_go_trailing. Qed.

(** The pipeline, with each replacement that deletes one class written as a
    filter. *)
Lemma stripAnsiCodes_stages text :
  stripAnsiCodes text
  = strip_trailing
      (collapse false
         (filter (fun c => negb (cls_control c))
            (filter (fun c => negb (lit BEL c))
               (filter (fun c => negb (lit CR c))
                  (replace false re_crlf [LF]
                     (filter (fun c => negb (any_of [BS; DEL] c))
                        (replace false re_keypad []
                           (replace false re_osc []
                              (replace false re_csi [] text))))))))).
Proof.
  unfold stripAnsiCodes. cbv zeta.
  unfold re_erase, re_cr, re_bel, re_control.
  rewrite replace_trailing, replace_blanks, !replace_char_filter.
  reflexivity.
Qed.

(** Units of the output. *)
Lemma In_strip_trailing c s : In c (strip_trailing s) -> In c s.
Proof.
  induction s as [| d s IH]; simpl; [tauto |].
  destruct (_ && _); simpl; tauto.
Qed.

Lemma In_collapse c s :
  forall b, In c (collapse b s) -> c = SP \/ (In c s /\ cls_blank c = false).
Proof.
  induction s as [| d s IH]; intros b; simpl; [tauto |].
  destruct (cls_blank d) eqn:Ed.
  - destruct b; simpl; intros H.
    + destruct (IH _ H) as [-> | [Hi Hb]]; auto.
    + destruct H as [<- | H]; [auto |].
      destruct (IH _ H) as [-> | [Hi Hb]]; auto.
  - simpl. intros [<- | H]; [auto |].
    destruct (IH _ H) as [-> | [Hi Hb]]; auto.
Qed.

Lemma stripAnsiCodes_units text :
  Forall (fun c => unit_ok c = true) (stripAnsiCodes text).
Proof.
  apply Forall_forall. intros c Hc. rewrite stripAnsiCodes_stages in Hc.
  apply In_strip_trailing, In_collapse in Hc.
  destruct Hc as [-> | [Hc Hb]]; [reflexivity |].
  apply filter_In in Hc. destruct Hc as [Hc H8].
  apply filter_In in Hc. destruct Hc as [Hc _].
  apply filter_In in Hc. destruct Hc as [_ H6].
  unfold unit_ok. rewrite H8. unfold lit in H6. rewrite H6. simpl.
  unfold cls_blank, any_of in Hb. simpl in Hb.
  apply orb_false_iff in Hb. destruct Hb as [_ Hb].
  apply orb_false_iff in Hb. destruct Hb as [Hb _].
  rewrite Hb. reflexivity.
Qed.

Lemma cls_blank_SP c : cls_blank c = false -> (c =? SP) = false.
Proof.
  unfold cls_blank, any_of. simpl. intros H.
  apply orb_false_iff in H. tauto.
Qed.

Lemma single_collapse s :
  single (collapse false s) = true
  /\ single (collapse true s) = true
  /\ match collapse true s with d :: _ => (d =? SP) = false | [] => True end.
Proof.
  induction s as [| c s (IH1 & IH2 & IH3)]; [simpl; auto |].
  cbn [collapse]. destruct (cls_blank c) eqn:Ec.
  - split; [| auto].
    cbn [single]. rewrite N.eqb_refl, IH2.
    destruct (collapse true s) as [| d u]; [reflexivity |].
    rewrite IH3. reflexivity.
  - pose proof (cls_blank_SP c Ec) as Es.
    cbn [single]. rewrite Es, IH1. auto.
Qed.

Lemma spaced_strip_trailing s :
  single s = true -> spaced (strip_trailing s) = true.
Proof.
  induction s as [| c s IH]; [reflexivity |].
  cbn [single strip_trailing]. unfold lit at 1.
  intros H. apply andb_true_iff in H. destruct H as [Hc Hs].
  destruct (c =? SP) eqn:Ec.
  - destruct s as [| d s]; [reflexivity |].
    apply negb_true_iff in Hc.
    cbn [span_len]. unfold lit at 1. rewrite Hc. cbn [skipn at_eol andb].
    destruct (is_line_terminator d) eqn:Ed; [apply IH, Hs |].
    specialize (IH Hs). cbn [strip_trailing] in *. unfold lit at 1 in IH.
    unfold lit at 1. rewrite Hc in *. cbn [andb] in *.
    cbn [spaced]. rewrite Ec, Hc, Ed.
    cbn [spaced] in IH. rewrite Hc in IH. cbn [negb andb] in *. exact IH.
  - cbn [andb spaced]. rewrite Ec. apply IH, Hs.
Qed.

Lemma stripAnsiCodes_spaced text : spaced (stripAnsiCodes text) = true.
Proof.
  rewrite stripAnsiCodes_stages. apply spaced_strip_trailing.
  apply single_collapse.
Qed.

(** On a text of such units, so spaced, every replacement finds nothing to
    change. *)
Lemma filter_none (p : char -> bool) s :
  Forall (fun c => p c = false) s -> filter (fun c => negb (p c)) s = s.
Proof.
  induction 1 as [| c s Hc Hs IH]; simpl; [reflexivity |].
  rewrite Hc, IH. reflexivity.
Qed.

Lemma collapse_spaced s :
  Forall (fun c => unit_ok c = true) s ->
  spaced s = true ->
  collapse false s = s.
Proof.
  assert (Hb : forall c, unit_ok c = true -> cls_blank c = (c =? SP)).
  { intros c H. unfold unit_ok in H. apply andb_true_iff in H.
    destruct H as [_ H]. apply negb_true_iff in H.
    unfold cls_blank, any_of. simpl. rewrite H, !orb_false_r. reflexivity. }
  induction 1 as [| c s Hc Hs IH]; [reflexivity |].
  cbn [spaced collapse]. intros H. apply andb_true_iff in H.
  destruct H as [H1 H2]. specialize (IH H2).
  rewrite (Hb c Hc). destruct (c =? SP) eqn:Ec.
  - apply N.eqb_eq in Ec. subst c. f_equal.
    destruct s as [| d s]; [discriminate |].
    apply andb_true_iff in H1. destruct H1 as [H1 _].
    apply negb_true_iff in H1.
    inversion Hs as [| ? ? Hd _]; subst.
    cbn [collapse] in *. rewrite (Hb d Hd), H1 in *. exact IH.
  - f_equal. exact IH.
Qed.

Lemma strip_trailing_spaced s : spaced s = true -> strip_trailing s = s.
Proof.
  induction s as [| c s IH]; [reflexivity |].
  cbn [spaced strip_trailing]. unfold lit at 1.
  intros H. apply andb_true_iff in H. destruct H as [H1 H2].
  rewrite (IH H2). destruct (c =? SP); [| reflexivity].
  destruct s as [| d s]; [discriminate |].
  apply andb_true_iff in H1. destruct H1 as [Hd Ht].
  apply negb_true_iff in Hd, Ht.
  cbn [span_len]. unfold lit at 1. rewrite Hd. cbn [skipn at_eol].
  rewrite Ht. reflexivity.
Qed.

Lemma unit_ok_not (a : char) s :
  cls_control a = true \/ a = CR ->
  Forall (fun c => unit_ok c = true) s ->
  Forall (fun c => lit a c = false) s.
Proof.
  intros Ha H. eapply Forall_impl; [| exact H]. intros c Hc. unfold lit.
  destruct (c =? a) eqn:E; [| reflexivity].
  apply N.eqb_eq in E. subst c. unfold unit_ok in Hc.
  destruct Ha as [Ha | ->]; [rewrite Ha in Hc |]; discriminate.
Qed.

Lemma stripAnsiCodes_fixed s :
  Forall (fun c => unit_ok c = true) s ->
  spaced s = true ->
  stripAnsiCodes s = s.
Proof.
  intros Hu Hs.
  pose proof (unit_ok_not ESC s (or_introl eq_refl) Hu) as Hesc.
  pose proof (unit_ok_not CR s (or_intror eq_refl) Hu) as Hcr.
  pose proof (unit_ok_not BEL s (or_introl eq_refl) Hu) as Hbel.
  rewrite stripAnsiCodes_stages.
  unfold re_csi, re_osc, re_keypad, re_crlf. cbn [seq_of].
  rewrite (replace_none false _ [] (lit ESC) s (starts_in_seq_char _ _ _) Hesc).
  rewrite (replace_none false _ [] (lit ESC) s (starts_in_seq_char _ _ _) Hesc).
  rewrite (replace_none false _ [] (lit ESC) s (starts_in_seq_char _ _ _) Hesc).
  rewrite (filter_none (any_of [BS; DEL]) s).
  2:{ eapply Forall_impl; [| exact Hu]. intros c Hc.
      unfold unit_ok in Hc. unfold any_of. simpl.
      destruct (c =? BS) eqn:E1;
        [apply N.eqb_eq in E1; subst c; discriminate |].
      destruct (c =? DEL) eqn:E2;
        [apply N.eqb_eq in E2; subst c; discriminate |].
      reflexivity. }
  rewrite (replace_none false _ [LF] (lit CR) s (starts_in_seq_char _ _ _) Hcr).
  rewrite (filter_none (lit CR) s Hcr), (filter_none (lit BEL) s Hbel).
  rewrite (filter_none cls_control s).
  2:{ eapply Forall_impl; [| exact Hu]. intros c Hc.
      unfold unit_ok in Hc. destruct (cls_control c); [discriminate |].
      reflexivity. }
  rewrite (collapse_spaced s Hu Hs). apply strip_trailing_spaced, Hs.
Qed.

End Sanitizer.

(** ** The prompt line (C1) *)

Section Claims_Prompt.

(** A repetition takes a whole span when what follows succeeds there. *)
Lemma star_loop_span p cap u v k r :
  Forall (fun c => p c = true) u ->
  match v with c :: _ => p c = false | [] => True end ->
  forall pv,
    k (MState (prev_after pv u) v cap) = Some r ->
    star_loop p cap pv (u ++ v) k = Some r.
Proof.
  intros Hu Hv. induction Hu as [| c u Hc Hu IH]; intros pv Hk.
  - simpl in *. destruct v as [| c v]; [exact Hk |].
    simpl. rewrite Hv. exact Hk.
  - simpl. rewrite Hc. rewrite (IH (Some c)); [reflexivity | exact Hk].
Qed.

Lemma exec_at_re_dir pv dir sg post :
  dir <> [] ->
  Forall (fun c => cls_sigil c = false) dir ->
  cls_sigil sg = true ->
  exec_at false re_dir pv (c_ ":" :: dir ++ sg :: post)
  = Some (S (S (length dir)), Some dir).
Proof.
  intros Hne Hd Hs. destruct dir as [| d0 dir]; [contradiction |].
  inversion Hd as [| ? ? Hd0 Hd']; subst.
  unfold exec_at, re_dir.
  cbn [seq_of rmatch ms_rest ms_cap ms_prev app].
  change (lit (c_ ":") (c_ ":")) with true. cbv iota.
  change (none_of [c_ "$"; c_ "#"]) with (fun c => negb (cls_sigil c)).
  cbv beta. rewrite Hd0. cbn [negb].
  match goal with
  | |- context [star_loop ?p ?cap ?pv (dir ++ sg :: post) ?k] =>
      rewrite (star_loop_span p cap dir (sg :: post) k
                 (MState (Some sg) post (Some (d0 :: dir))))
  end.
  - cbn [ms_rest ms_cap]. f_equal. f_equal.
    cbn [length]. rewrite !length_app. cbn [length]. lia.
  - eapply Forall_impl; [| exact Hd']. cbv beta. intros c ->. reflexivity.
  - rewrite Hs. reflexivity.
  - intros. cbn [ms_rest ms_cap ms_prev]. rewrite Hs. f_equal. f_equal.
    f_equal. cbn [length]. rewrite !length_app. cbn [length].
    replace (S (length dir + S (length post)) - S (length post))%nat
      with (S (length dir)) by lia.
    cbn [firstn]. f_equal.
    rewrite firstn_app, firstn_all, Nat.sub_diag. cbn [firstn].
    apply app_nil_r.
Qed.

(** Replacing each unit by itself changes nothing. *)
Lemma replace_go_same ml a s :
  forall pv, replace_go ml (RChar (lit a)) [a] pv 0 s = s.
Proof.
  induction s as [| c s IH]; intros pv; cbn [replace_go].
  - rewrite exec_at_char. reflexivity.
  - rewrite exec_at_char. destruct (lit a c) eqn:E.
    + apply N.eqb_eq in E. subst c. cbn [app]. rewrite IH. reflexivity.
    + rewrite IH. reflexivity.
Qed.

Lemma formatPrompt_untagged line :
  includes line host_tag = false -> formatPrompt line = line.
Proof. intros E. unfold formatPrompt. rewrite E. reflexivity. Qed.

(** C1, as stated, fails: the line "user@host:~/project$ " is taken for a
    prompt, but it is not rendered as "~/project$". *)
Lemma C1_prompt_rendering_refuted :
  isPromptLine (trim prompt_line) = true
  /\ formatPrompt (trim prompt_line) <> js "~/project$"
  /\ output (page (processTerminalLine prompt_line false
                     (constructor bare_page)))
     <> [prompt_element (js "~/project$")].
Proof. vm_compute. repeat split; discriminate. Qed.

End Claims_Prompt.

(** ** Blank lines of a chunk (C8) *)

Section Claims_Blank.

Lemma addFormattedOutput_blank t :
  addFormattedOutput [] (js "raw-output") t
  = set_output (output (page t) ++ [spacer]) t.
Proof. reflexivity. Qed.

Lemma processTerminalLine_blank line isLastLine t :
  trim line = [] -> processTerminalLine line isLastLine t = t.
Proof.
  intros E. unfold processTerminalLine. cbv zeta. rewrite E.
  destruct isLastLine; reflexivity.
Qed.

(** The fragment after the last line feed, when blank, shows nothing,
    whether or not the chunk ends with a line feed. *)
Lemma blank_last_fragment_dropped text n line t :
  trim line = [] -> addRawOutput_body text n (n - 1) line t = t.
Proof.
  intros E. unfold addRawOutput_body. rewrite Nat.eqb_refl.
  rewrite andb_false_r. apply processTerminalLine_blank, E.
Qed.

(** [addRawOutput] runs the body on every fragment, in order. *)
Lemma addRawOutput_loop_app text n l1 l2 :
  forall i t,
    addRawOutput_loop text n i (l1 ++ l2) t
    = addRawOutput_loop text n (i + length l1) l2
        (addRawOutput_loop text n i l1 t).
Proof.
  induction l1 as [| line l1 IH]; intros i t; simpl.
  - rewrite Nat.add_0_r. reflexivity.
  - rewrite IH. f_equal. lia.
Qed.

(** C8: a line that is empty after trimming is still forwarded to the
    display as a spacer of minimal height, unless it is the very last
    fragment of a chunk that does not end in a line terminator, in which case
    it is dropped.  The lines of a chunk are the fragments that a line feed
    ends and, when the chunk does not end in a line feed, the fragment after
    the last one. *)
Theorem C8_blank_lines (text : jsstring) (t : Terminal) (i : nat)
    (line : jsstring) :
  let lines := split LF (stripAnsiCodes text) in
  let n := length lines in
  nth_error lines i = Some line ->
  trim line = [] ->
  (i <> (n - 1)%nat ->
     addRawOutput_body text n i line t
     = set_output (output (page t) ++ [spacer]) t)
  /\ (i = (n - 1)%nat ->
      endsWith text [LF] = false ->
      addRawOutput_body text n i line t = t).
Proof.
  intros lines n _ E. split.
  - intros Hi. unfold addRawOutput_body. rewrite E.
    apply Nat.eqb_neq in Hi. rewrite Hi. reflexivity.
  - intros -> _. apply blank_last_fragment_dropped, E.
Qed.

Lemma C8_blank_lines_witness :
  let text := js "a" ++ [LF] ++ js "  " ++ [LF] ++ js "b" ++ [LF; BEL; SP] in
  split LF (stripAnsiCodes text) = [js "a"; []; js "b"; []]
  /\ endsWith text [LF] = false
  /\ output (page (addRawOutput_body text 4 1 [] (constructor bare_page)))
     = [spacer]
  /\ output (page (addRawOutput_body text 4 3 [] (constructor bare_page)))
     = []
  /\ length (output (page (addRawOutput text (constructor bare_page))))
     = 3%nat.
Proof.
  intros text.
  pose proof (C8_blank_lines text (constructor bare_page) 1 []) as H1.
  pose proof (C8_blank_lines text (constructor bare_page) 3 []) as H3.
  assert (Es : split LF (stripAnsiCodes text) = [js "a"; []; js "b"; []])
    by (vm_compute; reflexivity).
  cbv zeta in H1, H3. rewrite Es in H1, H3. cbn [length] in H1, H3.
  destruct (H1 eq_refl eq_refl) as [Ha _].
  destruct (H3 eq_refl eq_refl) as [_ Hb].
  split; [exact Es |]. split; [reflexivity |]. split; [| split].
  - rewrite Ha by discriminate. reflexivity.
  - rewrite Hb; reflexivity.
  - vm_compute. reflexivity.
Defined.

(** What is left after a final line feed is empty and no line: nothing is
    shown for it. *)
Example remainder_after_final_line_feed :
  let text := js "a" ++ [LF] in
  endsWith text [LF] = true
  /\ split LF (stripAnsiCodes text) = [js "a"; []]
  /\ output (page (addRawOutput text (constructor bare_page)))
     = [Element (js "output-line raw-output") (TextContent (js "a")) None
          None].
Proof. vm_compute. repeat split. Qed.

End Claims_Blank.

(** ** The sanitizer's claims (C2, C9) *)

Section Claims_Sanitizer.

Example stripAnsiCodes_colour :
  stripAnsiCodes ([ESC] ++ js "[31m" ++ js "error" ++ [ESC] ++ js "[0m")
  = js "error".
Proof. vm_compute. reflexivity. Qed.

Example stripAnsiCodes_title :
  stripAnsiCodes ([ESC] ++ js "]0;user@host: ~" ++ [BEL] ++ js "ls  -l "
                  ++ [CR; LF] ++ js "x" ++ [BS; SP; TAB])
  = js "ls -l" ++ [LF] ++ js "x".
Proof. vm_compute. reflexivity. Qed.

(** C2: the sanitizer is idempotent: for every input string,
    [stripAnsiCodes] applied to its own output returns that output. *)
Theorem C2_sanitizer_idempotent (x : jsstring) :
  stripAnsiCodes (stripAnsiCodes x) = stripAnsiCodes x.
Proof.
  apply stripAnsiCodes_fixed.
  - apply stripAnsiCodes_units.
  - apply stripAnsiCodes_spaced.
Qed.






End Claims_Sanitizer.

(** * Further properties of the script *)

(** ** Methods that write to the page only *)

Section Painting.

Lemma with_page_same t : with_page (page t) t = t.
Proof. destruct t. reflexivity. Qed.

Lemma appends_nil t : appends [] t = t.
Proof.
  unfold appends. rewrite app_nil_r. destruct t as [s [] h i c m l f].
  reflexivity.
Qed.

Lemma appends_appends l1 l2 t : appends l2 (appends l1 t) = appends (l1 ++ l2) t.
Proof. unfold appends. simpl. rewrite app_assoc. reflexivity. Qed.

Lemma paints_id : paints (fun t => t).
Proof. intro t. exists (page t). symmetry. apply with_page_same. Qed.

Lemma paints_appends l : paints (appends l).
Proof. intro t. eexists. reflexivity. Qed.

Lemma paints_addFormattedOutput text cls : paints (addFormattedOutput text cls).
Proof. intro t. eexists. reflexivity. Qed.

Lemma paints_blind {B : Type} (f : Terminal -> B) g t :
  page_blind f -> paints g -> f (g t) = f t.
Proof. intros Hf Hg. destruct (Hg t) as [p ->]. apply Hf. Qed.

Lemma processTerminalLine_appends line isLastLine t :
  exists l,
    processTerminalLine line isLastLine t = appends l t
    /\ length l = if truthy (trim line) then 1%nat else 0%nat.
Proof.
  destruct (truthy (trim line)) eqn:Et.
  - unfold processTerminalLine. cbv zeta. rewrite Et. cbn [negb andb].
    destruct (isPromptLine (trim line));
      [| destruct (isPasswordPrompt (trim line))];
      eexists; (split; [reflexivity | reflexivity]).
  - assert (E : trim line = [])
      by (destruct (trim line); [reflexivity | discriminate]).
    exists []. rewrite appends_nil.
    split; [apply processTerminalLine_blank, E | reflexivity].
Qed.

Lemma addRawOutput_body_appends text n i line t :
  exists l,
    addRawOutput_body text n i line t = appends l t
    /\ length l
       = if negb (truthy (trim line)) && (i =? n - 1)%nat then 0%nat
         else 1%nat.
Proof.
  unfold addRawOutput_body.
  destruct (truthy (trim line)) eqn:Et.
  - assert (Eb : str_eqb (trim line) [] = false)
      by (destruct (trim line); [discriminate | reflexivity]).
    rewrite Eb. cbn [andb negb].
    destruct (processTerminalLine_appends line
                ((i =? n - 1)%nat && negb (endsWith text [LF])) t)
      as (l & -> & Hl).
    exists l. rewrite Hl, Et. auto.
  - assert (E : trim line = [])
      by (destruct (trim line); [reflexivity | discriminate]).
    rewrite E. cbn [str_eqb andb negb].
    destruct (i =? n - 1)%nat; cbn [negb].
    + exists []. rewrite appends_nil.
      split; [apply processTerminalLine_blank, E | reflexivity].
    + eexists. split; reflexivity.
Qed.

Lemma addRawOutput_loop_appends text n lines :
  forall i t, exists l, addRawOutput_loop text n i lines t = appends l t.
Proof.
  induction lines as [| line rest IH]; intros i t; cbn [addRawOutput_loop].
  - exists []. symmetry. apply appends_nil.
  - destruct (addRawOutput_body_appends text n i line t) as (l1 & -> & _).
    destruct (IH (S i) (appends l1 t)) as (l2 & ->).
    exists (l1 ++ l2). apply appends_appends.
Qed.

Lemma addRawOutput_appends text t :
  exists l, addRawOutput text t = appends l t.
Proof. apply addRawOutput_loop_appends. Qed.

Lemma paints_addRawOutput text : paints (addRawOutput text).
Proof.
  intro t. destruct (addRawOutput_appends text t) as [l ->].
  apply paints_appends.
Qed.

Lemma paints_write_mode_indicator a b : paints (write_mode_indicator a b).
Proof.
  intro t. unfold write_mode_indicator.
  destruct (mode_indicator (page t));
    [eexists; reflexivity | apply paints_id].
Qed.

(** *** Computations *)

Lemma stable_ret {A B : Type} (f : Terminal -> B) (a : A) : stable f (ret a).
Proof. intro t. reflexivity. Qed.

Lemma stable_run {B : Type} (f : Terminal -> B) g :
  (forall t, f (g t) = f t) -> stable f (run g).
Proof. intros H t. apply H. Qed.

Lemma stable_bind {A A' B : Type} (f : Terminal -> B) (c : M A)
    (k : A -> M A') :
  stable f c -> (forall a, stable f (k a)) -> stable f (bind c k).
Proof.
  intros Hc Hk t. unfold bind. specialize (Hc t).
  destruct (c t) as [[a | e] t']; simpl in *.
  - rewrite Hk. exact Hc.
  - exact Hc.
Qed.

Lemma stable_when {B : Type} (f : Terminal -> B) b c :
  stable f c -> stable f (when b c).
Proof. intros H. destruct b; [exact H | apply stable_ret]. Qed.

Lemma snd_updatePrompt_paints h : paints (fun t => snd (updatePrompt h t)).
Proof.
  intro t. unfold updatePrompt.
  destruct (negb (interactiveMode t)); [| apply paints_id].
  destruct (getShortPath h _); [eexists; reflexivity | apply paints_id].
Qed.

Lemma stable_updatePrompt {B : Type} (f : Terminal -> B) h :
  page_blind f -> stable f (updatePrompt h).
Proof.
  intros Hf t. exact (paints_blind f _ t Hf (snd_updatePrompt_paints h)).
Qed.

Lemma stable_paint {B : Type} (f : Terminal -> B) g :
  page_blind f -> paints g -> stable f (run g).
Proof. intros Hf Hg. apply stable_run. intro t. apply paints_blind; assumption. Qed.

Lemma stable_updatePromptForMode {B : Type} (f : Terminal -> B) h :
  page_blind f -> stable f (updatePromptForMode h).
Proof.
  intros Hf t. unfold updatePromptForMode.
  destruct (interactiveMode t).
  - revert t.
    repeat (apply stable_bind; [| intros _]);
      apply stable_paint; try assumption;
      try apply paints_write_mode_indicator; intro; eexists; reflexivity.
  - revert t.
    apply stable_bind; [apply stable_paint; [assumption |] | intros _].
    { intro. eexists. reflexivity. }
    apply stable_bind; [apply stable_updatePrompt, Hf | intros _].
    apply stable_paint; [assumption | apply paints_write_mode_indicator].
Qed.

(** A message changes the page, the directory and the mode, nothing else. *)
Lemma stable_handleMessage {B : Type} (f : Terminal -> B) h msg :
  page_blind f ->
  (forall v t, f (set_currentDirectory v t) = f t) ->
  (forall b t, f (set_interactiveMode b t) = f t) ->
  stable f (handleMessage h msg).
Proof.
  intros Hp Hd Hm.
  destruct msg as [cwd text | o | out | ty]; unfold handleMessage.
  - apply stable_bind; [apply stable_run, Hd | intros _].
    apply stable_bind; [apply stable_updatePrompt, Hp | intros _].
    apply stable_paint; [exact Hp | apply paints_addFormattedOutput].
  - apply stable_bind.
    { destruct (m_interactive o); [| apply stable_ret].
      apply stable_bind; [apply stable_run, Hm | intros _].
      apply stable_updatePromptForMode, Hp. }
    intros _. apply stable_bind.
    { destruct (flag (m_clear_screen o)).
      - apply stable_bind; [apply stable_paint; [exact Hp |] | intros _].
        { intro. eexists. reflexivity. }
        apply stable_when. intro t.
        exact (paints_blind f _ t Hp (paints_addFormattedOutput _ _)).
      - apply stable_when. apply stable_paint;
          [exact Hp | apply paints_addFormattedOutput]. }
    intros _. apply stable_when.
    apply stable_bind; [apply stable_run, Hd | intros _].
    apply stable_updatePrompt, Hp.
  - apply stable_when. apply stable_paint; [exact Hp | apply paints_addRawOutput].
  - apply stable_ret.
Qed.

Lemma page_blind_wire : page_blind wire.
Proof. intros p t. reflexivity. Qed.

Lemma wire_handleMessage h msg t : wire (snd (handleMessage h msg t)) = wire t.
Proof.
  apply (stable_handleMessage wire h msg page_blind_wire); reflexivity.
Qed.

End Painting.

(** ** Enter, frames and the socket *)

Section Wire.

Lemma executeCommand_blank t :
  trim (input_value (page t)) = [] -> executeCommand t = t.
Proof. intros E. unfold executeCommand. rewrite E. reflexivity. Qed.

(** What [executeCommand] does with a command, in Normal mode. *)
Lemma executeCommand_normal t :
  interactiveMode t = false ->
  trim (input_value (page t)) <> [] ->
  let cmd := trim (input_value (page t)) in
  executeCommand t
  = set_input_value []
      ((if socket_open t then send (CommandFrame cmd)
        else addOutput (js "Not connected to server") (js "error-text"))
         (addOutput (getPromptText t ++ cmd) (js "command-line")
            (set_historyIndex (Z.of_nat (length (commandHistory t ++ [cmd])))
               (set_commandHistory (commandHistory t ++ [cmd]) t)))).
Proof.
  intros Hm Hc cmd. unfold executeCommand. fold cmd.
  destruct cmd as [| c cmd'] eqn:E; [contradiction |].
  cbn [truthy negb]. rewrite Hm. cbn [negb]. cbv zeta.
  match goal with
  | |- context [socket_open ?x] => change (socket_open x) with (socket_open t)
  end.
  destruct (socket_open t); reflexivity.
Qed.

Lemma wire_navigateHistory d t : wire (navigateHistory d t) = wire t.
Proof.
  unfold navigateHistory.
  destruct (length (commandHistory t) =? 0)%nat; [reflexivity |].
  cbv zeta.
  destruct (historyIndex (set_historyIndex (historyIndex t + d) t) <? 0)%Z;
    [reflexivity |].
  destruct (_ >=? _)%Z; reflexivity.
Qed.

Lemma socket_navigateHistory d t : socket (navigateHistory d t) = socket t.
Proof. exact (f_equal fst (wire_navigateHistory d t)). Qed.

Lemma socket_handleMessage h msg t :
  socket (snd (handleMessage h msg t)) = socket t.
Proof. exact (f_equal fst (wire_handleMessage h msg t)). Qed.

Lemma socket_sendInputToShell t : socket (sendInputToShell t) = socket t.
Proof.
  unfold sendInputToShell. cbv zeta.
  destruct (truthy (trim (input_value (page t))));
    match goal with
    | |- context [socket_open ?x] => destruct (socket_open x)
    end; reflexivity.
Qed.

Lemma socket_executeCommand t : socket (executeCommand t) = socket t.
Proof.
  unfold executeCommand. cbv zeta.
  destruct (truthy (trim (input_value (page t)))); cbn [negb];
    [| reflexivity].
  destruct (interactiveMode t); cbn [negb];
    match goal with
    | |- context [socket_open ?x] => destruct (socket_open x)
    end; reflexivity.
Qed.

Lemma sent_executeCommand t :
  sent (executeCommand t)
  = sent t
    ++ (if truthy (trim (input_value (page t))) && socket_open t
        then [CommandFrame (trim (input_value (page t)))]
        else []).
Proof.
  unfold executeCommand. cbv zeta.
  destruct (truthy (trim (input_value (page t)))); cbn [negb andb];
    [| symmetry; apply app_nil_r].
  destruct (interactiveMode t); cbn [negb].
  - destruct (socket_open t); [reflexivity | symmetry; apply app_nil_r].
  - match goal with
    | |- context [socket_open ?x] =>
        change (socket_open x) with (socket_open t)
    end.
    destruct (socket_open t); [reflexivity | symmetry; apply app_nil_r].
Qed.

(** The frames an event sends. *)
Lemma sent_step h t ev :
  sent (step h t ev) = sent t
  \/ exists f, sent (step h t ev) = sent t ++ [f] /\ frame_allowed t f.
Proof.
  destruct ev as [key c | v | w hh | | msg | | | |];
    try (left; reflexivity).
  - change (step h t (KeyDown key c)) with (onKeyDown key c t).
    unfold onKeyDown. destruct (str_eqb key (js "Enter")).
    + destruct (interactiveMode t) eqn:Em.
      * rewrite sent_sendInputToShell.
        destruct (socket_open t) eqn:Es; [right | left; apply app_nil_r].
        eexists. split; [reflexivity |]. split; assumption.
      * rewrite sent_executeCommand.
        destruct (truthy _ && socket_open t) eqn:Es;
          [right | left; apply app_nil_r].
        apply andb_true_iff in Es. destruct Es as [_ Es].
        eexists. split; [reflexivity |]. split; assumption.
    + left.
      destruct (_ && _); [exact (f_equal snd (wire_navigateHistory _ t)) |].
      destruct (_ && _); [exact (f_equal snd (wire_navigateHistory _ t)) |].
      destruct (str_eqb key (js "Tab")); reflexivity.
  - unfold step. cbn [handle]. destruct (interactiveMode t) eqn:Em;
      [| left; reflexivity].
    unfold run, sendTerminalResize. cbv zeta. cbn [snd].
    destruct (socket_open t) eqn:Es; [right | left; reflexivity].
    eexists. split; [reflexivity |]. split; assumption.
  - left. exact (f_equal snd (wire_handleMessage h msg t)).
  - left. unfold step. cbn [handle].
    destruct (socket_open t); cbn [run snd]; [| reflexivity].
    unfold disconnect. destruct (socket t) as [[] |]; reflexivity.
Qed.

Lemma socket_step h t ev :
  is_SocketOpen ev = false ->
  socket_open t = false ->
  socket_open (step h t ev) = false.
Proof.
  intros He Hs.
  destruct ev as [key c | v | w hh | | msg | | | |];
    try discriminate; try exact Hs; try reflexivity.
  - change (step h t (KeyDown key c)) with (onKeyDown key c t).
    unfold socket_open in *. unfold onKeyDown.
    destruct (str_eqb key (js "Enter")).
    + destruct (interactiveMode t);
        [rewrite socket_sendInputToShell | rewrite socket_executeCommand];
        exact Hs.
    + destruct (_ && _); [rewrite socket_navigateHistory; exact Hs |].
      destruct (_ && _); [rewrite socket_navigateHistory; exact Hs |].
      destruct (str_eqb key (js "Tab")); exact Hs.
  - unfold step. cbn [handle]. destruct (interactiveMode t); [| exact Hs].
    unfold run, sendTerminalResize. cbv zeta. cbn [snd]. rewrite Hs. exact Hs.
  - unfold socket_open in *. unfold step. cbn [handle].
    rewrite socket_handleMessage. exact Hs.
  - unfold step. cbn [handle]. rewrite Hs. reflexivity.
Qed.

(** X1: Enter in Normal mode.  With an input that is empty after trimming
    nothing happens at all (the input box keeps its text).  Otherwise the
    trimmed command is appended to the history, the cursor moves behind it,
    the command is shown after the prompt and the input box is cleared; the
    command is sent as one [command] frame if the socket is open, and with
    any other socket nothing is sent and the line "Not connected to server"
    is shown as an error. *)
Theorem X1_enter_normal (h : Host) (t : Terminal) (ctrlKey : bool) :
  interactiveMode t = false ->
  let cmd := trim (input_value (page t)) in
  let t' := step h t (KeyDown (js "Enter") ctrlKey) in
  (cmd = [] -> t' = t)
  /\ (cmd <> [] ->
      commandHistory t' = commandHistory t ++ [cmd]
      /\ historyIndex t' = Z.of_nat (length (commandHistory t) + 1)
      /\ input_value (page t') = []
      /\ sent t'
         = sent t ++ (if socket_open t then [CommandFrame cmd] else [])
      /\ output (page t')
         = output (page t)
           ++ text_line (js "command-line") (getPromptText t ++ cmd)
              :: (if socket_open t then []
                  else [text_line (js "error-text")
                          (js "Not connected to server")])).
Proof.
  intros Hm cmd t'.
  assert (Et : t' = executeCommand t).
  { subst t'. change (step h t (KeyDown (js "Enter") ctrlKey))
      with (onKeyDown (js "Enter") ctrlKey t).
    rewrite onKeyDown_Enter, Hm. reflexivity. }
  rewrite Et. clear Et t'. split.
  - apply executeCommand_blank.
  - intros Hc. rewrite (executeCommand_normal t Hm Hc). fold cmd.
    split; [destruct (socket_open t); reflexivity |].
    split; [destruct (socket_open t); cbn [historyIndex set_input_value send
                                            addOutput addFormattedOutput
                                            set_output set_historyIndex];
            rewrite length_app; reflexivity |].
    split; [destruct (socket_open t); reflexivity |].
    split; [destruct (socket_open t);
            [reflexivity | symmetry; apply app_nil_r] |].
    destruct (socket_open t).
    + reflexivity.
    + unfold addOutput.
      change (output (page (set_input_value [] ?x))) with (output (page x)).
      cbn [addFormattedOutput set_output output page].
      rewrite <- app_assoc. reflexivity.
Qed.

Lemma X1_enter_normal_witness :
  let t := steps browser (constructor bare_page) [Edit (js " ls -l  ")] in
  commandHistory (step browser t Enter) = [js "ls -l"]
  /\ sent (step browser t Enter) = []
  /\ length (output (page (step browser t Enter))) = 2%nat.
Proof.
  intros t.
  destruct (X1_enter_normal browser t false eq_refl) as [_ H].
  destruct H as (Hh & _ & _ & Hs & Ho); [vm_compute; discriminate |].
  split; [exact Hh |]. split; [exact Hs |].
  unfold Enter. rewrite Ho. reflexivity.
Defined.

(** X2: an event sends at most one frame, and only through an open socket:
    a [command] frame only in Normal mode, an [input] or a [resize] frame
    only in Interactive mode.  Frames sent before are never taken back. *)
Theorem X2_frames_sent (h : Host) (t : Terminal) (ev : event) :
  sent (step h t ev) = sent t
  \/ exists f,
       sent (step h t ev) = sent t ++ [f]
       /\ socket_open t = true
       /\ match f with
          | CommandFrame _ => interactiveMode t = false
          | InputFrame _ => interactiveMode t = true
          | ResizeFrame _ _ => interactiveMode t = true
          end.
Proof.
  destruct (sent_step h t ev) as [E | (f & E & Hs & Hm)].
  - left. exact E.
  - right. exists f. split; [exact E |]. split; [exact Hs | exact Hm].
Qed.

(** X3: a client whose socket is not open stays silent: whatever keys,
    edits, resizes, messages, clicks and close or error events follow,
    nothing is sent until the socket opens. *)
Theorem X3_silent_while_closed (h : Host) (evs : list event) :
  forall t,
    socket_open t = false ->
    forallb (fun ev => negb (is_SocketOpen ev)) evs = true ->
    sent (steps h t evs) = sent t
    /\ socket_open (steps h t evs) = false.
Proof.
  induction evs as [| ev evs IH]; intros t Hs He; cbn [steps fold_left].
  - split; [reflexivity | exact Hs].
  - cbn [forallb] in He. apply andb_true_iff in He. destruct He as [He1 He2].
    apply negb_true_iff in He1.
    destruct (IH (step h t ev) (socket_step h t ev He1 Hs) He2) as [H1 H2].
    split; [| exact H2].
    unfold steps in H1. rewrite H1.
    destruct (sent_step h t ev) as [E | (f & _ & Ho & _)];
      [exact E | congruence].
Qed.

Lemma X3_silent_while_closed_witness :
  let t := steps browser (constructor bare_page) [SocketOpen; ToggleButton] in
  sent (steps browser t
          [Edit (js "ls"); Enter; SocketMessage interactive_on;
           Edit (js "q"); Enter; Resize 800 600; SocketClose])
  = [].
Proof.
  intros t.
  refine (proj1 (X3_silent_while_closed browser
                   [Edit (js "ls"); Enter; SocketMessage interactive_on;
                    Edit (js "q"); Enter; Resize 800 600; SocketClose]
                   t _ _)); reflexivity.
Defined.

End Wire.

(** ** When [handleMessage] throws *)

Section Faults.

Lemma fst_bind {A B : Type} (c : M A) (k : A -> M B) t :
  fst (bind c k t)
  = match fst (c t) with
    | Normal a => fst (k a (snd (c t)))
    | Throw e => Throw e
    end.
Proof. unfold bind. destruct (c t) as [[a | e] t']; reflexivity. Qed.

Lemma snd_bind {A B : Type} (c : M A) (k : A -> M B) t :
  snd (bind c k t)
  = match fst (c t) with
    | Normal a => snd (k a (snd (c t)))
    | Throw e => snd (c t)
    end.
Proof. unfold bind. destruct (c t) as [[a | e] t']; reflexivity. Qed.

Lemma page_blind_md : page_blind md.
Proof. intros p t. reflexivity. Qed.

Lemma fst_updatePrompt h t :
  fst (updatePrompt h t)
  = outcome_of (prompt_faults h (interactiveMode t) (currentDirectory t)).
Proof.
  unfold updatePrompt, prompt_faults.
  destruct (interactiveMode t); [reflexivity |]. cbn [negb].
  destruct (getShortPath h _); reflexivity.
Qed.

Lemma fst_updatePromptForMode h t :
  fst (updatePromptForMode h t)
  = outcome_of (prompt_faults h (interactiveMode t) (currentDirectory t)).
Proof.
  unfold updatePromptForMode. destruct (interactiveMode t) eqn:Em.
  - reflexivity.
  - rewrite fst_bind. cbn [run fst snd]. rewrite fst_bind.
    rewrite fst_updatePrompt.
    cbn [interactiveMode currentDirectory set_input_placeholder].
    rewrite Em.
    destruct (prompt_faults h false (currentDirectory t)); reflexivity.
Qed.

Lemma handleMessage_Output h o :
  handleMessage h (Output o) = mode_part h o ;; screen_part o ;; cwd_part h o.
Proof. reflexivity. Qed.

Lemma md_mode_part h o t :
  md (snd (mode_part h o t))
  = (mode_after (Output o) t, currentDirectory t).
Proof.
  unfold mode_part. cbn [mode_after].
  destruct (m_interactive o) as [b |]; [| reflexivity].
  rewrite snd_bind. cbn [run fst snd].
  rewrite (stable_updatePromptForMode md h page_blind_md). reflexivity.
Qed.

Lemma fst_mode_part h o t :
  fst (mode_part h o t)
  = outcome_of
      match m_interactive o with
      | Some _ => prompt_faults h (mode_after (Output o) t) (currentDirectory t)
      | None => None
      end.
Proof.
  unfold mode_part. cbn [mode_after].
  destruct (m_interactive o) as [b |]; [| reflexivity].
  rewrite fst_bind. cbn [run fst snd]. rewrite fst_updatePromptForMode.
  reflexivity.
Qed.

Lemma paints_screen_part o : paints (fun t => snd (screen_part o t)).
Proof.
  intro t. unfold screen_part.
  destruct (flag (m_clear_screen o)).
  - rewrite snd_bind. cbn [run fst snd].
    destruct (is_not_clear (m_command o)); cbn [when ret snd];
      eexists; reflexivity.
  - destruct (present (m_output o)); cbn [when ret run snd];
      [eexists; reflexivity | apply paints_id].
Qed.

Lemma fst_screen_part o t : fst (screen_part o t) = Normal tt.
Proof.
  unfold screen_part. destruct (flag (m_clear_screen o)).
  - rewrite fst_bind. cbn [run fst snd].
    destruct (is_not_clear (m_command o)); reflexivity.
  - destruct (present (m_output o)); reflexivity.
Qed.

Lemma fst_cwd_part h o t :
  fst (cwd_part h o t)
  = outcome_of
      (if present (m_cwd o)
       then prompt_faults h (interactiveMode t) (template (m_cwd o))
       else None).
Proof.
  unfold cwd_part. destruct (present (m_cwd o)); [| reflexivity].
  cbn [when]. rewrite fst_bind. cbn [run fst snd]. rewrite fst_updatePrompt.
  reflexivity.
Qed.

(** The exception a message ends with, read off the mode and the
    directories. *)
Lemma fst_handleMessage h msg t :
  fst (handleMessage h msg t) = outcome_of (message_faults h msg t).
Proof.
  destruct msg as [cwd text | o | out | ty].
  - unfold handleMessage. rewrite fst_bind. cbn [run fst snd].
    rewrite fst_bind, fst_updatePrompt.
    cbn [interactiveMode currentDirectory set_currentDirectory
         message_faults].
    destruct (prompt_faults h (interactiveMode t) cwd); reflexivity.
  - rewrite handleMessage_Output, fst_bind, fst_mode_part.
    cbn [message_faults].
    destruct (match m_interactive o with
              | Some _ => _
              | None => None
              end) as [e |]; [reflexivity |].
    cbn [outcome_of]. rewrite fst_bind, fst_screen_part, fst_cwd_part.
    pose proof (paints_blind md _ (snd (mode_part h o t)) page_blind_md
                  (paints_screen_part o)) as Hm.
    cbv beta in Hm. rewrite md_mode_part in Hm.
    apply (f_equal fst) in Hm. cbn [md fst] in Hm. rewrite Hm. reflexivity.
  - unfold handleMessage. destruct (present out); reflexivity.
  - reflexivity.
Qed.

Lemma prompt_faults_process h mode cwd :
  process_env_USER h <> None -> prompt_faults h mode cwd = None.
Proof.
  intros Hp. unfold prompt_faults. destruct mode; [reflexivity |].
  unfold getShortPath. destruct (negb (truthy cwd)); [reflexivity |].
  destruct (process_env_USER h) as [user |]; [| contradiction].
  cbv zeta. destruct (startsWith _ _); [reflexivity |].
  destruct (_ <? _)%nat; reflexivity.
Qed.

(** X6: on a host where [process.env.USER] can be evaluated, to a string or
    to [undefined], [handleMessage] throws for no message and in no state:
    a parsed message, its fields typed as in the protocol table, is handled
    to the end on a page that has the elements the script looks up.  (The
    parsing of the frame, which the listener does first, is not part of
    [handleMessage].) *)
Theorem X6_no_fault_with_process (h : Host) (t : Terminal) (msg : message) :
  process_env_USER h <> None -> fst (handleMessage h msg t) = Normal tt.
Proof.
  intros Hp. rewrite fst_handleMessage.
  destruct msg as [cwd text | o | out | ty]; cbn [message_faults];
    rewrite ?prompt_faults_process by assumption; try reflexivity.
  destruct (m_interactive o), (present (m_cwd o)); reflexivity.
Qed.

Lemma X6_no_fault_with_process_witness :
  fst (handleMessage (MkHost (Some None))
         (Prompt (js "/srv/app") (js "Welcome")) (constructor bare_page))
  = Normal tt.
Proof. apply X6_no_fault_with_process. discriminate. Defined.

(** X7: on a page whose host has no [process], [handleMessage], given a
    parsed message with its fields typed as in the protocol table, throws in
    exactly these cases: a [prompt] message with a directory that is not
    empty, received in Normal mode; an [output] message with [interactive:
    false] when a directory is known or the message brings one; an [output]
    message without the flag that brings a directory in Normal mode.  What it
    throws is the ReferenceError for [process]; every other message is
    handled to the end. *)
Theorem X7_faults_in_browser (t : Terminal) (msg : message) :
  fst (handleMessage browser msg t)
  = if throws_in_browser msg t then Throw (ReferenceError (js "process"))
    else Normal tt.
Proof.
  rewrite fst_handleMessage.
  destruct msg as [cwd text | o | out | ty];
    cbn [message_faults throws_in_browser mode_after]; try reflexivity.
  - destruct (interactiveMode t), cwd; reflexivity.
  - unfold present.
    destruct (m_interactive o) as [[|] |], (interactiveMode t),
      (currentDirectory t), (m_cwd o) as [[| c1 cs1] |]; reflexivity.
Qed.

End Faults.

(** ** The directory, the output element and the prompt *)

Section PageFacts.

Lemma extends_refl {A : Type} (l : list A) : extends l l.
Proof. exists []. symmetry. apply app_nil_r. Qed.

Lemma extends_appends l t : extends (shown t) (shown (appends l t)).
Proof. exists l. reflexivity. Qed.

Lemma shown_updatePrompt h t : shown (snd (updatePrompt h t)) = shown t.
Proof. apply output_updatePrompt. Qed.

Lemma shown_write_mode_indicator a b t :
  shown (write_mode_indicator a b t) = shown t.
Proof.
  unfold write_mode_indicator. destruct (mode_indicator (page t)); reflexivity.
Qed.

Lemma shown_updatePromptForMode h t :
  shown (snd (updatePromptForMode h t)) = shown t.
Proof.
  unfold updatePromptForMode. destruct (interactiveMode t).
  - rewrite !snd_bind. cbn [run fst snd].
    rewrite shown_write_mode_indicator. reflexivity.
  - rewrite snd_bind. cbn [run fst snd]. rewrite snd_bind.
    destruct (fst (updatePrompt h _)) eqn:E.
    + cbn [run snd]. rewrite shown_write_mode_indicator, shown_updatePrompt.
      reflexivity.
    + rewrite shown_updatePrompt. reflexivity.
Qed.

Lemma shown_mode_part h o t : shown (snd (mode_part h o t)) = shown t.
Proof.
  unfold mode_part. destruct (m_interactive o); [| reflexivity].
  rewrite snd_bind. cbn [run fst snd]. rewrite shown_updatePromptForMode.
  reflexivity.
Qed.

Lemma shown_cwd_part h o t : shown (snd (cwd_part h o t)) = shown t.
Proof. apply output_after_cwd. Qed.

Lemma shown_screen_part o t :
  flag (m_clear_screen o) = false ->
  extends (shown t) (shown (snd (screen_part o t))).
Proof.
  intros E. unfold screen_part. rewrite E.
  destruct (present (m_output o)); cbn [when ret run snd].
  - eexists. reflexivity.
  - apply extends_refl.
Qed.

Lemma shown_handleMessage h msg t :
  clears (SocketMessage msg) = false ->
  extends (shown t) (shown (snd (handleMessage h msg t))).
Proof.
  intros Hc. destruct msg as [cwd text | o | out | ty].
  - unfold handleMessage. rewrite snd_bind. cbn [run fst snd].
    rewrite snd_bind.
    destruct (fst (updatePrompt h _)).
    + cbn [run snd]. eexists. unfold shown at 1.
      change (shown t) with (shown (set_currentDirectory cwd t)).
      rewrite <- (shown_updatePrompt h (set_currentDirectory cwd t)).
      reflexivity.
    + rewrite shown_updatePrompt. apply extends_refl.
  - rewrite handleMessage_Output, snd_bind.
    destruct (fst (mode_part h o t));
      [| rewrite shown_mode_part; apply extends_refl].
    rewrite snd_bind, fst_screen_part, shown_cwd_part.
    rewrite <- (shown_mode_part h o t) at 1.
    apply shown_screen_part. exact Hc.
  - unfold handleMessage. destruct (present out); cbn [when ret run snd].
    + destruct (addRawOutput_appends (template out) t) as [l ->].
      apply extends_appends.
    + apply extends_refl.
  - apply extends_refl.
Qed.

Lemma shown_executeCommand t : extends (shown t) (shown (executeCommand t)).
Proof.
  unfold executeCommand. cbv zeta.
  destruct (truthy (trim (input_value (page t)))); cbn [negb];
    [| apply extends_refl].
  destruct (interactiveMode t); cbn [negb];
    match goal with
    | |- context [socket_open ?x] => destruct (socket_open x)
    end; unfold shown, addOutput;
    cbn [output page set_input_value send addFormattedOutput set_output
         set_historyIndex set_commandHistory];
    rewrite <- ?app_assoc; try (eexists; reflexivity); apply extends_refl.
Qed.

Lemma shown_sendInputToShell t :
  extends (shown t) (shown (sendInputToShell t)).
Proof.
  unfold sendInputToShell. cbv zeta.
  destruct (truthy (trim (input_value (page t))));
    match goal with
    | |- context [socket_open ?x] => destruct (socket_open x)
    end; unfold shown;
    cbn [output page set_input_value send addFormattedOutput set_output];
    try (eexists; reflexivity); apply extends_refl.
Qed.

Lemma page_navigateHistory d t :
  exists v, page (navigateHistory d t) = page (set_input_value v t).
Proof.
  unfold navigateHistory.
  destruct (length (commandHistory t) =? 0)%nat.
  - exists (input_value (page t)). destruct t as [s [] hs i c m l f].
    reflexivity.
  - cbv zeta.
    destruct (historyIndex (set_historyIndex (historyIndex t + d) t) <? 0)%Z;
      [eexists; reflexivity |].
    destruct (_ >=? _)%Z; eexists; reflexivity.
Qed.

Lemma page_onKeyDown_shown key c t :
  extends (shown t) (shown (onKeyDown key c t)).
Proof.
  unfold onKeyDown. destruct (str_eqb key (js "Enter")).
  - destruct (interactiveMode t);
      [apply shown_sendInputToShell | apply shown_executeCommand].
  - assert (Hn : forall d, extends (shown t) (shown (navigateHistory d t))).
    { intros d. destruct (page_navigateHistory d t) as [v Hv].
      unfold shown. rewrite Hv. apply extends_refl. }
    destruct (_ && _); [apply Hn |].
    destruct (_ && _); [apply Hn |].
    destruct (str_eqb key (js "Tab")); apply extends_refl.
Qed.

(** X10: the output element only grows: every event other than the Clear
    button and an [output] message with [clear_screen] leaves the lines
    shown so far in place and in order, and at most adds lines after them
    (also when its listener throws). *)
Theorem X10_output_grows (h : Host) (t : Terminal) (ev : event) :
  clears ev = false ->
  exists added, output (page (step h t ev)) = output (page t) ++ added.
Proof.
  intros Hc.
  change (extends (shown t) (shown (step h t ev))).
  destruct ev as [key c | v | w hh | | msg | | | |]; try discriminate.
  - apply page_onKeyDown_shown.
  - apply extends_refl.
  - unfold step. cbn [handle]. destruct (interactiveMode t);
      [| apply extends_refl].
    unfold run, sendTerminalResize. cbv zeta. cbn [snd].
    destruct (socket_open t); apply extends_refl.
  - eexists. reflexivity.
  - apply shown_handleMessage, Hc.
  - eexists. reflexivity.
  - eexists. reflexivity.
  - unfold step. cbn [handle]. destruct (socket_open t); cbn [run snd].
    + unfold disconnect. destruct (socket t) as [[] |]; apply extends_refl.
    + apply extends_refl.
Qed.

Lemma X10_output_grows_witness :
  exists added,
    output (page (step browser typed3
                    (SocketMessage (ShellOutput (Some (js "a" ++ [LF]))))))
    = output (page typed3) ++ added.
Proof. apply X10_output_grows. reflexivity. Defined.

End PageFacts.

Section Directory.

Lemma cwd_blind_page g t :
  paints g -> currentDirectory (g t) = currentDirectory t.
Proof. intros Hg. destruct (Hg t) as [p ->]. reflexivity. Qed.

Lemma md_onKeyDown key c t : md (onKeyDown key c t) = md t.
Proof.
  unfold md. rewrite mode_onKeyDown. f_equal.
  unfold onKeyDown. destruct (str_eqb key (js "Enter")).
  - destruct (interactiveMode t).
    + unfold sendInputToShell. cbv zeta.
      destruct (truthy (trim (input_value (page t))));
        match goal with
        | |- context [socket_open ?x] => destruct (socket_open x)
        end; reflexivity.
    + unfold executeCommand. cbv zeta.
      destruct (truthy (trim (input_value (page t)))); cbn [negb];
        [| reflexivity].
      destruct (interactiveMode t); cbn [negb];
        match goal with
        | |- context [socket_open ?x] => destruct (socket_open x)
        end; reflexivity.
  - assert (Hn : forall d,
               currentDirectory (navigateHistory d t) = currentDirectory t).
    { intros d. unfold navigateHistory.
      destruct (length (commandHistory t) =? 0)%nat; [reflexivity |].
      cbv zeta.
      destruct (historyIndex (set_historyIndex (historyIndex t + d) t) <? 0)%Z;
        [reflexivity |].
      destruct (_ >=? _)%Z; reflexivity. }
    destruct (_ && _); [apply Hn |].
    destruct (_ && _); [apply Hn |].
    destruct (str_eqb key (js "Tab")); reflexivity.
Qed.

Lemma cwd_updatePrompt h t :
  currentDirectory (snd (updatePrompt h t)) = currentDirectory t.
Proof.
  exact (f_equal snd (stable_updatePrompt md h page_blind_md t)).
Qed.

Lemma cwd_handleMessage_Output h o t :
  currentDirectory (snd (handleMessage h (Output o) t)) = currentDirectory t
  \/ exists cwd,
       m_cwd o = Some cwd /\ cwd <> []
       /\ currentDirectory (snd (handleMessage h (Output o) t)) = cwd.
Proof.
  rewrite handleMessage_Output, snd_bind.
  pose proof (f_equal snd (md_mode_part h o t)) as Hm. cbn [md snd] in Hm.
  destruct (fst (mode_part h o t)); [| left; exact Hm].
  rewrite snd_bind, fst_screen_part.
  pose proof (cwd_blind_page _ (snd (mode_part h o t)) (paints_screen_part o))
    as Hs.
  cbv beta in Hs. rewrite Hm in Hs.
  unfold cwd_part. destruct (m_cwd o) as [cwd |] eqn:Ec; cbn [present].
  - destruct cwd as [| c1 cwd]; cbn [truthy when ret snd];
      [left; exact Hs |].
    right. exists (c1 :: cwd). split; [reflexivity |].
    split; [discriminate |].
    rewrite snd_bind. cbn [run fst snd template].
    rewrite cwd_updatePrompt. reflexivity.
  - cbn [when ret snd]. left. exact Hs.
Qed.

(** X9: the current directory changes only when the server says so: an
    event that changes it is a [prompt] message, whose directory it becomes,
    or an [output] message that carries a [cwd] that is not empty, which it
    becomes.  No key, edit, click or socket event changes it. *)
Theorem X9_directory_from_server (h : Host) (t : Terminal) (ev : event) :
  currentDirectory (step h t ev) <> currentDirectory t ->
  (exists text,
     ev = SocketMessage (Prompt (currentDirectory (step h t ev)) text))
  \/ (exists o,
        ev = SocketMessage (Output o)
        /\ m_cwd o = Some (currentDirectory (step h t ev))
        /\ currentDirectory (step h t ev) <> []).
Proof.
  intros Hd.
  destruct ev as [key c | v | w hh | | msg | | | |];
    try (exfalso; apply Hd; reflexivity).
  - exfalso. apply Hd. exact (f_equal snd (md_onKeyDown key c t)).
  - exfalso. apply Hd. unfold step. cbn [handle].
    destruct (interactiveMode t); [| reflexivity].
    unfold run, sendTerminalResize. cbv zeta. cbn [snd].
    destruct (socket_open t); reflexivity.
  - destruct msg as [cwd text | o | out | ty].
    + left. exists text. f_equal. f_equal.
      unfold step. cbn [handle]. unfold handleMessage.
      rewrite snd_bind. cbn [run fst snd]. rewrite snd_bind.
      destruct (fst (updatePrompt h _)); cbn [run snd];
        rewrite ?cwd_blind_page by apply paints_addFormattedOutput;
        rewrite cwd_updatePrompt; reflexivity.
    + right. exists o. split; [reflexivity |].
      destruct (cwd_handleMessage_Output h o t) as [E | (cwd & E1 & E2 & E3)].
      * exfalso. apply Hd. exact E.
      * unfold step. cbn [handle]. rewrite E3. split; assumption.
    + exfalso. apply Hd. unfold step. cbn [handle]. unfold handleMessage.
      destruct (present out); cbn [when ret run snd]; [| reflexivity].
      apply cwd_blind_page, paints_addRawOutput.
    + exfalso. apply Hd. reflexivity.
  - exfalso. apply Hd. unfold step. cbn [handle].
    destruct (socket_open t); cbn [run snd]; [| reflexivity].
    unfold disconnect. destruct (socket t) as [[] |]; reflexivity.
Qed.

Lemma X9_directory_from_server_witness :
  let o := OutputMessage None (Some true) (Some (js "/tmp")) None None None
             (Some (js "cd /tmp")) in
  exists o',
    SocketMessage (Output o) = SocketMessage (Output o')
    /\ m_cwd o' = Some (js "/tmp").
Proof.
  intros o.
  destruct (X9_directory_from_server browser typed3 (SocketMessage (Output o)))
    as [[text E] | (o' & E1 & E2 & _)].
  - vm_compute. discriminate.
  - discriminate E.
  - exists o'. split; [exact E1 | exact E2].
Defined.

(** X8: a [prompt] message always records its directory.  In Interactive
    mode the welcome text is shown and the prompt is left alone.  In Normal
    mode, if the path shortens, the prompt becomes the short path and "$",
    the directory element shows the directory, and then the welcome text is
    shown; if [getShortPath] throws, the page stays exactly as it was: the
    welcome text is never shown. *)
Theorem X8_prompt_message (h : Host) (t : Terminal) (cwd text : jsstring) :
  let t' := step h t (SocketMessage (Prompt cwd text)) in
  let welcome := text_line (js "success-text") text in
  currentDirectory t' = cwd
  /\ (interactiveMode t = true -> page t' = page (appends [welcome] t))
  /\ (interactiveMode t = false ->
      (forall shortPath,
         getShortPath h (Some cwd) = Normal shortPath ->
         page t'
         = page (appends [welcome]
                   (set_directory_text cwd
                      (set_prompt_text (shortPath ++ js "$") t))))
      /\ (forall e, getShortPath h (Some cwd) = Throw e -> page t' = page t)).
Proof.
  intros t' welcome. subst t'. unfold step. cbn [handle].
  unfold handleMessage. rewrite snd_bind. cbn [run fst snd].
  rewrite snd_bind. unfold updatePrompt.
  cbn [interactiveMode currentDirectory set_currentDirectory].
  split; [| split].
  - destruct (interactiveMode t); cbn [negb fst snd run]; [reflexivity |].
    destruct (getShortPath h (Some cwd)); reflexivity.
  - intros ->. reflexivity.
  - intros ->. cbn [negb]. split.
    + intros shortPath ->. reflexivity.
    + intros e ->. reflexivity.
Qed.

Lemma X8_prompt_message_witness :
  let t := steps browser (constructor bare_page) [SocketOpen] in
  page (step browser t (SocketMessage (Prompt (js "/srv") (js "Welcome"))))
  = page t
  /\ page (step (MkHost (Some None)) t
             (SocketMessage (Prompt (js "/srv") (js "Welcome"))))
     = page (appends [text_line (js "success-text") (js "Welcome")]
               (set_directory_text (js "/srv")
                  (set_prompt_text (js "/srv$") t))).
Proof.
  intros t.
  destruct (X8_prompt_message browser t (js "/srv") (js "Welcome"))
    as (_ & _ & Hb).
  destruct (X8_prompt_message (MkHost (Some None)) t (js "/srv")
              (js "Welcome")) as (_ & _ & Hp).
  split.
  - apply (proj2 (Hb eq_refl) (ReferenceError (js "process"))). reflexivity.
  - apply (proj1 (Hp eq_refl) (js "/srv")). reflexivity.
Defined.

End Directory.

Section PromptSign.

Lemma prompt_onKeyDown key c t :
  prompt_text (page (onKeyDown key c t)) = prompt_text (page t).
Proof.
  unfold onKeyDown. destruct (str_eqb key (js "Enter")).
  - destruct (interactiveMode t).
    + unfold sendInputToShell. cbv zeta.
      destruct (truthy (trim (input_value (page t))));
        match goal with
        | |- context [socket_open ?x] => destruct (socket_open x)
        end; reflexivity.
    + unfold executeCommand. cbv zeta.
      destruct (truthy (trim (input_value (page t)))); cbn [negb];
        [| reflexivity].
      destruct (interactiveMode t); cbn [negb];
        match goal with
        | |- context [socket_open ?x] => destruct (socket_open x)
        end; reflexivity.
  - assert (Hn : forall d,
               prompt_text (page (navigateHistory d t))
               = prompt_text (page t)).
    { intros d. destruct (page_navigateHistory d t) as [v ->]. reflexivity. }
    destruct (_ && _); [apply Hn |].
    destruct (_ && _); [apply Hn |].
    destruct (str_eqb key (js "Tab")); reflexivity.
Qed.

Lemma updatePrompt_interactive h t :
  interactiveMode t = true -> updatePrompt h t = (Normal tt, t).
Proof. intros E. unfold updatePrompt. rewrite E. reflexivity. Qed.

Lemma prompt_write_mode_indicator a b t :
  prompt_text (page (write_mode_indicator a b t)) = prompt_text (page t).
Proof.
  unfold write_mode_indicator. destruct (mode_indicator (page t)); reflexivity.
Qed.

Lemma prompt_screen_part o t :
  prompt_text (page (snd (screen_part o t))) = prompt_text (page t).
Proof.
  unfold screen_part. destruct (flag (m_clear_screen o)).
  - rewrite snd_bind. cbn [run fst snd].
    destruct (is_not_clear (m_command o)); reflexivity.
  - destruct (present (m_output o)); reflexivity.
Qed.

Lemma prompt_cwd_part_interactive h o t :
  interactiveMode t = true ->
  prompt_text (page (snd (cwd_part h o t))) = prompt_text (page t).
Proof.
  intros E. unfold cwd_part. destruct (present (m_cwd o)); [| reflexivity].
  cbn [when]. rewrite snd_bind. cbn [run fst snd].
  rewrite updatePrompt_interactive by exact E. reflexivity.
Qed.

Lemma mode_screen_part o t :
  interactiveMode (snd (screen_part o t)) = interactiveMode t.
Proof.
  exact (f_equal fst (paints_blind md _ t page_blind_md (paints_screen_part o))).
Qed.

Lemma prompt_sign_step h t ev :
  (interactiveMode t = true -> prompt_text (page t) = js ">") ->
  interactiveMode (step h t ev) = true ->
  prompt_text (page (step h t ev)) = js ">".
Proof.
  intros Hinv Hm'.
  pose proof (f_equal snd (core_step h t ev)) as Hc. cbn [core snd] in Hc.
  destruct ev as [key c | v | w hh | | msg | | | |];
    try (cbn [core snd] in Hc; rewrite Hc in Hm'; exact (Hinv Hm')).
  - clear Hc. change (step h t (KeyDown key c)) with (onKeyDown key c t) in *.
    rewrite mode_onKeyDown in Hm'.
    rewrite prompt_onKeyDown. exact (Hinv Hm').
  - cbn [core snd] in Hc. rewrite Hc in Hm'. specialize (Hinv Hm').
    unfold step. cbn [handle]. rewrite Hm'.
    unfold run, sendTerminalResize. cbv zeta. cbn [snd].
    destruct (socket_open t); exact Hinv.
  - cbn [core snd] in Hc. rewrite Hc in Hm'. clear Hc.
    unfold step. cbn [handle].
    destruct msg as [cwd text | o | out | ty]; cbn [mode_after] in Hm'.
    + specialize (Hinv Hm'). unfold handleMessage.
      rewrite snd_bind. cbn [run fst snd].
      rewrite snd_bind, updatePrompt_interactive by exact Hm'.
      cbn [fst snd run]. exact Hinv.
    + rewrite handleMessage_Output, snd_bind.
      assert (H1 : fst (mode_part h o t) = Normal tt
                   /\ interactiveMode (snd (mode_part h o t)) = true
                   /\ prompt_text (page (snd (mode_part h o t))) = js ">").
      { unfold mode_part. destruct (m_interactive o) as [b |].
        - subst b. rewrite fst_bind, snd_bind. cbn [run fst snd].
          unfold updatePromptForMode.
          cbn [interactiveMode set_interactiveMode].
          rewrite !fst_bind, !snd_bind. cbn [run fst snd].
          split; [reflexivity |]. split.
          + rewrite (core_mode _ _ (core_write_mode_indicator _ _ _)).
            reflexivity.
          + rewrite prompt_write_mode_indicator. reflexivity.
        - cbn [ret fst snd]. auto. }
      destruct H1 as (-> & H2 & H3).
      rewrite snd_bind, fst_screen_part.
      rewrite prompt_cwd_part_interactive
        by (rewrite mode_screen_part; exact H2).
      rewrite prompt_screen_part. exact H3.
    + specialize (Hinv Hm'). unfold handleMessage.
      destruct (present out); cbn [when ret run snd]; [| exact Hinv].
      destruct (addRawOutput_appends (template out) t) as [l ->].
      exact Hinv.
    + exact (Hinv Hm').
  - cbn [core snd] in Hc. rewrite Hc in Hm'. specialize (Hinv Hm').
    unfold step. cbn [handle]. destruct (socket_open t); cbn [run snd].
    + unfold disconnect. destruct (socket t) as [[] |]; exact Hinv.
    + exact Hinv.
Qed.

(** X20: in every reachable state, while the mode is Interactive the prompt
    element shows ">": the flag that turns the mode on sets it, and nothing
    that happens in Interactive mode (a directory from the server included)
    writes the prompt. *)
Theorem X20_interactive_prompt_sign (h : Host) (t : Terminal) :
  reachable h t ->
  interactiveMode t = true ->
  prompt_text (page t) = js ">".
Proof.
  induction 1 as [p | t ev _ IH].
  - discriminate.
  - apply prompt_sign_step, IH.
Qed.

Lemma X20_interactive_prompt_sign_witness :
  prompt_text
    (page (steps browser typed3
             [SocketMessage interactive_on;
              SocketMessage (Prompt (js "/srv") (js "hello"));
              Edit (js "ls"); Enter]))
  = js ">".
Proof.
  apply (X20_interactive_prompt_sign browser).
  - apply reachable_steps, typed3_reachable.
  - reflexivity.
Defined.

End PromptSign.

(** ** Trimming *)

Section Trimming.

Lemma star_loop_end p cap s :
  forall pv,
    (forallb p s = true ->
     exists pv', star_loop p cap pv s end_k = Some (MState pv' [] cap))
    /\ (forallb p s = false -> star_loop p cap pv s end_k = None).
Proof.
  induction s as [| c s IH]; intros pv; cbn [star_loop forallb].
  - split; [| discriminate]. intros _. exists pv. reflexivity.
  - destruct (p c); cbn [andb].
    + destruct (IH (Some c)) as [Hy Hn]. split.
      * intros E. destruct (Hy E) as [pv' ->]. exists pv'. reflexivity.
      * intros E. rewrite (Hn E). reflexivity.
    + split; [discriminate | reflexivity].
Qed.

Lemma exec_at_re_trim pv s :
  exec_at false re_trim pv s
  = match s with
    | [] => None
    | c :: s' =>
        match pv with
        | None =>
            if is_space c then Some (S (span_len is_space s'), None) else None
        | Some _ =>
            if is_space c && forallb is_space s'
            then Some (S (length s'), None)
            else None
        end
    end.
Proof.
  unfold exec_at, re_trim. destruct s as [| c s]; [destruct pv; reflexivity |].
  destruct pv as [a |].
  - change (rmatch false
              (RAlt (RSeq RBol (RPlus is_space)) (RSeq (RPlus is_space) REol))
              (MState (Some a) (c :: s) None) Some)
      with (if is_space c then star_loop is_space None (Some c) s end_k
            else None).
    destruct (is_space c); [| reflexivity]. cbn [andb].
    destruct (star_loop_end is_space None s (Some c)) as [Hy Hn].
    destruct (forallb is_space s).
    + destruct (Hy eq_refl) as [pv' ->]. cbn [ms_rest ms_cap length].
      rewrite Nat.sub_0_r. reflexivity.
    + rewrite (Hn eq_refl). reflexivity.
  - change (rmatch false
              (RAlt (RSeq RBol (RPlus is_space)) (RSeq (RPlus is_space) REol))
              (MState None (c :: s) None) Some)
      with (match (if is_space c
                   then star_loop is_space None (Some c) s Some
                   else None)
            with
            | Some res => Some res
            | None =>
                if is_space c then star_loop is_space None (Some c) s end_k
                else None
            end).
    destruct (is_space c); [| reflexivity].
    destruct (star_loop_total is_space None s (Some c)) as [pv' ->].
    cbn [ms_rest ms_cap]. f_equal. f_equal.
    pose proof (span_len_le is_space s). rewrite length_skipn.
    cbn [length]. lia.
Qed.

Lemma replace_go_trim_inner s :
  forall a n,
    replace_go false re_trim [] (Some a) n s = rstrip (skipn n s).
Proof.
  induction s as [| c s IH]; intros a n.
  - destruct n; reflexivity.
  - destruct n as [| n]; cbn [replace_go skipn]; [| apply IH].
    rewrite exec_at_re_trim. cbn [rstrip].
    destruct (is_space c && forallb is_space s).
    + cbn [app]. rewrite IH, skipn_all. reflexivity.
    + rewrite IH. reflexivity.
Qed.

Lemma trimStart_skipn s : trimStart s = skipn (span_len is_space s) s.
Proof.
  induction s as [| c s IH]; [reflexivity |]. cbn [trimStart span_len].
  destruct (is_space c); [exact IH | reflexivity].
Qed.

Lemma replace_trim_rstrip s : replace false re_trim [] s = rstrip (trimStart s).
Proof.
  unfold replace. destruct s as [| c s]; [reflexivity |].
  cbn [replace_go trimStart]. rewrite exec_at_re_trim.
  destruct (is_space c) eqn:Ec.
  - cbn [app]. rewrite replace_go_trim_inner, trimStart_skipn. reflexivity.
  - rewrite (replace_go_trim_inner s c 0). cbn [skipn rstrip]. rewrite Ec.
    reflexivity.
Qed.

Lemma trimStart_app a b :
  trimStart (a ++ b)
  = if forallb is_space a then trimStart b else trimStart a ++ b.
Proof.
  induction a as [| c a IH]; [reflexivity |]. cbn [app trimStart forallb].
  destruct (is_space c); [exact IH | reflexivity].
Qed.

Lemma forallb_rev (p : char -> bool) s : forallb p (rev s) = forallb p s.
Proof.
  induction s as [| c s IH]; [reflexivity |]. cbn [rev forallb].
  rewrite forallb_app, IH. cbn [forallb]. rewrite andb_true_r.
  apply andb_comm.
Qed.

Lemma rstrip_spaces s : forallb is_space s = true -> rstrip s = [].
Proof.
  destruct s as [| c s]; [reflexivity |]. cbn [forallb rstrip].
  intros ->. reflexivity.
Qed.

Lemma trimEnd_rstrip s : trimEnd s = rstrip s.
Proof.
  unfold trimEnd. induction s as [| c s IH]; [reflexivity |].
  cbn [rev rstrip]. rewrite trimStart_app, forallb_rev.
  destruct (forallb is_space s) eqn:Es.
  - rewrite andb_true_r. cbn [trimStart].
    destruct (is_space c); [reflexivity |].
    cbn [rev app]. rewrite (rstrip_spaces s Es). reflexivity.
  - rewrite andb_false_r, rev_app_distr. cbn [rev app]. rewrite IH.
    reflexivity.
Qed.

Lemma trim_rstrip s : trim s = rstrip (trimStart s).
Proof. unfold trim. apply trimEnd_rstrip. Qed.

Lemma replace_trim s : replace false re_trim [] s = trim s.
Proof. rewrite replace_trim_rstrip, trim_rstrip. reflexivity. Qed.

Lemma forallb_rstrip s : forallb is_space (rstrip s) = forallb is_space s.
Proof.
  induction s as [| c s IH]; [reflexivity |]. cbn [rstrip forallb].
  destruct (is_space c) eqn:Ec; cbn [andb].
  - destruct (forallb is_space s) eqn:Es; [reflexivity |].
    cbn [forallb]. rewrite Ec, IH. reflexivity.
  - cbn [forallb]. rewrite Ec. reflexivity.
Qed.

Lemma rstrip_rstrip s : rstrip (rstrip s) = rstrip s.
Proof.
  induction s as [| c s IH]; [reflexivity |]. cbn [rstrip].
  destruct (is_space c && forallb is_space s) eqn:E; [reflexivity |].
  cbn [rstrip]. rewrite forallb_rstrip, E, IH. reflexivity.
Qed.

Lemma trimStart_fixed s :
  match s with c :: _ => is_space c = false | [] => True end ->
  trimStart s = s.
Proof. destruct s as [| c s]; [reflexivity |]. cbn. intros ->. reflexivity. Qed.

Lemma trimStart_head s :
  match trimStart s with c :: _ => is_space c = false | [] => True end.
Proof.
  induction s as [| c s IH]; [exact I |]. cbn [trimStart].
  destruct (is_space c) eqn:E; [exact IH | exact E].
Qed.

Lemma rstrip_head s :
  match s with c :: _ => is_space c = false | [] => True end ->
  match rstrip s with c :: _ => is_space c = false | [] => True end.
Proof.
  destruct s as [| c s]; [trivial |]. cbn [rstrip]. intros E. rewrite E.
  exact E.
Qed.

Lemma trim_trim s : trim (trim s) = trim s.
Proof.
  rewrite !trim_rstrip.
  rewrite (trimStart_fixed (rstrip (trimStart s))).
  - apply rstrip_rstrip.
  - apply rstrip_head, trimStart_head.
Qed.

(** X4: the pattern [/^\s+|\s+$/g] with which [addFormattedOutput] cleans a
    raw line removes exactly what [trim] removes, for every text; so a raw
    line is shown as its trimmed text, and as the spacer of minimal height
    when nothing but whitespace is in it. *)
Theorem X4_raw_line_trimmed (text : jsstring) (t : Terminal) :
  replace false re_trim [] text = trim text
  /\ addFormattedOutput text (js "raw-output") t
     = appends
         [if truthy (trim text) then text_line (js "raw-output") (trim text)
          else spacer]
         t.
Proof.
  split; [apply replace_trim |].
  unfold addFormattedOutput. cbv zeta.
  change (str_eqb (js "raw-output") (js "raw-output")) with true. cbv iota.
  rewrite replace_trim. destruct (truthy (trim text)); reflexivity.
Qed.

End Trimming.

(** ** The history *)

Section History.

Lemma history_step h t ev :
  commandHistory (step h t ev) = commandHistory t
  \/ (trim (input_value (page t)) <> []
      /\ commandHistory (step h t ev)
         = commandHistory t ++ [trim (input_value (page t))]).
Proof.
  pose proof (core_step h t ev) as E.
  destruct ev as [key c | | | | msg | | | |];
    try (left; exact (proj1 (core_history _ _ E)));
    try (left; exact (f_equal (fun x => fst (fst x)) E)).
  clear E. change (step h t (KeyDown key c)) with (onKeyDown key c t).
  destruct (str_eqb key (js "Enter")) eqn:Ek.
  - apply str_eqb_eq in Ek. subst key. rewrite onKeyDown_Enter.
    destruct (interactiveMode t) eqn:Em.
    + left. apply (core_history _ _ (core_sendInputToShell t)).
    + pose proof (core_executeCommand t) as E. rewrite Em in E.
      destruct (truthy (trim (input_value (page t)))) eqn:Et; cbn [andb negb] in E.
      * right. split.
        -- intros E0. rewrite E0 in Et. discriminate.
        -- exact (f_equal (fun x => fst (fst x)) E).
      * left. apply (core_history _ _ E).
  - left. apply history_onKeyDown_other, Ek.
Qed.

(** X5: in every reachable state every entry of the history is a command as
    it was submitted, trimmed: it is not empty and has no whitespace at
    either end.  An event never removes or reorders entries; it adds at most
    one, at the end. *)
Theorem X5_history_entries (h : Host) (t : Terminal) :
  reachable h t ->
  Forall (fun command => command <> [] /\ trim command = command)
    (commandHistory t)
  /\ forall ev,
       commandHistory (step h t ev) = commandHistory t
       \/ exists command,
            commandHistory (step h t ev) = commandHistory t ++ [command].
Proof.
  intros Hr. split.
  - induction Hr as [p | t ev _ IH]; [constructor |].
    destruct (history_step h t ev) as [-> | [Hne ->]]; [exact IH |].
    apply Forall_app. split; [exact IH |].
    constructor; [| constructor].
    split; [| apply trim_trim].
    exact Hne.
  - intros ev. destruct (history_step h t ev) as [E | [_ E]];
      [left; exact E | right; eexists; exact E].
Qed.

Lemma X5_history_entries_witness :
  Forall (fun command => command <> [] /\ trim command = command)
    (commandHistory
       (steps browser typed3 [Edit ([TAB] ++ js " git  status "); Enter])).
Proof.
  apply (X5_history_entries browser).
  apply reachable_steps, typed3_reachable.
Defined.

Lemma step_ArrowUp h t :
  interactiveMode t = false -> step h t ArrowUp = navigateHistory (-1) t.
Proof.
  intros E. change (step h t ArrowUp) with (onKeyDown (js "ArrowUp") false t).
  unfold onKeyDown. rewrite E.
  change (str_eqb (js "ArrowUp") (js "Enter")) with false.
  change (str_eqb (js "ArrowUp") (js "ArrowUp")) with true.
  reflexivity.
Qed.

Lemma step_ArrowDown h t :
  interactiveMode t = false -> step h t ArrowDown = navigateHistory 1 t.
Proof.
  intros E.
  change (step h t ArrowDown) with (onKeyDown (js "ArrowDown") false t).
  unfold onKeyDown. rewrite E.
  change (str_eqb (js "ArrowDown") (js "Enter")) with false.
  change (str_eqb (js "ArrowDown") (js "ArrowUp")) with false.
  change (str_eqb (js "ArrowDown") (js "ArrowDown")) with true.
  reflexivity.
Qed.

(** X19: Up then Down.  In Normal mode, with a history and the cursor [i]
    at 1 or more, Up followed by Down brings the cursor back to [i].  The
    input box then shows entry [i] of the history or, with the cursor at the
    end, nothing: whatever was typed in the box before is not restored. *)
Theorem X19_up_then_down (h : Host) (t : Terminal) :
  interactiveMode t = false ->
  commandHistory t <> [] ->
  (1 <= historyIndex t <= Z.of_nat (length (commandHistory t)))%Z ->
  let t' := steps h t [ArrowUp; ArrowDown] in
  historyIndex t' = historyIndex t
  /\ commandHistory t' = commandHistory t
  /\ input_value (page t')
     = if (historyIndex t <? Z.of_nat (length (commandHistory t)))%Z
       then nth (Z.to_nat (historyIndex t)) (commandHistory t) []
       else [].
Proof.
  intros Hm Hne Hi t'. subst t'. cbn [steps fold_left].
  rewrite (step_ArrowUp h t Hm).
  destruct (navigateHistory_spec (-1) t Hne) as (_ & _ & Hmid).
  destruct Hmid as [Hi1 _]; [unfold cursor_len; lia |].
  destruct (mode_navigateHistory (-1) t) as [Hh1 Hm1].
  rewrite step_ArrowDown by (rewrite Hm1; exact Hm).
  set (t1 := navigateHistory (-1) t) in *.
  assert (Hne1 : commandHistory t1 <> []) by (rewrite Hh1; exact Hne).
  destruct (navigateHistory_spec 1 t1 Hne1) as (_ & Hhi & Hmid).
  destruct (mode_navigateHistory 1 t1) as [Hh2 _].
  unfold cursor_len in *. rewrite Hh1 in *. rewrite Hi1 in *.
  split; [| split; [exact Hh2 |]].
  - destruct (Z_lt_dec (historyIndex t)
                (Z.of_nat (length (commandHistory t)))) as [L | L].
    + destruct Hmid as [-> _]; lia.
    + destruct Hhi as [-> _]; lia.
  - destruct (historyIndex t <? Z.of_nat (length (commandHistory t)))%Z eqn:E.
    + apply Z.ltb_lt in E. destruct Hmid as [_ ->]; [lia |].
      f_equal. f_equal. lia.
    + apply Z.ltb_ge in E. destruct Hhi as [_ ->]; [lia | reflexivity].
Qed.

Lemma X19_up_then_down_witness :
  let t := step browser typed3 (Edit (js "draft")) in
  input_value (page t) = js "draft"
  /\ input_value (page (steps browser t [ArrowUp; ArrowDown])) = []
  /\ historyIndex (steps browser t [ArrowUp; ArrowDown]) = 3%Z.
Proof.
  intros t. split; [reflexivity |].
  destruct (X19_up_then_down browser t) as (Hi & _ & Hv);
    [reflexivity | discriminate | vm_compute; split; discriminate |].
  split; [exact Hv | exact Hi].
Defined.

End History.

(** ** The lines a chunk adds *)

Section Chunk.

Lemma shown_length_appends l t :
  length (shown (appends l t)) = (length (shown t) + length l)%nat.
Proof. unfold shown, appends. cbn. apply length_app. Qed.

Lemma addRawOutput_loop_count text n lines :
  lines <> [] ->
  forall i t,
    (i + length lines = n)%nat ->
    length (shown (addRawOutput_loop text n i lines t))
    = (length (shown t) + length lines
       - (if truthy (trim (last lines [])) then 0 else 1))%nat.
Proof.
  induction lines as [| line rest IH]; [contradiction |].
  intros _ i t Hn. cbn [addRawOutput_loop].
  destruct (addRawOutput_body_appends text n i line t) as (l & -> & Hl).
  destruct rest as [| line2 rest].
  - cbn [addRawOutput_loop last length] in *.
    rewrite shown_length_appends, Hl.
    replace (i =? n - 1)%nat with true by (symmetry; apply Nat.eqb_eq; lia).
    destruct (truthy (trim line)); cbn [negb andb]; lia.
  - rewrite (IH ltac:(discriminate) (S i) (appends l t))
      by (cbn [length] in *; lia).
    rewrite shown_length_appends, Hl.
    replace (i =? n - 1)%nat with false
      by (symmetry; apply Nat.eqb_neq; cbn [length] in *; lia).
    rewrite andb_false_r.
    change (last (line :: line2 :: rest) []) with (last (line2 :: rest) []).
    cbn [length]. destruct (truthy (trim (last (line2 :: rest) []))); lia.
Qed.

Lemma split_not_nil sep s : split sep s <> [].
Proof.
  destruct s as [| c s]; cbn [split]; [discriminate |].
  destruct (c =? sep); [discriminate |].
  destruct (split sep s); discriminate.
Qed.

(** X21: how many lines a chunk adds.  [addRawOutput] adds one line to the
    output element for every fragment of the sanitized chunk, except that
    the last fragment (what follows the last line feed) adds none when it is
    blank.  Lines shown before stay. *)
Theorem X21_lines_of_a_chunk (text : jsstring) (t : Terminal) :
  let lines := split LF (stripAnsiCodes text) in
  (exists added,
     output (page (addRawOutput text t)) = output (page t) ++ added
     /\ length added
        = (length lines
           - (if truthy (trim (last lines [])) then 0 else 1))%nat)
  /\ (1 <= length lines)%nat.
Proof.
  intros lines.
  assert (Hne : lines <> []) by apply split_not_nil.
  split; [| destruct lines; [contradiction | cbn [length]; lia]].
  destruct (addRawOutput_appends text t) as [added Ha].
  exists added. rewrite Ha. split; [reflexivity |].
  pose proof (addRawOutput_loop_count text (length lines) lines Hne 0 t
                eq_refl) as Hc.
  change (addRawOutput_loop text (length lines) 0 lines t)
    with (addRawOutput text t) in Hc.
  rewrite Ha, shown_length_appends in Hc. lia.
Qed.

End Chunk.

(** ** More on the sanitizer *)

Section SanitizerMore.

Lemma exec_at_len ml r pv s len cap :
  exec_at ml r pv s = Some (len, cap) -> (len <= length s)%nat.
Proof.
  unfold exec_at. destruct (rmatch ml r _ Some); [| discriminate].
  intros E. injection E as <- _. lia.
Qed.

(** A replacement that is no longer than what it replaces does not lengthen
    the text. *)
Lemma replace_go_length ml r rep :
  (forall pv s len cap,
     exec_at ml r pv s = Some (len, cap) -> (length rep <= len)%nat) ->
  forall s pv n,
    (length (replace_go ml r rep pv n s) + Nat.min n (length s)
     <= length s)%nat.
Proof.
  intros Hr. induction s as [| c s IH]; intros pv n.
  - destruct n; cbn [replace_go length]; [| lia].
    destruct (exec_at ml r pv []) as [[len cap] |] eqn:E; cbn [length];
      [| lia].
    pose proof (Hr _ _ _ _ E). pose proof (exec_at_len _ _ _ _ _ _ E).
    cbn [length] in *. lia.
  - destruct n as [| n]; cbn [replace_go].
    + destruct (exec_at ml r pv (c :: s)) as [[[| m] cap] |] eqn:E.
      * pose proof (Hr _ _ _ _ E). specialize (IH (Some c) 0%nat).
        rewrite length_app. cbn [length] in *. lia.
      * pose proof (Hr _ _ _ _ E). pose proof (exec_at_len _ _ _ _ _ _ E).
        specialize (IH (Some c) m).
        rewrite length_app. cbn [length] in *. lia.
      * specialize (IH (Some c) 0%nat). cbn [length] in *. lia.
    + specialize (IH (Some c) n). cbn [length]. lia.
Qed.

Lemma replace_length ml r rep s :
  (forall pv s len cap,
     exec_at ml r pv s = Some (len, cap) -> (length rep <= len)%nat) ->
  (length (replace ml r rep s) <= length s)%nat.
Proof.
  intros Hr. pose proof (replace_go_length ml r rep Hr s None 0). 
  unfold replace. lia.
Qed.

Lemma exec_at_re_crlf pv s res :
  exec_at false re_crlf pv s = Some res ->
  exists s', s = CR :: LF :: s' /\ res = (2%nat, None).
Proof.
  unfold exec_at, re_crlf. cbn [rmatch ms_rest ms_cap ms_prev].
  destruct s as [| c [| d s]]; try discriminate.
  - destruct (lit CR c); discriminate.
  - destruct (lit CR c) eqn:Ec; [| discriminate].
    destruct (lit LF d) eqn:Ed; [| discriminate].
    apply N.eqb_eq in Ec, Ed. subst c d. cbn [ms_rest ms_cap length].
    intros E.
    replace (S (S (length s)) - length s)%nat with 2%nat in E by lia.
    injection E as <-. exists s. split; reflexivity.
Qed.

Lemma strip_trailing_length s : (length (strip_trailing s) <= length s)%nat.
Proof.
  induction s as [| c s IH]; cbn [strip_trailing length]; [lia |].
  destruct (_ && _); cbn [length]; lia.
Qed.

Lemma collapse_length s b : (length (collapse b s) <= length s)%nat.
Proof.
  revert b. induction s as [| c s IH]; intros b; cbn [collapse length];
    [lia |].
  destruct (cls_blank c); [destruct b |]; cbn [length];
    match goal with
    | |- context [collapse ?x s] => specialize (IH x)
    end; lia.
Qed.

Lemma filter_length_le' (p : char -> bool) s :
  (length (filter p s) <= length s)%nat.
Proof.
  induction s as [| c s IH]; cbn [filter length]; [lia |].
  destruct (p c); cbn [length]; lia.
Qed.

(** X13: the sanitizer never makes a text longer: every replacement puts
    nothing, or one unit for a match of one unit or more. *)
Theorem X13_sanitizer_no_longer (x : jsstring) :
  (length (stripAnsiCodes x) <= length x)%nat.
Proof.
  rewrite stripAnsiCodes_stages.
  assert (Hnil : forall r (s : jsstring),
             (length (replace false r [] s) <= length s)%nat).
  { intros r s. apply replace_length. intros. cbn [length]. lia. }
  assert (Hcrlf : forall s : jsstring,
             (length (replace false re_crlf [LF] s) <= length s)%nat).
  { intros s. apply replace_length. intros pv s0 len cap E.
    destruct (exec_at_re_crlf _ _ _ E) as (_ & _ & E2).
    injection E2 as -> _. cbn [length]. lia. }
  repeat match goal with
         | |- (length (strip_trailing ?s) <= _)%nat =>
             eapply Nat.le_trans; [apply strip_trailing_length |]
         | |- (length (collapse _ ?s) <= _)%nat =>
             eapply Nat.le_trans; [apply collapse_length |]
         | |- (length (filter _ ?s) <= _)%nat =>
             eapply Nat.le_trans; [apply filter_length_le' |]
         | |- (length (replace false re_crlf [LF] ?s) <= _)%nat =>
             eapply Nat.le_trans; [apply Hcrlf |]
         | |- (length (replace false _ [] ?s) <= _)%nat =>
             eapply Nat.le_trans; [apply Hnil |]
         end.
  apply Nat.le_refl.
Qed.

(** What a replacement puts comes from the text when the match holds it. *)
Lemma In_replace_go ml r rep c :
  (forall pv s res, exec_at ml r pv s = Some res -> In c rep -> In c s) ->
  forall s pv n, In c (replace_go ml r rep pv n s) -> In c s.
Proof.
  intros Hr. induction s as [| d s IH]; intros pv n.
  - destruct n; cbn [replace_go]; [| tauto].
    destruct (exec_at ml r pv []) eqn:E; [| tauto]. eauto.
  - destruct n as [| n]; cbn [replace_go].
    + destruct (exec_at ml r pv (d :: s)) as [[[| m] cap] |] eqn:E.
      * intros H. apply in_app_or in H. destruct H as [H | [<- | H]].
        -- eauto.
        -- left. reflexivity.
        -- right. eauto.
      * intros H. apply in_app_or in H. destruct H as [H | H].
        -- eauto.
        -- right. eauto.
      * intros [<- | H]; [left; reflexivity | right; eauto].
    + intros H. right. eauto.
Qed.

Lemma In_replace_nil ml r c s : In c (replace ml r [] s) -> In c s.
Proof. apply In_replace_go. intros pv s0 res _ []. Qed.

Lemma In_replace_crlf c s : In c (replace false re_crlf [LF] s) -> In c s.
Proof.
  apply In_replace_go. intros pv s0 res E [<- | []].
  destruct (exec_at_re_crlf _ _ _ E) as (s' & -> & _).
  right. left. reflexivity.
Qed.

(** X14: the sanitizer invents nothing: every unit of its output is a unit
    of its input, or the space that stands for a run of spaces and tabs. *)
Theorem X14_sanitizer_units (x : jsstring) (c : char) :
  In c (stripAnsiCodes x) -> In c x \/ c = SP.
Proof.
  rewrite stripAnsiCodes_stages. intros H.
  apply In_strip_trailing, In_collapse in H.
  destruct H as [-> | [H _]]; [right; reflexivity |]. left.
  repeat (apply filter_In in H; destruct H as [H _]).
  apply In_replace_crlf in H.
  apply filter_In in H. destruct H as [H _].
  repeat apply In_replace_nil in H. exact H.
Qed.

Lemma X14_sanitizer_units_witness :
  let x := js "a" ++ [TAB; ESC] ++ js "[1mb" in
  stripAnsiCodes x = js "a b"
  /\ (In (c_ "b") x \/ c_ "b" = SP)
  /\ (In SP x \/ SP = SP).
Proof.
  intros x. split; [vm_compute; reflexivity |]. split.
  - apply (X14_sanitizer_units x (c_ "b")). vm_compute. tauto.
  - apply (X14_sanitizer_units x SP). vm_compute. tauto.
Defined.

(** X15: the texts the sanitizer returns unchanged are exactly those it
    could have produced: no unit of the control class, no carriage return,
    no tab, and every space alone and followed, on its line, by another
    unit. *)
Theorem X15_sanitizer_fixed_points (x : jsstring) :
  stripAnsiCodes x = x
  <-> Forall (fun c => unit_ok c = true) x /\ spaced x = true.
Proof.
  split.
  - intros E. rewrite <- E. split.
    + apply stripAnsiCodes_units.
    + apply stripAnsiCodes_spaced.
  - intros [Hu Hs]. apply stripAnsiCodes_fixed; assumption.
Qed.

End SanitizerMore.

Section SplitSequence.

Lemma X15_sanitizer_fixed_points_witness : stripAnsiCodes (js "ls -l") = js "ls -l".
Proof.
  apply (proj2 (X15_sanitizer_fixed_points (js "ls -l"))).
  split; [repeat constructor | reflexivity].
Defined.

(** A repetition that reaches the end of the input, or a unit outside the
    class asked for next, inside the repeated class all along, fails. *)
Lemma star_loop_char_fails p q cap s :
  Forall (fun c => p c = true /\ q c = false) s ->
  forall pv, star_loop p cap pv s (char_k q) = None.
Proof.
  induction 1 as [| c s [Hp Hq] _ IH]; intros pv; cbn [star_loop].
  - reflexivity.
  - rewrite Hp, IH. unfold char_k. cbn [rmatch ms_rest]. rewrite Hq.
    reflexivity.
Qed.

Lemma cls_param_facts c :
  cls_param c = true ->
  letter c = false /\ unit_ok c = true /\ (c =? SP) = false
  /\ lit ESC c = false.
Proof.
  unfold cls_param, digit, letter, unit_ok, cls_control, in_range, lit, c_,
    ESC, SP, CR, TAB.
  cbn [N_of_ascii N_of_digits]. intros H.
  assert (Hc : (48 <= c <= 57 \/ c = 59)%N).
  { apply orb_true_iff in H. destruct H as [H | H].
    - apply andb_true_iff in H. destruct H as [H1 H2].
      apply N.leb_le in H1, H2. cbn in H1, H2. lia.
    - apply N.eqb_eq in H. cbn in H. lia. }
  clear H.
  repeat split;
    repeat match goal with
           | |- _ && _ = true => apply andb_true_iff; split
           | |- negb _ = true => apply negb_true_iff
           | |- _ || _ = false => apply orb_false_iff; split
           | |- _ && _ = false => apply andb_false_iff
           | |- (_ =? _) = false => apply N.eqb_neq
           end;
    try (cbn; lia);
    try (left; apply N.leb_gt; cbn; lia);
    try (right; apply N.leb_gt; cbn; lia).
Qed.

Lemma exec_at_re_csi_open pv params :
  Forall (fun c => cls_param c = true) params ->
  exec_at false re_csi pv (ESC :: c_ "[" :: params) = None.
Proof.
  intros Hp. unfold exec_at.
  change (rmatch false re_csi (MState pv (ESC :: c_ "[" :: params) None) Some)
    with (star_loop cls_param None (Some (c_ "[")) params (char_k letter)).
  rewrite star_loop_char_fails; [reflexivity |].
  eapply Forall_impl; [| exact Hp]. cbv beta. intros c Hc.
  split; [exact Hc | apply (cls_param_facts c Hc)].
Qed.

Lemma exec_at_re_csi_closed pv params l :
  Forall (fun c => cls_param c = true) params ->
  letter l = true ->
  exec_at false re_csi pv (ESC :: c_ "[" :: params ++ [l])
  = Some (length (ESC :: c_ "[" :: params ++ [l]), None).
Proof.
  intros Hp Hl. unfold exec_at.
  change (rmatch false re_csi
            (MState pv (ESC :: c_ "[" :: params ++ [l]) None) Some)
    with (star_loop cls_param None (Some (c_ "[")) (params ++ [l])
            (char_k letter)).
  rewrite (star_loop_span cls_param None params [l] (char_k letter)
             (MState (Some l) [] None)).
  - cbn [ms_rest ms_cap length]. rewrite Nat.sub_0_r. reflexivity.
  - exact Hp.
  - destruct (cls_param l) eqn:E; [| reflexivity].
    destruct (cls_param_facts l E) as [E' _]. congruence.
  - unfold char_k. cbn [rmatch ms_rest ms_cap]. rewrite Hl. reflexivity.
Qed.

Lemma replace_go_skip_all ml r rep s :
  (forall pv, exec_at ml r pv [] = None) ->
  forall pv, replace_go ml r rep pv (length s) s = [].
Proof.
  intros Hr. induction s as [| c s IH]; intros pv; cbn [length replace_go].
  - rewrite Hr. reflexivity.
  - apply IH.
Qed.

(** X16: a colour or cursor sequence is removed only when its final letter
    is in the same chunk.  A chunk that is the whole sequence (ESC, "[",
    digits and semicolons, a letter) sanitizes to the empty text; a chunk
    that ends inside the parameters loses only the ESC: the "[" and the
    parameters come out as text. *)
Theorem X16_split_sequence (params : jsstring) :
  Forall (fun c => cls_param c = true) params ->
  (forall l, letter l = true ->
     stripAnsiCodes (ESC :: c_ "[" :: params ++ [l]) = [])
  /\ stripAnsiCodes (ESC :: c_ "[" :: params) = c_ "[" :: params.
Proof.
  intros Hp. split.
  - intros l Hl. unfold stripAnsiCodes. cbv zeta.
    assert (E : replace false re_csi [] (ESC :: c_ "[" :: params ++ [l]) = []).
    { unfold replace. cbn [replace_go].
      rewrite (exec_at_re_csi_closed None params l Hp Hl).
      cbn [length app]. apply replace_go_skip_all.
      intros pv. reflexivity. }
    rewrite E. reflexivity.
  - set (y := c_ "[" :: params).
    assert (Hy : Forall (fun c => unit_ok c = true /\ (c =? SP) = false
                                  /\ lit ESC c = false) y).
    { constructor; [repeat split |].
      eapply Forall_impl; [| exact Hp]. cbv beta. intros c Hc.
      apply (cls_param_facts c Hc). }
    assert (Hu : Forall (fun c => unit_ok c = true) y)
      by (eapply Forall_impl; [| exact Hy]; cbv beta; tauto).
    assert (Hesc : Forall (fun c => lit ESC c = false) y)
      by (eapply Forall_impl; [| exact Hy]; cbv beta; tauto).
    assert (Hs : spaced y = true).
    { clear - Hy. induction Hy as [| c s (_ & Hc & _) _ IH]; [reflexivity |].
      cbn [spaced]. rewrite Hc. exact IH. }
    assert (E1 : replace false re_csi [] (ESC :: y) = ESC :: y).
    { unfold replace. cbn [replace_go]. subst y.
      rewrite (exec_at_re_csi_open None params Hp). f_equal.
      apply (replace_go_none false re_csi [] (lit ESC)); [| exact Hesc].
      apply starts_in_seq_char. }
    assert (E2 : replace false re_osc [] (ESC :: y) = ESC :: y).
    { unfold replace. cbn [replace_go]. subst y.
      change (exec_at false re_osc None (ESC :: c_ "[" :: params)) with
        (@None (nat * option jsstring)).
      cbv iota. f_equal.
      apply (replace_go_none false re_osc [] (lit ESC)); [| exact Hesc].
      apply starts_in_seq_char. }
    assert (E3 : replace false re_keypad [] (ESC :: y) = ESC :: y).
    { unfold replace. cbn [replace_go]. subst y.
      change (exec_at false re_keypad None (ESC :: c_ "[" :: params)) with
        (@None (nat * option jsstring)).
      cbv iota. f_equal.
      apply (replace_go_none false re_keypad [] (lit ESC)); [| exact Hesc].
      apply starts_in_seq_char. }
    rewrite stripAnsiCodes_stages, E1, E2, E3.
    pose proof (unit_ok_not CR y (or_intror eq_refl) Hu) as Hcr.
    pose proof (unit_ok_not BEL y (or_introl eq_refl) Hu) as Hbel.
    assert (Her : Forall (fun c => any_of [BS; DEL] c = false) y).
    { eapply Forall_impl; [| exact Hu]. intros c Hc.
      unfold unit_ok in Hc. unfold any_of. cbn [existsb].
      destruct (c =? BS) eqn:Ea;
        [apply N.eqb_eq in Ea; subst c; discriminate |].
      destruct (c =? DEL) eqn:Eb;
        [apply N.eqb_eq in Eb; subst c; discriminate |].
      reflexivity. }
    assert (Hct : Forall (fun c => cls_control c = false) y).
    { eapply Forall_impl; [| exact Hu]. intros c Hc.
      unfold unit_ok in Hc. destruct (cls_control c); [discriminate |].
      reflexivity. }
    cbn [filter]. change (negb (any_of [BS; DEL] ESC)) with true. cbv iota.
    rewrite (filter_none (any_of [BS; DEL]) y Her).
    rewrite (replace_none false re_crlf [LF] (lit CR) (ESC :: y)
               (starts_in_seq_char _ _ _)) by (constructor; [reflexivity | exact Hcr]).
    cbn [filter]. change (negb (lit CR ESC)) with true. cbv iota.
    rewrite (filter_none (lit CR) y Hcr).
    cbn [filter]. change (negb (lit BEL ESC)) with true. cbv iota.
    rewrite (filter_none (lit BEL) y Hbel).
    cbn [filter]. change (negb (cls_control ESC)) with false. cbv iota.
    rewrite (filter_none cls_control y Hct).
    rewrite (collapse_spaced y Hu Hs). apply strip_trailing_spaced, Hs.
Qed.

Lemma X16_split_sequence_witness :
  stripAnsiCodes ([ESC] ++ js "[1;31m") = []
  /\ stripAnsiCodes ([ESC] ++ js "[1;31") = js "[1;31".
Proof.
  destruct (X16_split_sequence (js "1;31")) as [Hc Ho].
  - repeat constructor.
  - split; [apply (Hc (c_ "m")); reflexivity | exact Ho].
Defined.

End SplitSequence.

(** ** The short path *)

Section ShortPath.

Lemma startsWith_app p r : startsWith (p ++ r) p = true.
Proof.
  induction p as [| c p IH]; [destruct r; reflexivity |].
  cbn [app startsWith]. rewrite N.eqb_refl. exact IH.
Qed.

Lemma getShortPath_process h user (path : jsstring) :
  process_env_USER h = Some user ->
  path <> [] ->
  getShortPath h (Some path)
  = let home := js "/home/" ++ user_name user in
    if startsWith path home then
      Normal (js "~" ++ substring path (length home))
    else
      let parts := split (c_ "/") path in
      if (3 <? length parts)%nat then
        Normal (js ".../" ++ join (js "/") (slice_last 2 parts))
      else Normal path.
Proof.
  intros Hp Hne. unfold getShortPath. rewrite Hp.
  destruct path as [| c path]; [contradiction |]. reflexivity.
Qed.

(** X11: where [process] is defined, a path that begins with "/home/" and
    the user's name (or with "/home/user" when USER is not set or empty) is
    shown as "~" and what follows that prefix, whatever follows it: the
    prefix is not required to end at a slash. *)
Theorem X11_short_path_home (h : Host) (user : option jsstring)
    (rest : jsstring) :
  process_env_USER h = Some user ->
  let name :=
    match user with
    | Some u => if truthy u then u else js "user"
    | None => js "user"
    end in
  getShortPath h (Some (js "/home/" ++ name ++ rest))
  = Normal (js "~" ++ rest).
Proof.
  intros Hp name.
  rewrite (getShortPath_process h user) by (assumption || discriminate).
  cbv zeta. fold name. change (user_name user) with name.
  rewrite app_assoc, startsWith_app. unfold substring.
  rewrite skipn_app, skipn_all, Nat.sub_diag. reflexivity.
Qed.

Lemma X11_short_path_home_witness :
  getShortPath (MkHost (Some (Some (js "ann")))) (Some (js "/home/annabel/src"))
  = Normal (js "~abel/src").
Proof.
  apply (X11_short_path_home (MkHost (Some (Some (js "ann"))))
           (Some (js "ann")) (js "abel/src")).
  reflexivity.
Defined.

Lemma split_component sep p : ~ In sep p -> split sep p = [p].
Proof.
  induction p as [| c p IH]; [reflexivity |]. intros Hn. cbn [split].
  destruct (c =? sep) eqn:E.
  - apply N.eqb_eq in E. subst c. exfalso. apply Hn. left. reflexivity.
  - rewrite IH; [reflexivity |]. intros Hi. apply Hn. right. exact Hi.
Qed.

Lemma split_app_sep sep p r :
  ~ In sep p -> split sep (p ++ sep :: r) = p :: split sep r.
Proof.
  induction p as [| c p IH]; intros Hn.
  - cbn [app split]. rewrite N.eqb_refl. reflexivity.
  - cbn [app split]. destruct (c =? sep) eqn:E.
    + apply N.eqb_eq in E. subst c. exfalso. apply Hn. left. reflexivity.
    + rewrite IH; [reflexivity |]. intros Hi. apply Hn. right. exact Hi.
Qed.

Lemma split_join sep ps :
  ps <> [] ->
  Forall (fun p => ~ In sep p) ps ->
  split sep (join [sep] ps) = ps.
Proof.
  intros Hne Hp. induction Hp as [| p ps Hc Hps IH]; [contradiction |].
  destruct ps as [| q ps].
  - cbn [join]. apply split_component, Hc.
  - change (join [sep] (p :: q :: ps)) with (p ++ sep :: join [sep] (q :: ps)).
    rewrite split_app_sep by exact Hc. f_equal. apply IH. discriminate.
Qed.

(** X12: where [process] is defined, a path outside the home directory
    that has more than three slash-separated parts (the empty part before a
    leading slash counts) is shown as ".../" and its last two parts; with
    three parts or fewer it is shown whole. *)
Theorem X12_short_path_parts (h : Host) (user : option jsstring)
    (parts : list jsstring) :
  process_env_USER h = Some user ->
  Forall (fun p => ~ In (c_ "/") p) parts ->
  let path := join (js "/") parts in
  path <> [] ->
  startsWith path (js "/home/" ++ user_name user) = false ->
  ((length parts <= 3)%nat -> getShortPath h (Some path) = Normal path)
  /\ (forall front a b,
        parts = front ++ [a; b] ->
        (2 <= length front)%nat ->
        getShortPath h (Some path) = Normal (js ".../" ++ a ++ js "/" ++ b)).
Proof.
  intros Hp Hc path Hne Hs.
  assert (Hparts : parts <> []).
  { intros ->. apply Hne. reflexivity. }
  rewrite (getShortPath_process h user path Hp Hne). cbv zeta. rewrite Hs.
  unfold path. change (js "/") with [c_ "/"].
  rewrite (split_join (c_ "/") parts Hparts Hc). split.
  - intros Hl. replace (3 <? length parts)%nat with false; [reflexivity |].
    symmetry. apply Nat.ltb_ge. exact Hl.
  - intros front a b -> Hl.
    replace (3 <? length (front ++ [a; b]))%nat with true
      by (symmetry; apply Nat.ltb_lt; rewrite length_app; cbn [length]; lia).
    unfold slice_last. rewrite length_app. cbn [length].
    replace (length front + 2 - 2)%nat with (length front) by lia.
    rewrite skipn_app, skipn_all, Nat.sub_diag. reflexivity.
Qed.

Lemma X12_short_path_parts_witness :
  getShortPath (MkHost (Some None)) (Some (js "/var/lib/app"))
  = Normal (js ".../lib/app")
  /\ getShortPath (MkHost (Some None)) (Some (js "/var/lib"))
     = Normal (js "/var/lib").
Proof.
  destruct (X12_short_path_parts (MkHost (Some None)) None
              [[]; js "var"; js "lib"; js "app"]) as [_ H4];
    [reflexivity | | discriminate | reflexivity |].
  { repeat (apply Forall_cons; [vm_compute; intuition discriminate |]).
    apply Forall_nil. }
  destruct (X12_short_path_parts (MkHost (Some None)) None
              [[]; js "var"; js "lib"]) as [H3 _];
    [reflexivity | | discriminate | reflexivity |].
  { repeat (apply Forall_cons; [vm_compute; intuition discriminate |]).
    apply Forall_nil. }
  split.
  - apply (H4 [[]; js "var"] (js "lib") (js "app")); [reflexivity |].
    cbn [length]. lia.
  - apply H3. cbn [length]. lia.
Defined.

End ShortPath.

(** ** The prompt and password heuristics *)

Section Heuristics.

Lemma search_from_found ml r s pre :
  forall pv,
    exec_at ml r (prev_after pv pre) s <> None ->
    search_from ml r pv (pre ++ s) <> None.
Proof.
  induction pre as [| c pre IH]; intros pv He.
  - cbn [app]. cbn [prev_after fold_left] in He.
    destruct s; cbn [search_from];
      destruct (exec_at ml r pv _) as [[len cap] |]; congruence.
  - cbn [app search_from].
    destruct (exec_at ml r pv (c :: pre ++ s)) as [[len cap] |];
      [discriminate |].
    specialize (IH (Some c) He).
    destruct (search_from ml r (Some c) (pre ++ s)) as [[[i len] cap] |];
      [discriminate | contradiction].
Qed.

Lemma exec_at_re_prompt_end pv c ws :
  any_of [c_ "@"; c_ "$"; c_ "#"] c = true ->
  forallb is_space ws = true ->
  exec_at false re_prompt_end pv (c :: ws) <> None.
Proof.
  intros Hc Hw. unfold exec_at.
  change (rmatch false re_prompt_end (MState pv (c :: ws) None) Some)
    with (if any_of [c_ "@"; c_ "$"; c_ "#"] c
          then star_loop is_space None (Some c) ws end_k
          else None).
  rewrite Hc.
  destruct (star_loop_end is_space None ws (Some c)) as [Hy _].
  destruct (Hy Hw) as [pv' ->]. discriminate.
Qed.

Lemma isPromptLine_ending pre c ws :
  any_of [c_ "@"; c_ "$"; c_ "#"] c = true ->
  forallb is_space ws = true ->
  isPromptLine (pre ++ c :: ws) = true.
Proof.
  intros Hc Hw. unfold isPromptLine, test.
  pose proof (search_from_found false re_prompt_end (c :: ws) pre None
                (exec_at_re_prompt_end _ c ws Hc Hw)) as H.
  destruct (search_from false re_prompt_end None (pre ++ c :: ws));
    [reflexivity | contradiction].
Qed.

Lemma truthy_app_cons (a : jsstring) c b : truthy (a ++ c :: b) = true.
Proof. destruct a; reflexivity. Qed.

(** X17: the prompt heuristic takes every line that ends in "@", "$" or
    "#", with or without whitespace after it, for a shell prompt, whatever
    comes before.  Such a line of shell output, unless it holds the host tag,
    is shown trimmed and whole, in bold, as a prompt. *)
Theorem X17_prompt_heuristic (pre : jsstring) (c : char) :
  c = c_ "@" \/ c = c_ "$" \/ c = c_ "#" ->
  (forall ws, forallb is_space ws = true ->
     isPromptLine (pre ++ c :: ws) = true)
  /\ (forall line isLastLine t,
        trim line = pre ++ [c] ->
        includes (trim line) host_tag = false ->
        processTerminalLine line isLastLine t
        = appends [prompt_element (trim line)] t).
Proof.
  intros Hc.
  assert (Hs : any_of [c_ "@"; c_ "$"; c_ "#"] c = true)
    by (destruct Hc as [-> | [-> | ->]]; reflexivity).
  split.
  - intros ws Hw. apply isPromptLine_ending; assumption.
  - intros line isLastLine t Et Eh. unfold processTerminalLine. cbv zeta.
    rewrite (formatPrompt_untagged _ Eh). rewrite Et.
    rewrite truthy_app_cons, (isPromptLine_ending pre c [] Hs eq_refl).
    reflexivity.
Qed.

Lemma X17_prompt_heuristic_witness :
  isPromptLine (js "mail the report to bob@") = true
  /\ shown (processTerminalLine (js "  Total: 5$ ") false (constructor bare_page))
     = [prompt_element (js "Total: 5$")].
Proof.
  destruct (X17_prompt_heuristic (js "mail the report to bob") (c_ "@"))
    as [H1 _]; [left; reflexivity |].
  destruct (X17_prompt_heuristic (js "Total: 5") (c_ "$")) as [_ H2];
    [right; left; reflexivity |].
  split.
  - apply (H1 []). reflexivity.
  - rewrite (H2 (js "  Total: 5$ ")); reflexivity.
Defined.

Lemma includes_app a w b : includes (a ++ w ++ b) w = true.
Proof.
  induction a as [| c a IH].
  - cbn [app]. destruct (w ++ b) eqn:E; cbn [includes];
      rewrite <- E, startsWith_app; reflexivity.
  - cbn [app includes]. rewrite IH. apply orb_true_r.
Qed.

(** X18: the password heuristic is blind to the case of "password" and
    looks anywhere in the line: a line that contains the word in any mix of
    upper and lower case, or contains "[sudo]", is a password prompt; unless
    the prompt heuristic claims it first, it is shown trimmed under the
    class of password prompts. *)
Theorem X18_password_heuristic (a w b : jsstring) :
  toLowerCase w = js "password" \/ w = js "[sudo]" ->
  isPasswordPrompt (a ++ w ++ b) = true
  /\ (forall line isLastLine t,
        trim line = a ++ w ++ b ->
        isPromptLine (trim line) = false ->
        processTerminalLine line isLastLine t
        = appends [text_line (js "password-prompt") (trim line)] t).
Proof.
  intros Hw.
  assert (Hp : isPasswordPrompt (a ++ w ++ b) = true).
  { unfold isPasswordPrompt. destruct Hw as [Hw | ->].
    - unfold toLowerCase in *. rewrite !map_app, Hw, includes_app.
      reflexivity.
    - rewrite includes_app. apply orb_true_iff. left. apply orb_true_r. }
  split; [exact Hp |].
  intros line isLastLine t Et En. unfold processTerminalLine. cbv zeta.
  rewrite En, Et, Hp.
  assert (Ht : truthy (a ++ w ++ b) = true).
  { destruct w as [| c w]; [destruct Hw; discriminate |].
    apply truthy_app_cons. }
  rewrite Ht. reflexivity.
Qed.

Lemma X18_password_heuristic_witness :
  isPasswordPrompt (js "Enter PassWord for key:") = true
  /\ shown (processTerminalLine (js "[sudo] enter it: ") true
              (constructor bare_page))
     = [text_line (js "password-prompt") (js "[sudo] enter it:")].
Proof.
  destruct (X18_password_heuristic (js "Enter ") (js "PassWord")
              (js " for key:")) as [H1 _]; [left; reflexivity |].
  destruct (X18_password_heuristic [] (js "[sudo]") (js " enter it:"))
    as [_ H2]; [right; reflexivity |].
  split; [exact H1 |].
  rewrite (H2 (js "[sudo] enter it: ")); reflexivity.
Defined.

End Heuristics.

(** ** The parts of a prompt line (C1) *)

Section PromptParts.

(** A repetition fails when what follows fails wherever it may stop. *)
Lemma star_loop_dead p cap s k :
  (forall st,
     match ms_rest st with [] => True | c :: _ => p c = true end ->
     k st = None) ->
  Forall (fun c => p c = true) s ->
  forall pv, star_loop p cap pv s k = None.
Proof.
  intros Hk. induction 1 as [| c s Hc Hs IH]; intros pv.
  - apply Hk. exact I.
  - cbn [star_loop]. rewrite Hc, IH. apply Hk. exact Hc.
Qed.

Lemma span_split (p : char -> bool) (s : jsstring) :
  exists u v,
    s = u ++ v
    /\ Forall (fun c => p c = true) u
    /\ match v with c :: _ => p c = false | [] => True end.
Proof.
  induction s as [| c s (u & v & -> & Hu & Hv)].
  - exists [], []. repeat split. constructor.
  - destruct (p c) eqn:E.
    + exists (c :: u), v. repeat split; [constructor; assumption | exact Hv].
    + exists [], (c :: u ++ v). repeat split; [constructor | exact E].
Qed.

Lemma sigil_iff c :
  cls_sigil c = false <-> c <> c_ "$" /\ c <> c_ "#".
Proof.
  unfold cls_sigil, any_of. cbn [existsb]. rewrite orb_false_r.
  rewrite orb_false_iff, !N.eqb_neq. reflexivity.
Qed.

Lemma sigil_true c : cls_sigil c = true <-> c = c_ "$" \/ c = c_ "#".
Proof.
  unfold cls_sigil, any_of. cbn [existsb]. rewrite orb_false_r.
  rewrite orb_true_iff, !N.eqb_eq. reflexivity.
Qed.

Lemma starts_in_re_dir : starts_in false re_dir (lit (c_ ":")).
Proof. apply starts_in_seq_char. Qed.

(** No directory where a sign comes right after the ':'. *)
Lemma exec_at_re_dir_sigil pv d s :
  cls_sigil d = true -> exec_at false re_dir pv (c_ ":" :: d :: s) = None.
Proof.
  intros Hd. unfold exec_at, re_dir.
  cbn [seq_of rmatch ms_rest ms_cap ms_prev].
  change (lit (c_ ":") (c_ ":")) with true. cbv iota.
  change (none_of [c_ "$"; c_ "#"]) with (fun c => negb (cls_sigil c)).
  cbv beta. rewrite Hd. reflexivity.
Qed.

(** Nor where no sign follows. *)
Lemma exec_at_re_dir_open pv u :
  Forall (fun c => cls_sigil c = false) u ->
  exec_at false re_dir pv (c_ ":" :: u) = None.
Proof.
  intros Hu. unfold exec_at, re_dir.
  cbn [seq_of rmatch ms_rest ms_cap ms_prev].
  change (lit (c_ ":") (c_ ":")) with true. cbv iota.
  change (none_of [c_ "$"; c_ "#"]) with (fun c => negb (cls_sigil c)).
  destruct u as [| d0 u]; [reflexivity |].
  inversion Hu as [| ? ? Hd0 Hu']; subst. cbv beta. rewrite Hd0. cbn [negb].
  rewrite star_loop_dead; [reflexivity | |].
  - intros st Hst. cbn [ms_rest ms_cap ms_prev].
    destruct (ms_rest st) as [| c r]; [reflexivity |].
    apply negb_true_iff in Hst. rewrite Hst. reflexivity.
  - eapply Forall_impl; [| exact Hu']. cbv beta. intros c ->. reflexivity.
Qed.

(** Where the pattern matches: at a ':' with a directory and a sign. *)
Lemma exec_at_re_dir_inv pv s len cap :
  exec_at false re_dir pv s = Some (len, cap) ->
  exists dir sg post,
    s = c_ ":" :: dir ++ sg :: post
    /\ dir <> []
    /\ Forall (fun c => cls_sigil c = false) dir
    /\ cls_sigil sg = true
    /\ cap = Some dir.
Proof.
  intros He.
  destruct (starts_in_re_dir pv s) as (c & s' & -> & Hc); [congruence |].
  apply N.eqb_eq in Hc. subst c.
  destruct (span_split (fun c => negb (cls_sigil c)) s')
    as (u & v & -> & Hu & Hv).
  assert (Hu' : Forall (fun c => cls_sigil c = false) u).
  { eapply Forall_impl; [| exact Hu]. cbv beta. intros c Hc.
    apply negb_true_iff, Hc. }
  destruct v as [| sg post].
  - rewrite app_nil_r, exec_at_re_dir_open in He by exact Hu'. discriminate.
  - apply negb_false_iff in Hv. destruct u as [| d0 u].
    + cbn [app] in He. rewrite exec_at_re_dir_sigil in He by exact Hv.
      discriminate.
    + rewrite exec_at_re_dir in He by (try assumption; discriminate).
      injection He as _ <-. exists (d0 :: u), sg, post.
      repeat split; try assumption. discriminate.
Qed.

(** The search passes over every ':' that has a sign right after it. *)
Lemma search_from_blocked pre suf len cap :
  colons_blocked pre = true ->
  (forall pv, exec_at false re_dir pv suf = Some (len, cap)) ->
  forall pv,
    search_from false re_dir pv (pre ++ suf) = Some (length pre, len, cap).
Proof.
  intros Hb He. induction pre as [| c pre IH]; intros pv.
  - cbn [app length]. destruct suf; cbn [search_from]; rewrite He; reflexivity.
  - cbn [colons_blocked] in Hb. apply andb_true_iff in Hb.
    destruct Hb as [Hc Hb]. cbn [app search_from length].
    assert (E : exec_at false re_dir pv (c :: pre ++ suf) = None).
    { destruct (lit (c_ ":") c) eqn:Ec.
      - apply N.eqb_eq in Ec. subst c.
        destruct pre as [| d pre]; [discriminate |].
        apply exec_at_re_dir_sigil, Hc.
      - destruct (exec_at false re_dir pv (c :: pre ++ suf)) eqn:E;
          [| reflexivity].
        destruct (starts_in_re_dir pv (c :: pre ++ suf))
          as (c' & s' & Hcs & Hp); [congruence |].
        injection Hcs as <- <-. congruence. }
    rewrite E, (IH Hb). reflexivity.
Qed.

(** What a successful search has passed over and found. *)
Lemma search_from_inv ml r s :
  forall pv i len cap,
    search_from ml r pv s = Some (i, len, cap) ->
    exists pre suf,
      s = pre ++ suf
      /\ exec_at ml r (prev_after pv pre) suf = Some (len, cap)
      /\ forall a c b,
           pre = a ++ c :: b ->
           exec_at ml r (prev_after pv a) (c :: b ++ suf) = None.
Proof.
  induction s as [| c s IH]; intros pv i len cap H; cbn [search_from] in H.
  - destruct (exec_at ml r pv []) as [[l k] |] eqn:E; [| discriminate].
    injection H as <- <- <-. exists [], []. repeat split; [exact E |].
    intros [| ? ?] ? ? Ha; discriminate.
  - destruct (exec_at ml r pv (c :: s)) as [[l k] |] eqn:E.
    + injection H as <- <- <-. exists [], (c :: s).
      repeat split; [exact E |]. intros [| ? ?] ? ? Ha; discriminate.
    + destruct (search_from ml r (Some c) s) as [[[i' l] k] |] eqn:Es;
        [| discriminate].
      injection H as <- <- <-.
      destruct (IH _ _ _ _ Es) as (pre & suf & -> & Hx & Hf).
      exists (c :: pre), suf. repeat split; [exact Hx |].
      intros [| a0 a] c' b Ha; cbn [app] in Ha; injection Ha as <- ->.
      * exact E.
      * apply (Hf a c' b eq_refl).
Qed.

(** Before the first match every ':' has a sign right after it. *)
Lemma blocked_before_match pre dir sg post :
  dir <> [] ->
  Forall (fun c => cls_sigil c = false) dir ->
  cls_sigil sg = true ->
  (forall a c b,
     pre = a ++ c :: b ->
     exists pv,
       exec_at false re_dir pv (c :: b ++ c_ ":" :: dir ++ sg :: post)
       = None) ->
  colons_blocked pre = true.
Proof.
  intros Hne Hd Hs. induction pre as [| c pre IH]; intros Hf; [reflexivity |].
  cbn [colons_blocked]. apply andb_true_iff. split.
  - destruct (lit (c_ ":") c) eqn:Ec; [| reflexivity].
    apply N.eqb_eq in Ec. subst c.
    destruct (Hf [] (c_ ":") pre eq_refl) as (pv & E).
    destruct pre as [| d pre].
    + assert (E' : exec_at false re_dir pv
                     (c_ ":" :: (c_ ":" :: dir) ++ sg :: post) <> None).
      { rewrite exec_at_re_dir;
          [discriminate | discriminate | | exact Hs].
        constructor; [reflexivity | exact Hd]. }
      destruct (E' E).
    + destruct (cls_sigil d) eqn:Ed; [reflexivity |]. exfalso.
      destruct (span_split (fun c => negb (cls_sigil c))
                  (pre ++ c_ ":" :: dir ++ sg :: post))
        as (u & v & Huv & Hu & Hv).
      cbn [app] in E. rewrite Huv in E.
      assert (Hu' : Forall (fun c => cls_sigil c = false) (d :: u)).
      { constructor; [exact Ed |]. eapply Forall_impl; [| exact Hu].
        cbv beta. intros c Hc. apply negb_true_iff, Hc. }
      destruct v as [| s1 v].
      * rewrite app_nil_r in Huv.
        assert (Hin : In sg u).
        { rewrite <- Huv. apply in_or_app. right. right.
          apply in_or_app. right. left. reflexivity. }
        inversion Hu' as [| ? ? _ Hu'']; subst.
        rewrite Forall_forall in Hu''. rewrite (Hu'' sg Hin) in Hs.
        discriminate.
      * apply negb_false_iff in Hv.
        assert (E' : exec_at false re_dir pv
                       (c_ ":" :: (d :: u) ++ s1 :: v) <> None).
        { rewrite exec_at_re_dir;
            [discriminate | discriminate | exact Hu' | exact Hv]. }
        destruct (E' E).
  - apply IH. intros a c' b Ha.
    destruct (Hf (c :: a) c' b) as (pv & E); [rewrite Ha; reflexivity |].
    exists pv. exact E.
Qed.

Lemma formatPrompt_parts pre dir sg post :
  let line := pre ++ c_ ":" :: dir ++ sg :: post in
  includes line host_tag = true ->
  colons_blocked pre = true ->
  dir <> [] ->
  Forall (fun c => cls_sigil c = false) dir ->
  cls_sigil sg = true ->
  formatPrompt line
  = dir ++ (if includes line (js "#") then js "#" else js "$").
Proof.
  intros line Ht Hpre Hne Hd Hs. unfold formatPrompt. rewrite Ht.
  unfold match_, line.
  rewrite (search_from_blocked pre _ _ _ Hpre
             (fun pv => exec_at_re_dir pv dir sg post Hne Hd Hs)).
  unfold re_tilde, replace.
  change (js "~") with [c_ "~"]. rewrite replace_go_same. reflexivity.
Qed.

(** A line with such parts has a match. *)
Lemma prompt_parts_found line pre dir sg post :
  prompt_parts line pre dir sg post -> match_ false re_dir line <> None.
Proof.
  intros (-> & Hne & Hd & Hs). unfold match_.
  pose proof (search_from_found false re_dir (c_ ":" :: dir ++ sg :: post)
                pre None) as Hf.
  destruct (search_from false re_dir None _) as [[[i len] cap] |];
    [discriminate |].
  exfalso. apply Hf; [| reflexivity].
  rewrite (exec_at_re_dir _ dir sg post); [discriminate | exact Hne | |].
  - eapply Forall_impl; [| exact Hd]. cbv beta. intros c Hc.
    apply sigil_iff, Hc.
  - apply sigil_true, Hs.
Qed.

(** A line is cut at its first ':' that has a directory and a sign after
    it, or it has none. *)
Lemma prompt_parts_or_none (line : jsstring) :
  (exists pre dir sg post,
     prompt_parts line pre dir sg post /\ colons_blocked pre = true)
  \/ match_ false re_dir line = None.
Proof.
  unfold match_.
  destruct (search_from false re_dir None line) as [[[i len] cap] |] eqn:E;
    [left | right; reflexivity].
  destruct (search_from_inv _ _ _ _ _ _ _ E) as (pre & suf & -> & Hx & Hf).
  destruct (exec_at_re_dir_inv _ _ _ _ Hx)
    as (dir & sg & post & -> & Hne & Hd & Hs & _).
  exists pre, dir, sg, post. split.
  - repeat split; [exact Hne | | apply sigil_true, Hs].
    eapply Forall_impl; [| exact Hd]. cbv beta. intros c Hc.
    apply sigil_iff, Hc.
  - apply (blocked_before_match pre dir sg post Hne Hd Hs).
    intros a c b Ha. eexists. apply (Hf a c b Ha).
Qed.

(** C1, amended: the line "user@host:~/project$ " is classified as a shell
    prompt and rendered unchanged (trimmed), as "user@host:~/project$".  A
    directory segment is extracted only from a line that contains
    "web-h-063@web-h-063", and only if some ':' of it is followed by at least
    one character other than '$' and '#' and, after those, by a '$' or a
    '#'.  The segment is then the text after the first such ':' up to the
    first '$' or '#' that follows it, and the line is rendered as the segment
    followed by the prompt symbol ('#' if the line contains '#', else '$'):
    "web-h-063@web-h-063:~/project$" is rendered as "~/project$".  A line
    with that text but no such ':', and every line without that text, is
    rendered as it is.

    In the statement a line with such a ':' is written [pre ++ ":" ++ dir ++
    sg ++ post]; the ':' is the first such one when every ':' of [pre] has a
    '$' or a '#' right after it. *)
Theorem C1_prompt_rendering :
  (forall t isLastLine,
     isPromptLine (trim prompt_line) = true
     /\ output (page (processTerminalLine prompt_line isLastLine t))
        = output (page t) ++ [prompt_element (js "user@host:~/project$")])
  /\ (forall line : jsstring,
        includes line host_tag = false -> formatPrompt line = line)
  /\ (forall (line pre dir : jsstring) (sg : char) (post : jsstring),
        includes line host_tag = true ->
        prompt_parts line pre dir sg post ->
        colons_blocked pre = true ->
        formatPrompt line
        = dir ++ (if includes line (js "#") then js "#" else js "$"))
  /\ (forall line : jsstring,
        includes line host_tag = true ->
        (forall pre dir sg post, ~ prompt_parts line pre dir sg post) ->
        formatPrompt line = line)
  /\ (forall (line pre dir : jsstring) (sg : char) (post : jsstring),
        prompt_parts line pre dir sg post ->
        exists pre' dir' sg' post',
          prompt_parts line pre' dir' sg' post'
          /\ colons_blocked pre' = true)
  /\ formatPrompt (js "web-h-063@web-h-063:~/project$") = js "~/project$".
Proof.
  split; [| split; [| split; [| split; [| split]]]].
  - intros t isLastLine.
    assert (Ep : isPromptLine (trim prompt_line) = true)
      by (vm_compute; reflexivity).
    split; [exact Ep |].
    unfold processTerminalLine. cbv zeta. rewrite Ep.
    assert (Et : truthy (trim prompt_line) = true) by (vm_compute; reflexivity).
    rewrite Et. cbn [negb andb].
    assert (Ef : formatPrompt (trim prompt_line) = js "user@host:~/project$")
      by (vm_compute; reflexivity).
    rewrite Ef. reflexivity.
  - exact formatPrompt_untagged.
  - intros line pre dir sg post Ht (-> & Hne & Hd & Hs) Hpre.
    apply formatPrompt_parts; try assumption.
    + eapply Forall_impl; [| exact Hd]. cbv beta. intros c Hc.
      apply sigil_iff, Hc.
    + apply sigil_true, Hs.
  - intros line Ht Hno. unfold formatPrompt. rewrite Ht.
    destruct (prompt_parts_or_none line)
      as [(pre & dir & sg & post & Hp & _) | ->]; [| reflexivity].
    destruct (Hno _ _ _ _ Hp).
  - intros line pre dir sg post Hp.
    destruct (prompt_parts_or_none line) as [H | H]; [exact H |].
    destruct (prompt_parts_found _ _ _ _ _ Hp H).
  - vm_compute. reflexivity.
Qed.

Lemma C1_prompt_rendering_witness :
  formatPrompt (js "Last login: today") = js "Last login: today"
  /\ formatPrompt (js "web-h-063@web-h-063:$ a:~/b c#d$") = js "~/b c#"
  /\ formatPrompt (js "web-h-063@web-h-063:$") = js "web-h-063@web-h-063:$".
Proof.
  destruct C1_prompt_rendering as (_ & Hu & Ht & Hn & _). split; [| split].
  - apply Hu. reflexivity.
  - apply (Ht (js "web-h-063@web-h-063:$ a:~/b c#d$")
             (js "web-h-063@web-h-063:$ a") (js "~/b c") (c_ "#") (js "d$")).
    + reflexivity.
    + repeat split; [discriminate | | right; reflexivity].
      repeat (apply Forall_cons; [split; discriminate |]). apply Forall_nil.
    + reflexivity.
  - apply Hn; [reflexivity |].
    intros pre dir sg post Hp.
    apply (prompt_parts_found _ _ _ _ _ Hp). reflexivity.
Defined.

End PromptParts.

(** ** The cleared screen (C7) *)

Section ClearScreen.

Lemma mode_part_normal h o t prompt :
  prompt_shown h o t prompt ->
  fst (mode_part h o t) = Normal tt
  /\ prompt_text (page (snd (mode_part h o t))) = prompt.
Proof.
  unfold prompt_shown, mode_part.
  destruct (m_interactive o) as [[|] |].
  - intros ->. rewrite fst_bind, snd_bind. cbn [run fst snd].
    unfold updatePromptForMode. cbn [interactiveMode set_interactiveMode].
    rewrite !fst_bind, !snd_bind. cbn [run fst snd].
    rewrite prompt_write_mode_indicator. split; reflexivity.
  - intros (shortPath & Hs & ->). rewrite fst_bind, snd_bind.
    cbn [run fst snd]. unfold updatePromptForMode.
    cbn [interactiveMode set_interactiveMode].
    rewrite !fst_bind, !snd_bind. cbn [run fst snd].
    unfold updatePrompt.
    cbn [interactiveMode set_interactiveMode set_input_placeholder negb
         currentDirectory].
    rewrite Hs. cbn [fst snd]. rewrite prompt_write_mode_indicator.
    split; reflexivity.
  - intros ->. split; reflexivity.
Qed.

Lemma mode_part_throws h o t e :
  m_interactive o = Some false ->
  getShortPath h (Some (currentDirectory t)) = Throw e ->
  fst (mode_part h o t) = Throw e.
Proof.
  intros Hi Hs. rewrite fst_mode_part, Hi. cbn [mode_after]. rewrite Hi.
  unfold prompt_faults. rewrite Hs. reflexivity.
Qed.

Lemma output_screen_part_clear o t :
  flag (m_clear_screen o) = true ->
  output (page (snd (screen_part o t)))
  = if is_not_clear (m_command o)
    then [command_line (prompt_text (page t)) (template (m_command o))]
    else [].
Proof.
  intros E. unfold screen_part. rewrite E. rewrite snd_bind.
  cbn [run fst snd].
  destruct (is_not_clear (m_command o)); cbn [when ret run snd];
    [| reflexivity].
  rewrite output_addOutput_text by (vm_compute; reflexivity).
  unfold getPromptText, command_line. rewrite <- app_assoc. reflexivity.
Qed.

(** C7: given an [output] message with [clear_screen: true], [handleMessage]
    empties the output buffer and, if the command is not "clear", shows the
    command line again after the clear (the prompt, a space, the command), so
    that the buffer holds nothing for "clear" and that one line otherwise;
    this is what the handler does whenever it gets as far as the clear.  It
    does not get there when the same message carries [interactive: false]
    and [getShortPath] throws for the current directory, as it does on a host
    without [process] once a directory is known: the handler then ends with
    that exception while the mode flag is handled, and the buffer is left as
    it was, not emptied. *)
Theorem C7_clear_screen (h : Host) (t : Terminal) (o : output_message) :
  m_clear_screen o = Some true ->
  let t' := snd (handleMessage h (Output o) t) in
  (forall prompt : jsstring,
     prompt_shown h o t prompt ->
     (m_command o = Some (js "clear") -> output (page t') = [])
     /\ (forall command : jsstring,
           m_command o = Some command ->
           command <> js "clear" ->
           output (page t') = [command_line prompt command])
     /\ (m_command o = None ->
         output (page t') = [command_line prompt (js "undefined")]))
  /\ (forall e,
        m_interactive o = Some false ->
        getShortPath h (Some (currentDirectory t)) = Throw e ->
        fst (handleMessage h (Output o) t) = Throw e
        /\ output (page t') = output (page t)).
Proof.
  intros Hc t'. subst t'. rewrite handleMessage_Output. split.
  - intros prompt Hp.
    destruct (mode_part_normal h o t prompt Hp) as [Hf Hq].
    rewrite snd_bind, Hf, snd_bind, fst_screen_part.
    match goal with
    | |- context [output (page (snd (cwd_part h o ?x)))] =>
        change (output (page (snd (cwd_part h o x))))
          with (shown (snd (cwd_part h o x)))
    end.
    rewrite shown_cwd_part. unfold shown.
    rewrite output_screen_part_clear by (rewrite Hc; reflexivity).
    rewrite Hq. split; [| split].
    + intros ->. reflexivity.
    + intros command -> Hne. cbn [is_not_clear template].
      destruct (str_eqb command (js "clear")) eqn:E; [| reflexivity].
      apply str_eqb_eq in E. contradiction.
    + intros ->. reflexivity.
  - intros e Hi Hs. pose proof (mode_part_throws h o t e Hi Hs) as Hf.
    rewrite fst_bind, snd_bind, Hf. split; [reflexivity |].
    apply shown_mode_part.
Qed.

Lemma C7_clear_screen_witness :
  output (page in_srv)
  = [text_line (js "success-text") (js "Connected to FastAPI Terminal")]
  /\ output (page (snd (handleMessage browser (Output clear_plain) in_srv)))
     = []
  /\ fst (handleMessage browser (Output clear_normal) in_srv)
     = Throw (ReferenceError (js "process"))
  /\ output (page (snd (handleMessage browser (Output clear_normal) in_srv)))
     = output (page in_srv).
Proof.
  split; [reflexivity |]. split.
  - apply (proj1 (C7_clear_screen browser in_srv clear_plain eq_refl)
             (js "$")); reflexivity.
  - apply (proj2 (C7_clear_screen browser in_srv clear_normal eq_refl)
             (ReferenceError (js "process"))); reflexivity.
Defined.

End ClearScreen.
